(** * RAG-Chatbot: a shallow embedding of the retrieval pipeline

    The development follows the layout of the repository:
    [src/preprocess.py], [src/memory.py], [src/llm.py], [src/embeddings.py],
    [src/ingest.py] and [src/rag_pipeline.py] each get a module of the same
    name.  The two third-party components the code drives directly, the
    recursive character splitter and the vector collection, are modelled in
    modules of their own ([text_splitter], [chroma]) so that the code of the
    repository stays apart from the libraries it calls.

    Conventions.
    - A Python [str] is a list of characters; a character is one code point of
      the 8-bit range, classified as the Python runtime classifies it.
    - Python integers are [Z].
    - A call that may raise returns [exn + A]; stateful code threads a [World].
    - Calls to the logger have no effect on any result and are left out. *)

From Stdlib Require Import ZArith Lia Ascii String DecimalString DecimalZ DecimalPos.
From stdpp Require Import gmap strings list.

Open Scope Z_scope.
Open Scope list_scope.

(** ** Python strings *)

Module py.

Definition str := list ascii.

(** String literals of the source are written [$"..."]. *)
Definition lit (s : string) : str := list_ascii_of_string s.
Arguments lit : simpl never.

Definition len {A} (l : list A) : Z := Z.of_nat (length l).

Definition code (c : ascii) : Z := Z.of_N (N_of_ascii c).

(** [str.isspace] on one character, which is also the class [\s] of [re]. *)
Definition isspace (c : ascii) : bool :=
  let n := code c in
  ((9 <=? n) && (n <=? 13)) || ((28 <=? n) && (n <=? 32))
  || (n =? 133) || (n =? 160).

(** The class [\w] of [re]: [str.isalnum] or the underscore. *)
Definition isword (c : ascii) : bool :=
  let n := code c in
  ((48 <=? n) && (n <=? 57)) || ((65 <=? n) && (n <=? 90)) || (n =? 95)
  || ((97 <=? n) && (n <=? 122))
  || (n =? 170) || (n =? 178) || (n =? 179) || (n =? 181) || (n =? 185)
  || (n =? 186) || ((188 <=? n) && (n <=? 190))
  || ((192 <=? n) && (n <=? 214)) || ((216 <=? n) && (n <=? 246))
  || ((248 <=? n) && (n <=? 255)).

Fixpoint lstrip (s : str) : str :=
  match s with
  | c :: t => if isspace c then lstrip t else s
  | [] => []
  end.

Definition rstrip (s : str) : str := rev (lstrip (rev s)).

(** [s.strip()] *)
Definition strip (s : str) : str := rstrip (lstrip s).

(** [l[i:]] for any integer [i], negative ones counting from the end. *)
Definition slice_from {A} (i : Z) (l : list A) : list A :=
  let start := if i <? 0 then Z.max (len l + i) 0 else Z.min i (len l) in
  drop (Z.to_nat start) l.

(** [l[:j]] for a non-negative [j]. *)
Definition slice_to {A} (j : nat) (l : list A) : list A := take j l.

(** [str(i)] and [f"{i}"] for an integer. *)
Definition str_of_int (i : Z) : str := lit (NilZero.string_of_int (Z.to_int i)).

(** [sep.join(parts)] *)
Fixpoint join (sep : str) (parts : list str) : str :=
  match parts with
  | [] => []
  | [p] => p
  | p :: rest => p ++ sep ++ join sep rest
  end.

(** Truthiness of a string or list: non-empty. *)
Definition truthy {A} (l : list A) : bool :=
  match l with [] => false | _ => true end.

(** [s.startswith(p)] *)
Fixpoint startswith (p s : str) : bool :=
  match p, s with
  | [], _ => true
  | a :: p', b :: s' => bool_decide (a = b) && startswith p' s'
  | _ :: _, [] => false
  end.

(** [sub in s]; for a literal [sub] also whether
    [re.search(re.escape(sub), s)] finds a match. *)
Fixpoint contains (sub s : str) : bool :=
  startswith sub s ||
  match s with
  | [] => false
  | _ :: t => contains sub t
  end.

(** [s.lower()] on the 8-bit range. *)
Definition lower_char (c : ascii) : ascii :=
  let n := code c in
  if ((65 <=? n) && (n <=? 90)) || ((192 <=? n) && (n <=? 214))
     || ((216 <=? n) && (n <=? 222))
  then ascii_of_N (Z.to_N (n + 32)) else c.

Definition lower (s : str) : str := map lower_char s.

(** The empty string. *)
Definition empty : str := [].

(** The newline character. *)
Definition nl : str := [ascii_of_nat 10].

Definition str_eqb (a b : str) : bool := bool_decide (a = b).

End py.

Notation "$ s" := (py.lit s%string) (at level 1, format "$ s").
Abbreviation str := py.str.
Abbreviation len := py.len.

(** ** Settings: [config/settings.py], the fields the pipeline reads *)

Record Settings := {
  llm_model : str;
  llm_fallback_model : str;
  chunk_size : Z;
  chunk_overlap : Z
}.

(** The values taken when the environment sets none of them. *)
Definition default_settings : Settings := {|
  llm_model := $"amazon/nova-2-lite";
  llm_fallback_model := $"meta-llama/llama-3.2-3b-instruct:free";
  chunk_size := 1000;
  chunk_overlap := 200
|}.

(** ** Exceptions: [src/error_handling.py] *)

Inductive exn_class :=
  | ChatbotError | DocumentIngestionError | EmbeddingError | LLMError
  | DatabaseError | RetrievalError
  | OtherError.  (* any exception raised outside the repository *)

Record exn := Exn { exn_cls : exn_class; exn_msg : str }.

(** [str(e)] *)
Definition str_of_exn (e : exn) : str := exn_msg e.

Definition result (A : Type) : Type := exn + A.

#[global] Instance result_ret : MRet result := fun A a => inr a.
#[global] Instance result_bind : MBind result :=
  fun A B f m => match m with inl e => inl e | inr a => f a end.

(** [for x in xs: st = body(st, x)], stopping at the first exception. *)
Fixpoint for_each {A S} (body : S -> A -> result S) (xs : list A) (st : S) : result S :=
  match xs with
  | [] => inr st
  | x :: rest => st' ← body st x; for_each body rest st'
  end.

(** ** The recursive character splitter (third-party)

    [langchain_text_splitters.RecursiveCharacterTextSplitter] as
    [TextPreprocessor.__init__] configures it: the given size, overlap and
    separators, and the defaults [keep_separator=True],
    [is_separator_regex=False], [strip_whitespace=True], [length_function=len].
    The algorithm is the library's [_split_text], [_split_text_with_regex],
    [_merge_splits] and [_join_docs]. *)

Module text_splitter.

Record RecursiveCharacterTextSplitter := {
  _chunk_size : Z;
  _chunk_overlap : Z;
  _separators : list str
}.

Definition IndexError : exn := Exn OtherError $"list index out of range".

(** The pieces of [text] between the successive, non-overlapping
    occurrences of a non-empty literal [sep], scanning from the left:
    the items at the even positions of [re.split("(sep)", text)]. [skip]
    counts the characters of a matched occurrence still to pass over and
    [cur] holds the current piece, reversed. *)
Fixpoint re_split_go (sep : str) (skip : nat) (cur text : str) : list str :=
  match text with
  | [] => [rev cur]
  | c :: t =>
      match skip with
      | S k => re_split_go sep k cur t
      | O =>
          if py.startswith sep text
          then rev cur :: re_split_go sep (length sep - 1) [] t
          else re_split_go sep 0 (c :: cur) t
      end
  end.

Definition re_split (sep text : str) : list str := re_split_go sep 0 [] text.

(** [_split_text_with_regex(text, separator, keep_separator=True)]:
    every occurrence of the separator stays at the start of the piece that
    follows it; empty pieces are dropped. *)
Definition _split_text_with_regex (text separator : str) : list str :=
  let splits :=
    if py.truthy separator then
      match re_split separator text with
      | first :: others => first :: map (fun p => separator ++ p) others
      | [] => []
      end
    else map (fun c => [c]) text in
  List.filter py.truthy splits.

Section splitter.
Variable self : RecursiveCharacterTextSplitter.

Definition _join_docs (docs : list str) (separator : str) : option str :=
  let text := py.strip (py.join separator docs) in
  if py.truthy text then Some text else None.

(** The inner [while] of [_merge_splits]: drop leading pieces of
    [current_doc] while the running total is above the overlap, or while
    the next piece would still not fit. *)
Fixpoint pop_while (separator_len _len : Z) (current_doc : list str) (total : Z)
  : result (list str * Z) :=
  if (total >? _chunk_overlap self)
     || ((total + _len + (if 0 <? len current_doc then separator_len else 0)
          >? _chunk_size self) && (total >? 0))
  then
    match current_doc with
    | [] => inl IndexError
    | d0 :: rest =>
        pop_while separator_len _len rest
          (total - (len d0 + (if 1 <? len current_doc then separator_len else 0)))
    end
  else inr (current_doc, total).

(** One round of the [for d in splits] loop of [_merge_splits]; the state
    is [(docs, current_doc, total)]. *)
Definition merge_step (separator : str)
    (st : list str * list str * Z) (d : str) : result (list str * list str * Z) :=
  let '(docs, current_doc, total) := st in
  let separator_len := len separator in
  let _len := len d in
  '(docs, current_doc, total) ←
    (if (total + _len + (if 0 <? len current_doc then separator_len else 0)
         >? _chunk_size self) && (0 <? len current_doc)
     then
       let docs :=
         match _join_docs current_doc separator with
         | Some doc => docs ++ [doc]
         | None => docs
         end in
       '(current_doc, total) ← pop_while separator_len _len current_doc total;
       mret (docs, current_doc, total)
     else mret (docs, current_doc, total));
  let current_doc := current_doc ++ [d] in
  mret (docs, current_doc,
        total + _len + (if 1 <? len current_doc then separator_len else 0)).

Definition _merge_splits (splits : list str) (separator : str) : result (list str) :=
  '(docs, current_doc, _) ← for_each (merge_step separator) splits ([], [], 0);
  match _join_docs current_doc separator with
  | Some doc => mret (docs ++ [doc])
  | None => mret docs
  end.

(** Flush [_good_splits] into [final_chunks] when it is non-empty. *)
Definition flush (final_chunks _good_splits : list str) : result (list str) :=
  if py.truthy _good_splits
  then merged_text ← _merge_splits _good_splits []; mret (final_chunks ++ merged_text)
  else mret final_chunks.

(** The body of [_split_text] once [separator] is chosen. [recur] is
    [None] when [new_separators] is empty, and else the recursive call on
    [new_separators]. With [keep_separator] set, pieces are merged with
    the empty separator. The loop state is [(final_chunks, _good_splits)]. *)
Definition split_with (separator : str) (recur : option (str -> result (list str)))
    (text : str) : result (list str) :=
  let splits := _split_text_with_regex text separator in
  '(final_chunks, _good_splits) ←
    for_each (fun '(final_chunks, _good_splits) s =>
      if len s <? _chunk_size self
      then mret (final_chunks, _good_splits ++ [s])
      else
        final_chunks ← flush final_chunks _good_splits;
        match recur with
        | None => mret (final_chunks ++ [s], [])
        | Some _split_text' =>
            other_info ← _split_text' s; mret (final_chunks ++ other_info, [])
        end) splits ([], []);
  flush final_chunks _good_splits.

(** [_split_text(text, separators)]. The [for] loop that selects the
    separator walks down [separators]: it stops at the empty separator
    (nothing left to recurse on), or at the first one found in [text]
    (the separators after it are [new_separators]); when none matches,
    the last separator is used and [new_separators] is empty. Passing
    over a head that does not match is the same as selecting from the
    tail, both for the separator chosen and for [new_separators]. *)
Fixpoint _split_text (separators : list str) (text : str) {struct separators}
  : result (list str) :=
  match separators with
  | [] => inl IndexError  (* separators[-1] *)
  | _s :: rest =>
      if negb (py.truthy _s) then split_with [] None text
      else if py.contains _s text then
        split_with _s
          (match rest with [] => None | _ => Some (_split_text rest) end) text
      else
        match rest with
        | [] => split_with _s None text
        | _ => _split_text rest text
        end
  end.

Definition split_text (text : str) : result (list str) :=
  _split_text (_separators self) text.

End splitter.

End text_splitter.

(** ** Records exchanged between the components

    The dictionaries the components pass around have fixed keys, which become
    record fields. The metadata stored with a chunk stays a dictionary: it
    comes back from the collection and is read with [.get]. *)

Inductive MetaValue := MStr (s : str) | MInt (i : Z).

Abbreviation Metadata := (gmap string MetaValue).

(** [f"{v}"] for a metadata value. *)
Definition format_value (v : MetaValue) : str :=
  match v with MStr s => s | MInt i => py.str_of_int i end.

(** What [DocumentIngester.ingest_document] returns. *)
Record Document := {
  file_path : str;
  file_name : str;
  content : str;
  file_size : Z;
  extension : str
}.

(** What [TextPreprocessor.chunk_document] returns, one per chunk. *)
Record Chunk := {
  chunk_id : str;
  source_document : str;
  source_path : str;
  chunk_index : Z;
  chunk_content : str;   (* 'content' *)
  chunk_len : Z          (* 'chunk_size' *)
}.

(** One turn of [ConversationMemory]. *)
Record Turn := {
  timestamp : str;
  user : str;
  assistant : str
}.

Inductive Role := system | user_role | assistant_role.

(** One element of the [messages] list sent to the chat backend. *)
Record Message := { role : Role; msg_content : str }.

(** ** [src/preprocess.py] *)

Module preprocess.

Record TextPreprocessor := { text_splitter : text_splitter.RecursiveCharacterTextSplitter }.

(** [TextPreprocessor.__init__] *)
Definition __init__ (settings : Settings) : TextPreprocessor :=
  {| text_splitter :=
       {| text_splitter._chunk_size := chunk_size settings;
          text_splitter._chunk_overlap := chunk_overlap settings;
          text_splitter._separators :=
            [ py.nl ++ py.nl; py.nl; $" "; py.empty ] |} |}.

(** The first substitution, of the pattern [\s+] by one space: each maximal
    run of whitespace becomes one space. [in_run] tells that the previous
    character was whitespace. *)
Fixpoint collapse_whitespace (in_run : bool) (text : str) : str :=
  match text with
  | [] => []
  | c :: t =>
      if py.isspace c
      then (if in_run then [] else $" ") ++ collapse_whitespace true t
      else c :: collapse_whitespace false t
  end.

(** The punctuation kept by the second pattern, by code point:
    . , ! ? ; : - ' and the double quote, ( and ). *)
Definition kept_punctuation : list Z := [46; 44; 33; 63; 59; 58; 45; 39; 34; 40; 41].

(** A character survives the second substitution, which deletes whatever
    is outside the class of word characters, whitespace and the
    punctuation above. *)
Definition allowed (c : ascii) : bool :=
  py.isword c || py.isspace c || existsb (Z.eqb (py.code c)) kept_punctuation.

Definition clean_text (text : str) : str :=
  let text := collapse_whitespace false text in
  let text := List.filter allowed text in
  py.strip text.

(** The chunk dictionary built for the [i]-th piece. *)
Definition chunk_doc (document : Document) (i : nat) (chunk : str) : Chunk :=
  {| chunk_id := file_name document ++ $"_chunk_" ++ py.str_of_int (Z.of_nat i);
     source_document := file_name document;
     source_path := file_path document;
     chunk_index := Z.of_nat i;
     chunk_content := chunk;
     chunk_len := len chunk |}.

(** [chunk_document]: any exception of the splitter is logged and turned
    into the empty list. *)
Definition chunk_document (self : TextPreprocessor) (document : Document) : list Chunk :=
  let cleaned_text := clean_text (content document) in
  match text_splitter.split_text (text_splitter self) cleaned_text with
  | inr chunks => imap (chunk_doc document) chunks
  | inl _ => []
  end.

Definition process_documents (self : TextPreprocessor) (documents : list Document)
  : list Chunk :=
  fold_left (fun all_chunks document => all_chunks ++ chunk_document self document)
    documents [].

End preprocess.

(** ** The vector collection (third-party)

    A [chromadb] collection of a persistent client, as far as the pipeline
    uses it: a finite map from ids to entries. [Collection.add] validates its
    arguments and then inserts the records whose id is new; a record whose id
    is already present is skipped with a warning, and the stored entry stays
    as it is. *)

Module chroma.

Record Entry (vector : Type) := {
  document : str;
  embedding : vector;
  metadata : Metadata
}.
Arguments document {vector}.
Arguments embedding {vector}.
Arguments metadata {vector}.

(** The result of [Collection.query]: one list per query embedding. *)
Record QueryResult (distance : Type) := {
  ids : list (list str);
  documents : list (list str);
  metadatas : list (list Metadata);
  distances : option (list (list distance))
}.
Arguments ids {distance}.
Arguments documents {distance}.
Arguments metadatas {distance}.
Arguments distances {distance}.

Definition ValueError (msg : str) : exn := Exn OtherError msg.
Definition DuplicateIDError : exn :=
  Exn OtherError $"Expected IDs to be unique".

Fixpoint has_duplicates (ids : list str) : bool :=
  match ids with
  | [] => false
  | i :: rest => bool_decide (i ∈ rest) || has_duplicates rest
  end.

(** Insert one record unless its id is taken. *)
Definition add_record {vector} (c : gmap str (Entry vector))
    (r : str * Entry vector) : gmap str (Entry vector) :=
  match c !! r.1 with
  | Some _ => c
  | None => <[r.1 := r.2]> c
  end.

Definition records {vector} (ids documents : list str) (embeddings : list vector)
    (metadatas : list Metadata) : list (str * Entry vector) :=
  zip ids (zip_with (fun d em => {| document := d; embedding := em.1; metadata := em.2 |})
             documents (zip embeddings metadatas)).

(** [collection.add(ids=..., documents=..., embeddings=..., metadatas=...)] *)
Definition add {vector} (ids documents : list str) (embeddings : list vector)
    (metadatas : list Metadata) (c : gmap str (Entry vector))
  : result (gmap str (Entry vector)) :=
  if negb (py.truthy ids) then
    inl (ValueError $"Expected IDs to be a non-empty list")
  else if has_duplicates ids then inl DuplicateIDError
  else if negb (bool_decide (length documents = length ids
                             ∧ length embeddings = length ids
                             ∧ length metadatas = length ids)) then
    inl (ValueError $"Number of ids, documents, embeddings and metadatas differ")
  else inr (fold_left add_record (records ids documents embeddings metadatas) c).

End chroma.

(** ** The chat backend (third-party) *)

(** The arguments of [client.chat.completions.create] that vary between the
    calls the repository makes: the model, the message list, and whether
    [extra_body] asks for reasoning. *)
Record Request := {
  req_model : str;
  req_messages : list Message;
  req_reasoning : bool
}.

(** A completion: [choices[i].message.content], which may be [None]. *)
Record ChatResponse := { choices : list (option str) }.

(** ** Everything outside the repository

    The embedding model, the chat backend, the clock, the file system and the
    similarity query are taken as given. [outside] is the state of the world
    they act on; the backend and the clock may answer differently each time. *)

Class Runtime := {
  outside : Type;
  vector : Type;
  distance : Type;
  (** [SentenceTransformer.encode(text, convert_to_tensor=False)] as a list *)
  encode : str -> result vector;
  (** [client.chat.completions.create(...)] *)
  chat_create : Request -> outside -> result ChatResponse * outside;
  (** [datetime.now().isoformat()] *)
  now_isoformat : outside -> str * outside;
  (** [str(Path(p))], [Path(p).name], [Path(p).suffix], [Path(p).exists()],
      [Path(p).stat().st_size] *)
  path_str : str -> str;
  path_name : str -> str;
  path_suffix : str -> str;
  path_exists : str -> bool;
  stat_size : str -> result Z;
  (** [open(p, 'r', encoding='utf-8').read()] *)
  read_text : str -> result str;
  (** [page.extract_text()] for the pages of [PyPDF2.PdfReader] *)
  pdf_pages : str -> result (list str);
  (** [collection.query(query_embeddings=[v], n_results=k)] *)
  collection_query :
    gmap str (chroma.Entry vector) -> vector -> Z -> result (chroma.QueryResult distance)
}.

(** ** The state of a pipeline object and the monad of its methods *)

Record World {R : Runtime} := {
  conversations : gmap str (list Turn);           (* memory.conversations *)
  collection : gmap str (chroma.Entry vector);      (* embedding_manager.collection *)
  out : outside;
  calls : list Request   (* the requests sent to the chat backend so far *)
}.

Definition M {R : Runtime} (A : Type) : Type := World -> result A * World.

#[global] Instance M_ret {R : Runtime} : MRet M := fun A a w => (inr a, w).
#[global] Instance M_bind {R : Runtime} : MBind M :=
  fun A B f m w => match m w with
                   | (inr a, w') => f a w'
                   | (inl e, w') => (inl e, w')
                   end.

Definition raise {R : Runtime} {A} (e : exn) : M A := fun w => (inl e, w).

(** [try: body except Exception as e: handler(e)]; what [body] did to the
    state before raising stays done. *)
Definition try_except {R : Runtime} {A} (body : M A) (handler : exn -> M A) : M A :=
  fun w => match body w with
           | (inl e, w') => handler e w'
           | r => r
           end.

(** A call that touches no state. *)
Definition lift {R : Runtime} {A} (r : result A) : M A := fun w => (r, w).

(** ** [src/ingest.py] *)

Module ingest.

(** [self.supported_extensions] *)
Definition supported_extensions : list str := [ $".pdf"; $".txt" ].

Definition _extract_pdf_text {R : Runtime} (path : str) : result str :=
  pages ← pdf_pages path;
  mret (py.strip (fold_left (fun text page => text ++ page ++ py.nl) pages [])).

Definition _extract_txt_text {R : Runtime} (path : str) : result str :=
  text ← read_text path;
  mret (py.strip text).

(** The body of the [try] block of [ingest_document]. *)
Definition ingest_document_body {R : Runtime} (file_path : str) : result Document :=
  if negb (path_exists file_path) then
    inl (Exn DocumentIngestionError ($"File not found: " ++ file_path))
  else if negb (bool_decide (py.lower (path_suffix file_path) ∈ supported_extensions)) then
    inl (Exn DocumentIngestionError ($"Unsupported file type: " ++ path_suffix file_path))
  else
    content ←
      (if py.str_eqb (py.lower (path_suffix file_path)) $".pdf"
       then _extract_pdf_text file_path
       else _extract_txt_text file_path);
    size ← stat_size file_path;
    mret {| file_path := path_str file_path;
            file_name := path_name file_path;
            content := content;
            file_size := size;
            extension := py.lower (path_suffix file_path) |}.

Definition ingest_document {R : Runtime} (file_path : str) : result Document :=
  match ingest_document_body file_path with
  | inr doc => inr doc
  | inl e =>
      inl (Exn DocumentIngestionError ($"Failed to ingest document: " ++ str_of_exn e))
  end.

(** [ingest_directory]. The listing of the directory is not part of the
    runtime above: [rglob] gives the paths [directory.rglob] yields, in
    that order, and [is_file] answers [file_path.is_file()]. Only a
    [DocumentIngestionError] of [ingest_document] is caught and skipped;
    the loop state is [documents]. *)
Definition ingest_directory {R : Runtime} (rglob : str -> list str)
    (is_file : str -> bool) (directory_path : str) : result (list Document) :=
  if negb (path_exists directory_path) then
    inl (Exn DocumentIngestionError ($"Directory not found: " ++ directory_path))
  else
    for_each (fun documents file_path =>
        if is_file file_path
           && bool_decide (py.lower (path_suffix file_path) ∈ supported_extensions)
        then
          match ingest_document (path_str file_path) with
          | inr doc => mret (documents ++ [doc])
          | inl e =>
              match exn_cls e with
              | DocumentIngestionError => mret documents
              | _ => inl e
              end
          end
        else mret documents)
      (rglob directory_path) [].

End ingest.

(** ** [src/embeddings.py] *)

Module embeddings.

(** One element of the list [search_similar] returns. *)
Record Passage {R : Runtime} := {
  id : str;
  content : str;
  metadata : Metadata;
  distance_to_query : option distance   (* 'distance' *)
}.

Definition create_embedding {R : Runtime} (text : str) : result vector :=
  match encode text with
  | inr embedding => inr embedding
  | inl e => inl (Exn EmbeddingError ($"Failed to create embedding: " ++ str_of_exn e))
  end.

(** The metadata dictionary [add_documents] stores with a chunk. *)
Definition chunk_metadata (chunk : Chunk) : Metadata :=
  {[ "source_document"%string := MStr (source_document chunk);
     "source_path"%string := MStr (source_path chunk);
     "chunk_index"%string := MInt (chunk_index chunk);
     "chunk_size"%string := MInt (chunk_len chunk) ]}.

(** The body of the [try] block of [add_documents] on the collection; the
    loop state is [(ids, documents, metadatas, embeddings)]. *)
Definition add_documents_body {R : Runtime} (chunks : list Chunk)
      (c : gmap str (chroma.Entry vector)) : result (gmap str (chroma.Entry vector)) :=
  '(ids, documents, metadatas, embeddings) ←
    for_each (fun '(ids, documents, metadatas, embeddings) chunk =>
        embedding ← create_embedding (chunk_content chunk);
        mret (ids ++ [chunk_id chunk], documents ++ [chunk_content chunk],
              metadatas ++ [chunk_metadata chunk], embeddings ++ [embedding]))
      chunks ([], [], [], []);
  chroma.add ids documents embeddings metadatas c.

Definition add_documents {R : Runtime} (chunks : list Chunk) : M unit :=
  fun w =>
    match add_documents_body chunks (collection w) with
    | inr c => (inr (), {| conversations := conversations w; collection := c;
                           out := out w; calls := calls w |})
    | inl e => (inl (Exn EmbeddingError ($"Failed to add documents: " ++ str_of_exn e)), w)
    end.

Definition IndexError : exn := Exn OtherError $"list index out of range".

(** [l[i]] *)
Definition item {A} (l : list A) (i : nat) : result A :=
  match l !! i with Some x => inr x | None => inl IndexError end.

(** The body of the [try] block of [search_similar]. *)
Definition search_similar_body {R : Runtime} (query : str) (top_k : Z)
      (c : gmap str (chroma.Entry vector)) : result (list Passage) :=
  query_embedding ← create_embedding query;
  results ← collection_query c query_embedding top_k;
  ids0 ← item (chroma.ids results) 0;
  for_each (fun similar_docs i =>
      doc_id ← item ids0 i;
      documents0 ← item (chroma.documents results) 0;
      doc_content ← item documents0 i;
      metadatas0 ← item (chroma.metadatas results) 0;
      doc_metadata ← item metadatas0 i;
      doc_distance ←
        match chroma.distances results with
        | Some distances =>
            distances0 ← item distances 0; d ← item distances0 i; mret (Some d)
        | None => mret None
        end;
      mret (similar_docs ++ [ {| id := doc_id; content := doc_content;
                                 metadata := doc_metadata;
                                 distance_to_query := doc_distance |} ]))
    (seq 0 (length ids0)) [].

Definition search_similar {R : Runtime} (query : str) (top_k : Z) : M (list Passage) :=
  fun w =>
    match search_similar_body query top_k (collection w) with
    | inr similar_docs => (inr similar_docs, w)
    | inl e => (inl (Exn EmbeddingError ($"Failed to search documents: " ++ str_of_exn e)), w)
    end.

(** [clear_collection]: the collection is deleted and created again,
    empty. The collection was created by [__init__], so the client finds it. *)
Definition clear_collection {R : Runtime} : M unit :=
  fun w => (inr (), {| conversations := conversations w; collection := ∅;
                       out := out w; calls := calls w |}).

End embeddings.

(** ** [src/memory.py] *)

Module memory.

Definition add_conversation_turn {R : Runtime}
      (conversation_id user_message assistant_message : str) : M unit :=
  fun w =>
    let cs := conversations w in
    let cs := match cs !! conversation_id with
              | None => <[conversation_id := []]> cs
              | Some _ => cs
              end in
    let '(stamp, o) := now_isoformat (out w) in
    let turn := {| timestamp := stamp; user := user_message;
                   assistant := assistant_message |} in
    let cs := <[conversation_id := default [] (cs !! conversation_id) ++ [turn]]> cs in
    (inr (), {| conversations := cs; collection := collection w; out := o;
                calls := calls w |}).

(** [max_turns] is [None] or an integer; [if max_turns:] holds for an
    integer other than zero. *)
Definition get_conversation_history (conversations : gmap str (list Turn))
      (conversation_id : str) (max_turns : option Z) : list Turn :=
  match conversations !! conversation_id with
  | None => []
  | Some history =>
      match max_turns with
      | Some n => if negb (n =? 0) then py.slice_from (- n) history else history
      | None => history
      end
  end.

(** [create_conversation]; [conversation_id] is the string
    [str(uuid.uuid4())] drawn for this call. *)
Definition create_conversation {R : Runtime} (conversation_id : str) : M str :=
  fun w => (inr conversation_id,
            {| conversations := <[conversation_id := []]> (conversations w);
               collection := collection w; out := out w; calls := calls w |}).

Definition delete_conversation {R : Runtime} (conversation_id : str) : M bool :=
  fun w =>
    match conversations w !! conversation_id with
    | Some _ =>
        (inr true, {| conversations := delete conversation_id (conversations w);
                      collection := collection w; out := out w; calls := calls w |})
    | None => (inr false, w)
    end.

(** One element of the list [list_conversations] returns. *)
Record Summary := {
  summary_id : str;        (* 'conversation_id' *)
  title : str;
  created_at : str;
  last_updated : str;
  message_count : Z;
  preview : str
}.

(** The summary appended for one conversation, none for an empty log. *)
Definition summary (conv_id : str) (history : list Turn) : option Summary :=
  match history with
  | [] => None
  | first_turn :: _ =>
      let last_turn := List.last history first_turn in
      Some {| summary_id := conv_id;
              title := $"Local Chat";
              created_at := timestamp first_turn;
              last_updated := timestamp last_turn;
              message_count := len history;
              preview := if len (user first_turn) >? 100
                         then py.slice_to 100 (user first_turn) ++ $"..."
                         else user first_turn |}
  end.

(** [list_conversations]. The summaries come in the order in which the
    finite map lists its entries, which is not the insertion order of the
    dictionary; the results about this function do not depend on the order. *)
Definition list_conversations (conversations : gmap str (list Turn)) : list Summary :=
  omap (fun entry => summary entry.1 entry.2) (map_to_list conversations).

Definition clear_all_conversations {R : Runtime} : M unit :=
  fun w => (inr (), {| conversations := ∅; collection := collection w;
                       out := out w; calls := calls w |}).

End memory.

(** ** [src/llm.py] *)

Module llm.

Record LLMWrapper := {
  model : str;
  fallback_model : str;
  enable_reasoning : bool
}.

(** [LLMWrapper.__init__] *)
Definition __init__ (settings : Settings) : LLMWrapper :=
  {| model := llm_model settings;
     fallback_model := llm_fallback_model settings;
     enable_reasoning := py.contains $"amazon/nova" (py.lower (llm_model settings)) |}.

(** [doc['metadata'].get('source_document', 'Unknown')] *)
Definition source_of {R : Runtime} (doc : embeddings.Passage) : MetaValue :=
  default (MStr $"Unknown") (embeddings.metadata doc !! "source_document"%string).

(** [_build_context]: the loop over [enumerate(context_documents, 1)]
    appends one part per document; the state is [(i, context_parts)]. *)
Definition _build_context {R : Runtime} (context_documents : list embeddings.Passage) : str :=
  if negb (py.truthy context_documents) then $"No relevant context found."
  else
    let '(_, context_parts) :=
      fold_left (fun '(i, context_parts) doc =>
          let source := source_of doc in
          let content := embeddings.content doc in
          (i + 1,
           context_parts ++
             [ $"Source " ++ py.str_of_int i ++ $" (" ++ format_value source ++ $"):"
               ++ py.nl ++ content ]))
        context_documents (1, []) in
    py.join (py.nl ++ py.nl) context_parts.

Definition system_prompt : str := $"You are a helpful AI assistant that answers questions based on the provided context. 
        Follow these guidelines:
        1. Answer questions based primarily on the provided context
        2. If the context doesn't contain enough information, say so clearly
        3. Be concise but informative
        4. Cite sources when possible
        5. If asked about something not in the context, politely explain the limitation".

(** [_build_messages]; [conversation_history] is [None] or a list. *)
Definition _build_messages (query context : str)
      (conversation_history : option (list Turn)) : list Message :=
  let messages := [ {| role := system; msg_content := system_prompt |} ] in
  let messages :=
    match conversation_history with
    | Some history =>
        if py.truthy history then
          fold_left (fun messages turn =>
              let messages := messages ++ [ {| role := user_role; msg_content := user turn |} ] in
              messages ++ [ {| role := assistant_role; msg_content := assistant turn |} ])
            (py.slice_from (-5) history) messages
        else messages
    | None => messages
    end in
  let user_message :=
    $"Context:" ++ py.nl ++ context ++ py.nl ++ py.nl ++ $"Question: " ++ query in
  messages ++ [ {| role := user_role; msg_content := user_message |} ].

(** [self.client.chat.completions.create(...)]: the backend answers and the
    request is recorded. *)
Definition create {R : Runtime} (request : Request) : M ChatResponse :=
  fun w =>
    let '(r, o) := chat_create request (out w) in
    (r, {| conversations := conversations w; collection := collection w;
           out := o; calls := calls w ++ [request] |}).

Definition IndexError : exn := Exn OtherError $"list index out of range".
Definition AttributeError : exn :=
    Exn OtherError $"'NoneType' object has no attribute 'strip'".

(** [response.choices[0].message.content.strip()] *)
Definition answer_of (response : ChatResponse) : result str :=
  match choices response with
  | [] => inl IndexError
  | None :: _ => inl AttributeError
  | Some text :: _ => inr (py.strip text)
  end.

(** The body of the [try] block of [generate_response]. *)
Definition generate_response_body {R : Runtime} (self : LLMWrapper) (query : str)
      (context_documents : list embeddings.Passage)
      (conversation_history : option (list Turn)) (use_fallback : bool) : M str :=
  let context := _build_context context_documents in
  let messages := _build_messages query context conversation_history in
  let model := if use_fallback then fallback_model self else model self in
  let enable_reasoning := enable_reasoning self && negb use_fallback in
  response ← create {| req_model := model; req_messages := messages;
                       req_reasoning := enable_reasoning |};
  lift (answer_of response).

Definition failed_to_generate (e : exn) : exn :=
  Exn LLMError ($"Failed to generate response: " ++ str_of_exn e).

(** [generate_response]. The method calls itself once, with
    [use_fallback=True], from the handler of a failed primary attempt; in
    that inner call the handler can only raise, so the recursion is written
    out as [retry]. *)
Definition generate_response {R : Runtime} (self : LLMWrapper) (query : str)
      (context_documents : list embeddings.Passage)
      (conversation_history : option (list Turn)) (use_fallback : bool) : M str :=
  let retry :=
    try_except
      (generate_response_body self query context_documents conversation_history true)
      (fun e => raise (failed_to_generate e)) in
  try_except
    (generate_response_body self query context_documents conversation_history use_fallback)
    (fun e => if negb use_fallback then retry else raise (failed_to_generate e)).

Definition general_system_prompt : str :=
  $"You are a helpful, friendly AI assistant. Answer questions clearly and concisely.".

(** The message list of [generate_general_response]. *)
Definition general_messages (query : str) (conversation_history : option (list Turn))
    : list Message :=
  let messages := [ {| role := system; msg_content := general_system_prompt |} ] in
  let messages :=
    match conversation_history with
    | Some history =>
        if py.truthy history then
          fold_left (fun messages turn =>
              let messages := messages ++ [ {| role := user_role; msg_content := user turn |} ] in
              messages ++ [ {| role := assistant_role; msg_content := assistant turn |} ])
            (py.slice_from (-5) history) messages
        else messages
    | None => messages
    end in
  messages ++ [ {| role := user_role; msg_content := query |} ].

Definition generate_general_response {R : Runtime} (self : LLMWrapper) (query : str)
      (conversation_history : option (list Turn)) : M str :=
  try_except
    (let messages := general_messages query conversation_history in
     try_except
       (response ← create {| req_model := model self; req_messages := messages;
                             req_reasoning := enable_reasoning self |};
        lift (answer_of response))
       (fun e =>
          if py.truthy (fallback_model self) then
            response ← create {| req_model := fallback_model self;
                                 req_messages := messages; req_reasoning := false |};
            lift (answer_of response)
          else raise e))
    (fun e => raise (failed_to_generate e)).

(** The two messages of [summarize_document]. *)
Definition summary_messages (document_content : str) : list Message :=
  [ {| role := system;
       msg_content :=
         $"You are a helpful assistant that creates concise summaries of documents." |};
    {| role := user_role;
       msg_content :=
         $"Please provide a concise summary of the following document:"
           ++ py.nl ++ py.nl ++ document_content |} ].

(** [summarize_document]: one call to the primary model, without the
    reasoning extension, and no retry. *)
Definition summarize_document {R : Runtime} (self : LLMWrapper)
    (document_content : str) : M str :=
  try_except
    (response ← create {| req_model := model self;
                          req_messages := summary_messages document_content;
                          req_reasoning := false |};
     lift (answer_of response))
    (fun e => raise (Exn LLMError ($"Failed to generate summary: " ++ str_of_exn e))).

End llm.

(** ** [src/rag_pipeline.py] *)

Module rag_pipeline.

Record RAGPipeline := {
  preprocessor : preprocess.TextPreprocessor;
  llm : llm.LLMWrapper
}.

(** [RAGPipeline.__init__], the parts that depend on the settings. *)
Definition __init__ (settings : Settings) : RAGPipeline :=
  {| preprocessor := preprocess.__init__ settings; llm := llm.__init__ settings |}.

Definition ingest_documents {R : Runtime} (self : RAGPipeline) (file_paths : list str)
    : M unit :=
  try_except
    (documents ← lift (for_each (fun documents file_path =>
                           doc ← ingest.ingest_document file_path;
                           mret (documents ++ [doc])) file_paths []);
     let chunks := preprocess.process_documents (preprocessor self) documents in
     embeddings.add_documents chunks)
    (fun e => raise (Exn ChatbotError ($"Document ingestion failed: " ++ str_of_exn e))).

(** One element of [response['sources']]. *)
Record Source := {
  source : MetaValue;
  content_preview : str
}.

(** The dictionary [ask_question] returns. *)
Record Answer := {
  answer : str;
  sources : list Source;
  conversation_id : option str
}.

(** The element of the [sources] comprehension built for [doc]. *)
Definition source_entry {R : Runtime} (doc : embeddings.Passage) : Source :=
  {| source := llm.source_of doc;
     content_preview :=
       if len (embeddings.content doc) >? 200
       then py.slice_to 200 (embeddings.content doc) ++ $"..."
       else embeddings.content doc |}.

(** [if conversation_id:] holds for a non-empty string. *)
Definition given (conversation_id : option str) : option str :=
  match conversation_id with
  | Some cid => if py.truthy cid then Some cid else None
  | None => None
  end.

Definition ask_question {R : Runtime} (self : RAGPipeline) (question : str)
      (conversation_id : option str) (top_k : Z) : M Answer :=
  try_except
    (relevant_docs ←
       try_except (embeddings.search_similar question top_k) (fun _ => mret []);
     conversation_history ←
       (fun w => match given conversation_id with
                 | Some cid =>
                     (inr (Some (memory.get_conversation_history (conversations w) cid None)), w)
                 | None => (inr None, w)
                 end);
     answer ←
       (if py.truthy relevant_docs
        then llm.generate_response (llm self) question relevant_docs conversation_history false
        else llm.generate_general_response (llm self) question conversation_history);
     _ ← match given conversation_id with
         | Some cid => memory.add_conversation_turn cid question answer
         | None => mret ()
         end;
     mret {| answer := answer;
             sources := map source_entry relevant_docs;
             conversation_id := conversation_id |})
    (fun e => raise (Exn ChatbotError ($"Question answering failed: " ++ str_of_exn e))).

(** [RAGPipeline.ingest_directory], over the listing of the directory
    (see [ingest.ingest_directory]). *)
Definition ingest_directory {R : Runtime} (self : RAGPipeline)
    (rglob : str -> list str) (is_file : str -> bool) (directory_path : str) : M unit :=
  try_except
    (documents ← lift (ingest.ingest_directory rglob is_file directory_path);
     let chunks := preprocess.process_documents (preprocessor self) documents in
     embeddings.add_documents chunks)
    (fun e => raise (Exn ChatbotError ($"Directory ingestion failed: " ++ str_of_exn e))).

Definition clear_knowledge_base {R : Runtime} : M unit :=
  try_except embeddings.clear_collection
    (fun e => raise (Exn ChatbotError ($"Failed to clear knowledge base: "
                                         ++ str_of_exn e))).

(** [RAGPipeline.get_conversation_history] *)
Definition get_conversation_history {R : Runtime} (conversation_id : str) (w : World)
  : list Turn :=
  memory.get_conversation_history (conversations w) conversation_id None.

End rag_pipeline.

(** ** The prompt and the history window as the specification words them *)

Module spec.

(** The most recent [n] turns, oldest first. *)
Definition last_turns (n : nat) (history : list Turn) : list Turn :=
  rev (take n (rev history)).

(** A turn expanded into a user message followed by an assistant message. *)
Definition expand_turn (t : Turn) : list Message :=
  [ {| role := user_role; msg_content := user t |};
    {| role := assistant_role; msg_content := assistant t |} ].

(** The source document of a passage: the name its metadata holds under
    [source_document], where ingestion stores the file name of the
    document the chunk was cut from. A name stored as an integer reads as
    its decimal digits; a passage that carries no name is called Unknown. *)
Definition source_document {R : Runtime} (p : embeddings.Passage) : str :=
  match embeddings.metadata p !! "source_document"%string with
  | Some (MStr name) => name
  | Some (MInt number) => py.str_of_int number
  | None => $"Unknown"
  end.

(** The passage at position [i] (counting from zero), numbered from one:
    the word Source, the number, the source document in brackets, a
    colon, and on the next line the content. *)
Definition render_passage {R : Runtime} (i : nat) (p : embeddings.Passage) : str :=
  $"Source " ++ py.str_of_int (Z.of_nat (S i)) ++ $" ("
    ++ source_document p ++ $"):" ++ py.nl ++ embeddings.content p.

Definition context_of {R : Runtime} (passages : list embeddings.Passage) : str :=
  match passages with
  | [] => $"No relevant context found."
  | _ => py.join (py.nl ++ py.nl) (imap render_passage passages)
  end.

Definition rag_prompt {R : Runtime} (question : str)
      (passages : list embeddings.Passage) (history : option (list Turn)) : list Message :=
  {| role := system; msg_content := llm.system_prompt |}
    :: flat_map expand_turn (last_turns 5 (default [] history))
    ++ [ {| role := user_role;
            msg_content := $"Context:" ++ py.nl ++ context_of passages ++ py.nl ++ py.nl
                             ++ $"Question: " ++ question |} ].

(** No two whitespace characters in a row. *)
Fixpoint single_spaced (s : str) : Prop :=
  match s with
  | a :: (b :: _) as rest =>
      (py.isspace a = true -> py.isspace b = false) /\ single_spaced rest
  | _ => True
  end.

(** Two consecutive chunks share at least [k] characters at their boundary:
    for some [n] of at least [k], the last [n] characters of the first are
    the first [n] characters of the second. *)
Definition share_boundary (k : nat) (a b : str) : bool :=
  existsb (fun n => bool_decide (drop (length a - n) a = take n b))
    (seq k (S (length a) - k)).

Fixpoint consecutive_share (k : nat) (chunks : list str) : bool :=
  match chunks with
  | a :: (b :: _) as rest => share_boundary k a b && consecutive_share k rest
  | _ => true
  end.

End spec.

(** ** Stub collaborators, for concrete runs *)

Module stub.

Definition unavailable : exn := Exn OtherError $"backend unavailable".

(** A chat backend on which the model named [failing] always fails and any
    other model answers [reply]; the outside state counts the calls. *)
Definition chat (failing reply : str) (request : Request) (n : nat)
    : result ChatResponse * nat :=
  (if py.str_eqb (req_model request) failing then inl unavailable
   else inr {| choices := [Some reply] |}, S n).

(** A file system given as a list of names with their text; a name is its
    own path and its suffix is its last four characters. *)
Definition lookup_file (files : list (str * str)) (p : str) : option str :=
  snd <$> List.find (fun f => py.str_eqb (fst f) p) files.

Definition suffix4 (p : str) : str := drop (length p - 4) p.

(** The collaborators of a run: the chat backend, the answer of the
    similarity query, and the files. Embeddings are integers. *)
Definition runtime (chat : Request -> nat -> result ChatResponse * nat)
      (query : result (chroma.QueryResult Z)) (files : list (str * str)) : Runtime :=
  {| outside := nat;
     vector := Z;
     distance := Z;
     encode := fun text => inr (len text);
     chat_create := chat;
     now_isoformat := fun n => (py.str_of_int (Z.of_nat n), n);
     path_str := fun p => p;
     path_name := fun p => p;
     path_suffix := suffix4;
     path_exists := fun p => bool_decide (is_Some (lookup_file files p));
     stat_size := fun p =>
       match lookup_file files p with
       | Some text => inr (len text)
       | None => inl (Exn OtherError $"No such file or directory")
       end;
     read_text := fun p =>
       match lookup_file files p with
       | Some text => inr text
       | None => inl (Exn OtherError $"No such file or directory")
       end;
     pdf_pages := fun p => inl (Exn OtherError $"not a PDF file");
     collection_query := fun _ _ _ => query |}.

(** A query against a collection that cannot answer. *)
Definition query_fails : result (chroma.QueryResult Z) :=
  inl (Exn OtherError $"collection is empty").

(** A query that finds the single passage [text] of document [name]. *)
Definition query_finds (name text : str) : result (chroma.QueryResult Z) :=
  inr {| chroma.ids := [[name ++ $"_chunk_0"]];
         chroma.documents := [[text]];
         chroma.metadatas := [[ {[ "source_document"%string := MStr name ]} ]];
         chroma.distances := Some [[0]] |}.

(** A pipeline object just built: no conversation, an empty collection. *)
Definition fresh (R : Runtime) (o : outside) : World :=
  {| conversations := ∅; collection := ∅; out := o; calls := [] |}.

(** A pipeline object whose collection holds [c]. *)
Definition holding (R : Runtime) (c : gmap str (chroma.Entry vector)) (o : outside)
    : World :=
  {| conversations := ∅; collection := c; out := o; calls := [] |}.

(** No knowledge base to search; every model answers. *)
Definition rt_no_knowledge : Runtime :=
  runtime (chat $"none" $"OK") query_fails [].

(** The primary model of the default settings is down; any other model,
    the unnamed one included, answers. *)
Definition rt_primary_down : Runtime :=
  runtime (chat (llm_model default_settings) $"OK") query_fails [].

(** The default settings with no fallback model configured. *)
Definition no_fallback_settings : Settings :=
  {| llm_model := llm_model default_settings;
     llm_fallback_model := py.empty;
     chunk_size := chunk_size default_settings;
     chunk_overlap := chunk_overlap default_settings |}.

(** Two files on disk, one of them empty; no other path exists. *)
Definition rt_files : Runtime :=
  runtime (chat $"none" $"OK") query_fails
    [ ($"a.txt", $"A.  B. C."); ($"e.txt", py.empty) ].

(** A pipeline whose collection already holds an entry under the id of the
    first chunk of [a.txt], with another text. *)
Definition stale : World :=
  holding rt_files
    {[ $"a.txt_chunk_0" :=
         {| chroma.document := $"an older text"; chroma.embedding := 13;
            chroma.metadata := ∅ |} ]} 0%nat.

(** The file [a.txt] once read. *)
Definition doc_a : Document :=
  {| file_path := $"a.txt"; file_name := $"a.txt"; content := $"A.  B. C.";
     file_size := 9; extension := $".txt" |}.

(** The empty file [e.txt] once read. *)
Definition doc_e : Document :=
  {| file_path := $"e.txt"; file_name := $"e.txt"; content := py.empty;
     file_size := 0; extension := $".txt" |}.

(** A document of 900 letters a, a space and 900 letters b. *)
Definition doc_ab : Document :=
  {| file_path := $"ab.txt"; file_name := $"ab.txt";
     content := replicate 900 "a"%char ++ $" " ++ replicate 900 "b"%char;
     file_size := 1801; extension := $".txt" |}.

(** The search finds one passage of 201 characters. *)
Definition rt_long_passage : Runtime :=
  runtime (chat $"none" $"OK") (query_finds $"a.txt" (replicate 201 "x"%char)) [].

Definition turn (n : Z) : Turn :=
  {| timestamp := py.str_of_int n; user := $"q" ++ py.str_of_int n;
     assistant := $"a" ++ py.str_of_int n |}.

End stub.

(** ** Notions read off the code, used to state the results *)

Module derived.

(** One attempt at the chat backend: the call, then the extraction of the
    answer, as both generators do it. *)
Definition attempt {R : Runtime} (request : Request) : M str :=
  response ← llm.create request; lift (llm.answer_of response).

(** The request [generate_response] sends on its primary attempt
    ([use_fallback] false) and on its fallback attempt. *)
Definition rag_request {R : Runtime} (self : llm.LLMWrapper) (query : str)
      (context_documents : list embeddings.Passage)
      (conversation_history : option (list Turn)) (use_fallback : bool) : Request :=
  {| req_model := if use_fallback then llm.fallback_model self else llm.model self;
     req_messages :=
       llm._build_messages query (llm._build_context context_documents) conversation_history;
     req_reasoning := llm.enable_reasoning self && negb use_fallback |}.

(** The requests of [generate_general_response]. *)
Definition general_request (self : llm.LLMWrapper) (query : str)
      (conversation_history : option (list Turn)) (use_fallback : bool) : Request :=
  {| req_model := if use_fallback then llm.fallback_model self else llm.model self;
     req_messages := llm.general_messages query conversation_history;
     req_reasoning := llm.enable_reasoning self && negb use_fallback |}.

(** The outcome of a generator once its fallback attempt has returned [r]:
    the answer, or an [LLMError] that wraps the exception. *)
Definition after_fallback (r : result str) : result str :=
  match r with
  | inr a => inr a
  | inl e => inl (llm.failed_to_generate e)
  end.

(** The value of [relevant_docs] in [ask_question] once the retrieval step
    is over: what the search returned, or the empty list when it raised. *)
Definition retrieved {R : Runtime} (question : str) (top_k : Z) (w : World)
    : list embeddings.Passage :=
  match (embeddings.search_similar question top_k w).1 with
  | inr docs => docs
  | inl _ => []
  end.

(** The value of [conversation_history] in [ask_question]. *)
Definition history_for {R : Runtime} (conversation_id : option str) (w : World)
    : option (list Turn) :=
  match rag_pipeline.given conversation_id with
  | Some cid => Some (memory.get_conversation_history (conversations w) cid None)
  | None => None
  end.

(** What an element of [sources] holds for the passage [doc]: its source
    name, and a preview that is the content itself up to 200 characters and
    else its first 200 characters followed by three dots. *)
Definition previews (doc : str) (preview : str) : Prop :=
  (len doc <= 200 -> preview = doc)
  /\ (200 < len doc -> preview = take 200 doc ++ $"..." /\ len preview = 203)
  /\ len preview <= 203.

(** The documents [ingest_documents] reads for a batch, or the exception
    of the first file that cannot be read. *)
Definition read_batch {R : Runtime} (file_paths : list str) : result (list Document) :=
  for_each (fun documents file_path =>
              doc ← ingest.ingest_document file_path; mret (documents ++ [doc]))
    file_paths [].

(** A piece or chunk is within the size [cs]. *)
Definition fits (cs : Z) (s : str) : Prop := len s <= cs.

(** A chunk respects the size [cs]: it fits, or it is a single character,
    the unit that cannot be divided. *)
Definition within (cs : Z) (s : str) : Prop := fits cs s \/ length s = 1%nat.

(** The state [(docs, current_doc, total)] of the loop of [_merge_splits]
    is sound for the size [cs]: the chunks made so far fit, and the running
    total is the length of the pieces collected, which fit together. *)
Definition merge_invariant (cs : Z) (st : list str * list str * Z) : Prop :=
  let '(docs, current_doc, total) := st in
  Forall (fits cs) docs /\ total = len (concat current_doc) /\ total <= cs.

(** [n] turns appended in a row, numbered from [k + 1]. *)
Fixpoint append_turns {R : Runtime} (cid : str) (k : Z) (n : nat) : M unit :=
  match n with
  | O => mret ()
  | S n' =>
      _ ← memory.add_conversation_turn cid ($"q" ++ py.str_of_int (k + 1))
            ($"a" ++ py.str_of_int (k + 1));
      append_turns cid (k + 1) n'
  end.

(** The generator [ask_question] picks: the knowledge-based one when
    something was retrieved, the general one otherwise. *)
Definition generator {R : Runtime} (self : llm.LLMWrapper) (question : str)
    (docs : list embeddings.Passage) (history : option (list Turn)) : M str :=
  if py.truthy docs
  then llm.generate_response self question docs history false
  else llm.generate_general_response self question history.

(** The document an entry of a directory listing gives [ingest_directory]:
    that of a regular file with a supported extension that can be read,
    none otherwise. *)
Definition entry_document {R : Runtime} (is_file : str -> bool) (file_path : str)
    : option Document :=
  if is_file file_path
     && bool_decide (py.lower (path_suffix file_path) ∈ ingest.supported_extensions)
  then match ingest.ingest_document (path_str file_path) with
       | inr doc => Some doc
       | inl _ => None
       end
  else None.

(** [rows[0][i]], when both indices are in range. *)
Definition cell {A} (rows : list (list A)) (i : nat) : option A :=
  row ← rows !! 0%nat; row !! i.

(** The passage [doc] pairs the cells at position [i] of the first rows
    of a query result: id, document, metadata and, when the result has
    distances, distance. *)
Definition paired {R : Runtime} (results : chroma.QueryResult distance) (i : nat)
    (doc : embeddings.Passage) : Prop :=
  cell (chroma.ids results) i = Some (embeddings.id doc)
  /\ cell (chroma.documents results) i = Some (embeddings.content doc)
  /\ cell (chroma.metadatas results) i = Some (embeddings.metadata doc)
  /\ embeddings.distance_to_query doc
     = (distances ← chroma.distances results; cell distances i).

End derived.

(** * Results *)

(** * Conversation memory *)

Section memory_facts.
Context {R : Runtime}.

Lemma slice_from_neg_drop {A} (n : nat) (l : list A) :
  (0 < n)%nat -> py.slice_from (- Z.of_nat n) l = drop (length l - n) l.
Proof.
  intros Hn. unfold py.slice_from, py.len.
  destruct (Z.ltb_spec (- Z.of_nat n) 0) as [_|]; [|lia].
  f_equal. lia.
Qed.

Lemma drop_as_last_turns (n : nat) (l : list Turn) :
  drop (length l - n) l = spec.last_turns n l.
Proof.
  unfold spec.last_turns.
  by rewrite firstn_rev, rev_involutive.
Qed.

(** What [add_conversation_turn] stores: the new turn goes to the end of the
    log of its conversation, which is created when missing. *)
Lemma add_conversation_turn_log cid u a (w : World) :
  exists t w',
    memory.add_conversation_turn cid u a w = (inr (), w')
    /\ user t = u /\ assistant t = a
    /\ conversations w' !! cid = Some (default [] (conversations w !! cid) ++ [t]).
Proof.
  unfold memory.add_conversation_turn.
  destruct (now_isoformat (out w)) as [stamp o] eqn:Hnow.
  eexists {| timestamp := stamp; user := u; assistant := a |}, _.
  split; [reflexivity|]. simpl. repeat split.
  rewrite lookup_insert_eq. do 2 f_equal.
  destruct (conversations w !! cid) eqn:E; simpl.
  - by rewrite E.
  - by rewrite lookup_insert_eq.
Qed.

End memory_facts.

(** The history returned is always a contiguous suffix of the stored log,
    in the order of the log. *)
Lemma history_is_suffix (conversations : gmap str (list Turn)) cid max_turns log :
  conversations !! cid = Some log ->
  memory.get_conversation_history conversations cid max_turns `suffix_of` log.
Proof.
  intros Hlog. unfold memory.get_conversation_history. rewrite Hlog.
  destruct max_turns as [n|]; [|done].
  destruct (n =? 0); simpl; [done|].
  unfold py.slice_from. apply suffix_drop.
Qed.

(** For a positive [max_turns] the history is the last [max_turns] turns of
    the log, all of it when the log is shorter. *)
Lemma history_positive_max_turns (conversations : gmap str (list Turn)) cid (n : nat) log :
  conversations !! cid = Some log -> (0 < n)%nat ->
  memory.get_conversation_history conversations cid (Some (Z.of_nat n))
    = spec.last_turns n log
  /\ length (memory.get_conversation_history conversations cid (Some (Z.of_nat n)))
     = Nat.min n (length log).
Proof.
  intros Hlog Hn. unfold memory.get_conversation_history. rewrite Hlog.
  destruct (Z.eqb_spec (Z.of_nat n) 0) as [|_]; [lia|]. simpl.
  rewrite slice_from_neg_drop by done. split.
  - apply drop_as_last_turns.
  - rewrite length_drop. lia.
Qed.

Lemma history_unbounded (conversations : gmap str (list Turn)) cid log :
  conversations !! cid = Some log ->
  memory.get_conversation_history conversations cid None = log.
Proof. intros Hlog. unfold memory.get_conversation_history. by rewrite Hlog. Qed.

Lemma history_unknown (conversations : gmap str (list Turn)) cid max_turns :
  conversations !! cid = None ->
  memory.get_conversation_history conversations cid max_turns = [].
Proof. intros Hlog. unfold memory.get_conversation_history. by rewrite Hlog. Qed.

(** ** C10 *)

(** C10. For a conversation with at least one turn,
    [get_conversation_history(conversation_id, max_turns=0)] returns the
    full log, not the empty list: the cap is applied only for a truthy
    [max_turns], so 0 behaves as unbounded. *)
Theorem max_turns_zero_returns_full_log
    (conversations : gmap str (list Turn)) (cid : str) (log : list Turn) :
  conversations !! cid = Some log -> log <> [] ->
  memory.get_conversation_history conversations cid (Some 0) = log
  /\ memory.get_conversation_history conversations cid (Some 0) <> []
  /\ memory.get_conversation_history conversations cid (Some 0)
     = memory.get_conversation_history conversations cid None.
Proof.
  intros Hlog Hne. unfold memory.get_conversation_history. rewrite Hlog. simpl.
  done.
Qed.

Lemma max_turns_zero_returns_full_log_witness :
  ({[ $"c1" := [stub.turn 1] ]} : gmap str (list Turn)) !! $"c1" = Some [stub.turn 1]
  /\ memory.get_conversation_history {[ $"c1" := [stub.turn 1] ]} $"c1" (Some 0)
     = [stub.turn 1].
Proof.
  split; [apply lookup_singleton_eq|].
  apply (max_turns_zero_returns_full_log {[ $"c1" := [stub.turn 1] ]} $"c1" [stub.turn 1]).
  - apply lookup_singleton_eq.
  - discriminate.
Defined.

(** ** C7 *)

(** C7 on a conversation of five turns. With [max_turns=2] the history is
    the last two turns in order, unbounded it is the whole log, and an
    unknown conversation has the empty history; with [max_turns=0] the
    history is the whole log of five turns, not the most recent zero. *)
Lemma history_of_five_turns :
  let w := (derived.append_turns $"c1" 0 5 (stub.fresh stub.rt_no_knowledge 0%nat)).2 in
  map user (memory.get_conversation_history (conversations w) $"c1" (Some 2))
    = [ $"q4"; $"q5" ]
  /\ map user (memory.get_conversation_history (conversations w) $"c1" None)
     = [ $"q1"; $"q2"; $"q3"; $"q4"; $"q5" ]
  /\ memory.get_conversation_history (conversations w) $"c2" (Some 2) = []
  /\ map user (memory.get_conversation_history (conversations w) $"c1" (Some 0))
     = [ $"q1"; $"q2"; $"q3"; $"q4"; $"q5" ].
Proof. vm_compute. done. Qed.

(** * The question pipeline *)

Section ask_facts.
Context {R : Runtime}.
Implicit Types (w : World) (self : rag_pipeline.RAGPipeline).

(** The search reads the collection and leaves the state as it is. *)
Lemma search_similar_state question top_k w :
  (embeddings.search_similar question top_k w).2 = w.
Proof.
  unfold embeddings.search_similar.
  by destruct (embeddings.search_similar_body _ _ _).
Qed.

Lemma add_conversation_turn_ok cid u a w :
  exists w', memory.add_conversation_turn cid u a w = (inr (), w').
Proof.
  unfold memory.add_conversation_turn.
  destruct (now_isoformat (out w)). eauto.
Qed.

Lemma bind_eq {A B} (m : M A) (k : A -> M B) w :
  (m ≫= k) w = match m w with
               | (inr a, w') => k a w'
               | (inl e, w') => (inl e, w')
               end.
Proof. reflexivity. Qed.

Lemma try_except_eq {A} (body : M A) (handler : exn -> M A) w :
  try_except body handler w = match body w with
                              | (inl e, w') => handler e w'
                              | (inr a, w') => (inr a, w')
                              end.
Proof. unfold try_except. by destruct (body w) as [[|] ?]. Qed.

(** [ask_question] step by step: the retrieval never raises, the generator
    is chosen by whether anything was retrieved, the turn is stored when a
    conversation is given, and only the generator can make the call fail. *)
Lemma ask_question_unfold self question cid top_k w :
  let docs := derived.retrieved question top_k w in
  let generate :=
    if py.truthy docs
    then llm.generate_response (rag_pipeline.llm self) question docs
           (derived.history_for cid w) false
    else llm.generate_general_response (rag_pipeline.llm self) question
           (derived.history_for cid w) in
  rag_pipeline.ask_question self question cid top_k w =
    match generate w with
    | (inr a, w1) =>
        (inr {| rag_pipeline.answer := a;
                rag_pipeline.sources := map rag_pipeline.source_entry docs;
                rag_pipeline.conversation_id := cid |},
         match rag_pipeline.given cid with
         | Some c => (memory.add_conversation_turn c question a w1).2
         | None => w1
         end)
    | (inl e, w1) =>
        (inl (Exn ChatbotError ($"Question answering failed: " ++ str_of_exn e)), w1)
    end.
Proof.
  intros docs generate. subst docs generate.
  unfold rag_pipeline.ask_question, derived.retrieved, derived.history_for.
  rewrite try_except_eq, bind_eq, try_except_eq.
  pose proof (search_similar_state question top_k w) as Hst.
  destruct (embeddings.search_similar question top_k w) as [[e|docs] w0];
    simpl in Hst; subst w0; cbn [fst]; [unfold mret at 1; unfold M_ret at 1|];
    cbn iota; rewrite bind_eq.
  all: destruct (rag_pipeline.given cid) as [c|]; cbn iota beta.
  all: match goal with |- context [ (if ?b then ?x else ?y) ≫= _ ] =>
         set (g := if b then x else y) end.
  all: rewrite bind_eq; destruct (g w) as [[e'|a] w1]; [done|]; rewrite bind_eq.
  all: try (destruct (add_conversation_turn_ok c question a w1) as [w2 Hw2];
            by rewrite Hw2).
  all: done.
Qed.

End ask_facts.

(** ** C1 *)

(** C1. [ask_question] does not raise because the knowledge base is empty
    or the similarity search fails: an exception of the retrieval step is
    caught and counts as no passage, the answer comes from
    [generate_general_response], and the dictionary returned has an empty
    [sources]; the call fails only when that generator fails. *)
Theorem ask_question_without_knowledge {R : Runtime}
    (self : rag_pipeline.RAGPipeline) (question : str) (cid : option str)
    (top_k : Z) (w : World) :
  (exists e, (embeddings.search_similar question top_k w).1 = inl e)
  \/ (embeddings.search_similar question top_k w).1 = inr [] ->
  match llm.generate_general_response (rag_pipeline.llm self) question
          (derived.history_for cid w) w with
  | (inr a, w1) =>
      exists w2,
        rag_pipeline.ask_question self question cid top_k w
        = (inr {| rag_pipeline.answer := a; rag_pipeline.sources := [];
                  rag_pipeline.conversation_id := cid |}, w2)
  | (inl e, w1) =>
      rag_pipeline.ask_question self question cid top_k w
      = (inl (Exn ChatbotError ($"Question answering failed: " ++ str_of_exn e)), w1)
  end.
Proof.
  intros Hsearch.
  assert (Hdocs : derived.retrieved question top_k w = []).
  { unfold derived.retrieved. destruct Hsearch as [[e ->]| ->]; done. }
  rewrite ask_question_unfold, Hdocs. cbn [py.truthy map].
  destruct (llm.generate_general_response _ _ _ w) as [[e|a] w1]; eauto.
Qed.


Lemma ask_question_without_knowledge_witness :
  exists w2,
    rag_pipeline.ask_question (R := stub.rt_no_knowledge)
      (rag_pipeline.__init__ default_settings) $"hello" (Some $"c1") 5 (stub.fresh stub.rt_no_knowledge 0%nat)
    = (inr {| rag_pipeline.answer := $"OK"; rag_pipeline.sources := [];
              rag_pipeline.conversation_id := Some $"c1" |}, w2).
Proof.
  apply (@ask_question_without_knowledge stub.rt_no_knowledge
           (rag_pipeline.__init__ default_settings) $"hello" (Some $"c1") 5
           (stub.fresh stub.rt_no_knowledge 0%nat)).
  left. eexists. vm_compute. reflexivity.
Defined.

(** ** C8 *)

Lemma source_entry_previews {R : Runtime} (doc : embeddings.Passage) :
  rag_pipeline.source (rag_pipeline.source_entry doc) = llm.source_of doc
  /\ derived.previews (embeddings.content doc)
       (rag_pipeline.content_preview (rag_pipeline.source_entry doc)).
Proof.
  split; [done|].
  unfold derived.previews, rag_pipeline.source_entry, rag_pipeline.content_preview,
    py.slice_to, py.len.
  destruct (Z.gtb_spec (Z.of_nat (length (embeddings.content doc))) 200) as [Hgt|Hle].
  - assert (Hlen : length (take 200 (embeddings.content doc) ++ $"...") = 203%nat).
    { rewrite length_app, length_take. change (length $"...") with 3%nat. lia. }
    rewrite Hlen. repeat split; intros; try lia; done.
  - repeat split; intros; try lia; done.
Qed.

(** C8, as the code has it. Every element of [sources] holds the source
    document name of its passage and a preview of at most 203 characters:
    the content itself when that is at most 200 characters long, and else
    its first 200 characters followed by three dots. *)
Theorem sources_hold_name_and_preview {R : Runtime}
    (self : rag_pipeline.RAGPipeline) (question : str) (cid : option str)
    (top_k : Z) (w w' : World) (response : rag_pipeline.Answer) :
  rag_pipeline.ask_question self question cid top_k w = (inr response, w') ->
  Forall2 (fun doc s =>
             rag_pipeline.source s = llm.source_of doc
             /\ derived.previews (embeddings.content doc) (rag_pipeline.content_preview s))
    (derived.retrieved question top_k w) (rag_pipeline.sources response).
Proof.
  rewrite ask_question_unfold.
  destruct (_ w) as [[e|a] w1]; [done|]. intros [= <- _]. simpl.
  induction (derived.retrieved question top_k w) as [|doc docs IH]; simpl.
  - constructor.
  - constructor; [apply source_entry_previews | apply IH].
Qed.


Lemma sources_hold_name_and_preview_witness :
  exists response w',
    rag_pipeline.ask_question (R := stub.rt_long_passage)
      (rag_pipeline.__init__ default_settings) $"hello" None 5 (stub.fresh stub.rt_long_passage 0%nat)
    = (inr response, w')
    /\ Forall2 (fun doc s =>
                  rag_pipeline.source s = llm.source_of doc
                  /\ derived.previews (embeddings.content doc)
                       (rag_pipeline.content_preview s))
         (derived.retrieved (R := stub.rt_long_passage) $"hello" 5 (stub.fresh stub.rt_long_passage 0%nat))
         (rag_pipeline.sources response).
Proof.
  eexists _, _. split; [vm_compute; reflexivity|].
  eapply (@sources_hold_name_and_preview stub.rt_long_passage
            (rag_pipeline.__init__ default_settings) $"hello" None 5 (stub.fresh stub.rt_long_passage 0%nat)).
  vm_compute. reflexivity.
Defined.

(** C8 as stated fails: a passage of 201 characters gets a preview of 203. *)
Lemma content_preview_exceeds_200 :
  exists response w',
    rag_pipeline.ask_question (R := stub.rt_long_passage)
      (rag_pipeline.__init__ default_settings) $"hello" None 5 (stub.fresh stub.rt_long_passage 0%nat)
    = (inr response, w')
    /\ ~ Forall (fun s => len (rag_pipeline.content_preview s) <= 200)
           (rag_pipeline.sources response).
Proof.
  eexists _, _. split; [vm_compute; reflexivity|].
  intros HF. apply Forall_cons_1 in HF as [HF _]. vm_compute in HF. by apply HF.
Qed.

(** * The generator and its fallback *)

Section generator_facts.
Context {R : Runtime}.
Implicit Types (w : World) (self : llm.LLMWrapper).

(** An attempt sends exactly its request, whatever the outcome. *)
Lemma attempt_calls request w :
  calls (derived.attempt request w).2 = calls w ++ [request].
Proof.
  unfold derived.attempt. rewrite bind_eq. unfold llm.create.
  destruct (chat_create request (out w)) as [[e|response] o]; [done|].
  unfold lift. by destruct (llm.answer_of response).
Qed.

Lemma generate_response_body_attempt self query docs history use_fallback :
  llm.generate_response_body self query docs history use_fallback
  = derived.attempt (derived.rag_request self query docs history use_fallback).
Proof. reflexivity. Qed.

Lemma generate_response_primary_ok self query docs history a w w1 :
  derived.attempt (derived.rag_request self query docs history false) w = (inr a, w1) ->
  llm.generate_response self query docs history false w = (inr a, w1).
Proof.
  intros H. unfold llm.generate_response.
  by rewrite try_except_eq, generate_response_body_attempt, H.
Qed.

Lemma generate_response_retry self query docs history e w w1 :
  derived.attempt (derived.rag_request self query docs history false) w = (inl e, w1) ->
  llm.generate_response self query docs history false w
  = (derived.after_fallback (derived.attempt (derived.rag_request self query docs history true) w1).1,
     (derived.attempt (derived.rag_request self query docs history true) w1).2).
Proof.
  intros H. unfold llm.generate_response.
  rewrite try_except_eq, generate_response_body_attempt, H. cbn [negb].
  rewrite try_except_eq, generate_response_body_attempt.
  by destruct (derived.attempt _ w1) as [[e2|a] w2].
Qed.

Lemma general_attempt_primary self query history :
  (llm.create {| req_model := llm.model self;
                 req_messages := llm.general_messages query history;
                 req_reasoning := llm.enable_reasoning self |}
     ≫= λ response, lift (llm.answer_of response))
  = derived.attempt (derived.general_request self query history false).
Proof.
  unfold derived.attempt, derived.general_request. cbn [negb].
  by rewrite andb_true_r.
Qed.

Lemma general_attempt_fallback self query history :
  (llm.create {| req_model := llm.fallback_model self;
                 req_messages := llm.general_messages query history;
                 req_reasoning := false |}
     ≫= λ response, lift (llm.answer_of response))
  = derived.attempt (derived.general_request self query history true).
Proof.
  unfold derived.attempt, derived.general_request. cbn [negb].
  by rewrite andb_false_r.
Qed.

Lemma generate_general_primary_ok self query history a w w1 :
  derived.attempt (derived.general_request self query history false) w = (inr a, w1) ->
  llm.generate_general_response self query history w = (inr a, w1).
Proof.
  intros H. unfold llm.generate_general_response.
  rewrite try_except_eq. cbv zeta. rewrite try_except_eq.
  by rewrite general_attempt_primary, H.
Qed.

Lemma generate_general_retry self query history e w w1 :
  llm.fallback_model self <> [] ->
  derived.attempt (derived.general_request self query history false) w = (inl e, w1) ->
  llm.generate_general_response self query history w
  = (derived.after_fallback (derived.attempt (derived.general_request self query history true) w1).1,
     (derived.attempt (derived.general_request self query history true) w1).2).
Proof.
  intros Hfb H. unfold llm.generate_general_response.
  rewrite try_except_eq. cbv zeta. rewrite try_except_eq.
  rewrite general_attempt_primary, H.
  destruct (llm.fallback_model self) as [|c fb] eqn:Efb; [done|]. cbn [py.truthy].
  rewrite <- Efb, general_attempt_fallback.
  by destruct (derived.attempt _ w1) as [[e2|a] w2].
Qed.

Lemma generate_general_no_fallback self query history e w w1 :
  llm.fallback_model self = [] ->
  derived.attempt (derived.general_request self query history false) w = (inl e, w1) ->
  llm.generate_general_response self query history w
  = (inl (llm.failed_to_generate e), w1).
Proof.
  intros Hfb H. unfold llm.generate_general_response.
  rewrite try_except_eq. cbv zeta. rewrite try_except_eq.
  rewrite general_attempt_primary, H, Hfb. reflexivity.
Qed.

(** A backend on which [failing] always fails makes every attempt with that
    model fail; one on which [good] answers [reply] makes every attempt with
    that model return [reply] stripped. *)
Lemma attempt_fails request w :
  (forall o, exists e, (chat_create request o).1 = inl e) ->
  exists e w1, derived.attempt request w = (inl e, w1).
Proof.
  intros H. destruct (H (out w)) as [e He].
  unfold derived.attempt. rewrite bind_eq. unfold llm.create.
  destruct (chat_create request (out w)) as [r o]. simpl in He. subst r. eauto.
Qed.

Lemma attempt_answers request reply w :
  (forall o, (chat_create request o).1 = inr {| choices := [Some reply] |}) ->
  exists w1, derived.attempt request w = (inr (py.strip reply), w1).
Proof.
  intros H. specialize (H (out w)).
  unfold derived.attempt. rewrite bind_eq. unfold llm.create.
  destruct (chat_create request (out w)) as [r o]. simpl in H. subst r. eauto.
Qed.

End generator_facts.

(** ** C3 *)

(** C3, as the code has it. When the primary attempt fails,
    [generate_response] makes exactly one retry with the fallback model, and
    so does [generate_general_response] when a fallback model is configured;
    a failed retry is terminal and surfaces as an [LLMError], a successful
    one returns its answer. With no fallback model configured the general
    generator makes no retry and the primary failure surfaces as an
    [LLMError]. With a fallback model configured, on a backend where the
    primary model always fails and the fallback returns OK, [ask_question]
    returns the answer OK. *)
Theorem fallback_policy {R : Runtime} (rp : rag_pipeline.RAGPipeline) (question : str) :
  let self := rag_pipeline.llm rp in
  (forall docs history w e w1,
     derived.attempt (derived.rag_request self question docs history false) w = (inl e, w1) ->
     let second := derived.attempt (derived.rag_request self question docs history true) w1 in
     llm.generate_response self question docs history false w
     = (derived.after_fallback second.1, second.2)
     /\ calls second.2
        = calls w ++ [derived.rag_request self question docs history false;
                      derived.rag_request self question docs history true])
  /\ (llm.fallback_model self <> [] ->
      forall history w e w1,
        derived.attempt (derived.general_request self question history false) w = (inl e, w1) ->
        let second := derived.attempt (derived.general_request self question history true) w1 in
        llm.generate_general_response self question history w
        = (derived.after_fallback second.1, second.2)
        /\ calls second.2
           = calls w ++ [derived.general_request self question history false;
                         derived.general_request self question history true])
  /\ (llm.fallback_model self = [] ->
      forall history w e w1,
        derived.attempt (derived.general_request self question history false) w = (inl e, w1) ->
        llm.generate_general_response self question history w
        = (inl (llm.failed_to_generate e), w1)
        /\ calls w1 = calls w ++ [derived.general_request self question history false])
  /\ (llm.fallback_model self <> [] ->
      (forall request o, req_model request = llm.model self ->
                         exists e, (chat_create request o).1 = inl e) ->
      (forall request o, req_model request = llm.fallback_model self ->
                         (chat_create request o).1 = inr {| choices := [Some $"OK"] |}) ->
      forall cid top_k w,
        exists w',
          rag_pipeline.ask_question rp question cid top_k w
          = (inr {| rag_pipeline.answer := $"OK";
                    rag_pipeline.sources :=
                      map rag_pipeline.source_entry (derived.retrieved question top_k w);
                    rag_pipeline.conversation_id := cid |}, w')).
Proof.
  intros self. split; [|split; [|split]].
  - intros docs history w e w1 H second. split.
    + by eapply generate_response_retry.
    + subst second. rewrite attempt_calls.
      pose proof (attempt_calls (derived.rag_request self question docs history false) w) as Hc.
      rewrite H in Hc. simpl in Hc. rewrite Hc, <- app_assoc. reflexivity.
  - intros Hfb history w e w1 H second. split.
    + by eapply generate_general_retry.
    + subst second. rewrite attempt_calls.
      pose proof (attempt_calls (derived.general_request self question history false) w) as Hc.
      rewrite H in Hc. simpl in Hc. rewrite Hc, <- app_assoc. reflexivity.
  - intros Hfb history w e w1 H. split.
    + by apply generate_general_no_fallback.
    + pose proof (attempt_calls (derived.general_request self question history false) w) as Hc.
      by rewrite H in Hc.
  - intros Hfb Hdown Hup cid top_k w. rewrite ask_question_unfold.
    fold self.
    set (docs := derived.retrieved question top_k w).
    set (history := derived.history_for cid w).
    assert (Hgen : exists w1,
      (if py.truthy docs
       then llm.generate_response self question docs history false
       else llm.generate_general_response self question history) w = (inr $"OK", w1)).
    { destruct (py.truthy docs).
      - destruct (attempt_fails (derived.rag_request self question docs history false) w)
          as (e & w1 & H1); [intros o; by apply Hdown|].
        destruct (attempt_answers (derived.rag_request self question docs history true)
                    $"OK" w1) as (w2 & H2); [intros o; by apply Hup|].
        exists w2. rewrite (generate_response_retry _ _ _ _ _ _ _ H1), H2. reflexivity.
      - destruct (attempt_fails (derived.general_request self question history false) w)
          as (e & w1 & H1); [intros o; by apply Hdown|].
        destruct (attempt_answers (derived.general_request self question history true)
                    $"OK" w1) as (w2 & H2); [intros o; by apply Hup|].
        exists w2. rewrite (generate_general_retry _ _ _ _ _ _ Hfb H1), H2. reflexivity. }
    destruct Hgen as [w1 ->]. eauto.
Qed.

Lemma fallback_policy_witness :
  exists w',
    rag_pipeline.ask_question (R := stub.rt_primary_down)
      (rag_pipeline.__init__ default_settings) $"hello" (Some $"c1") 5
      (stub.fresh stub.rt_primary_down 0%nat)
    = (inr {| rag_pipeline.answer := $"OK"; rag_pipeline.sources := [];
              rag_pipeline.conversation_id := Some $"c1" |}, w').
Proof.
  apply (proj2 (proj2 (proj2
    (@fallback_policy stub.rt_primary_down (rag_pipeline.__init__ default_settings) $"hello")))).
  - discriminate.
  - intros request o Hm. exists stub.unavailable.
    cbn. unfold stub.chat. rewrite Hm. reflexivity.
  - intros request o Hm. cbn. unfold stub.chat. rewrite Hm. reflexivity.
Defined.

(** C3 as stated fails: with no fallback model configured and the primary
    model down, the general generator sends the primary request and nothing
    else, and [ask_question] raises, although the backend would have
    answered any other model. *)
Lemma no_retry_without_fallback_model :
  let rp := rag_pipeline.__init__ stub.no_fallback_settings in
  let self := rag_pipeline.llm rp in
  let w0 := stub.fresh stub.rt_primary_down 0%nat in
  (derived.attempt (derived.general_request self $"hello" None false) w0).1
    = inl stub.unavailable
  /\ calls (llm.generate_general_response self $"hello" None w0).2
     = [derived.general_request self $"hello" None false]
  /\ (llm.generate_general_response self $"hello" None w0).1
     = inl (llm.failed_to_generate stub.unavailable)
  /\ exists e, (rag_pipeline.ask_question rp $"hello" None 5 w0).1
               = inl (Exn ChatbotError e).
Proof.
  repeat split; try (vm_compute; reflexivity).
  eexists. vm_compute. reflexivity.
Qed.

(** * Ingestion *)

Lemma for_each_fails {A S} (body : S -> A -> result S) (xs : list A) (x : A) :
  x ∈ xs -> (forall st, exists e, body st x = inl e) ->
  forall st, exists e, for_each body xs st = inl e.
Proof.
  intros Hin Hx. induction Hin as [x xs|x y xs Hin IH]; intros st; simpl.
  - destruct (Hx st) as [e ->]. eauto.
  - destruct (body st y) as [e|st']; simpl; eauto.
Qed.

Section ingest_facts.
Context {R : Runtime}.

(** A missing file or an unsupported extension makes [ingest_document]
    raise a [DocumentIngestionError]. *)
Lemma ingest_document_rejects (p : str) :
  path_exists p = false \/ py.lower (path_suffix p) ∉ ingest.supported_extensions ->
  exists msg, ingest.ingest_document p = inl (Exn DocumentIngestionError msg).
Proof.
  intros Hbad. unfold ingest.ingest_document, ingest.ingest_document_body.
  destruct (path_exists p); simpl.
  - destruct Hbad as [|Hbad]; [done|].
    rewrite bool_decide_eq_false_2 by done. simpl. eauto.
  - eauto.
Qed.

End ingest_facts.

(** ** C9 *)

(** C9. When a file of the batch is missing or has an unsupported
    extension, [ingest_documents] raises and leaves the state of the
    pipeline, the embedding index in particular, as it was: every file is
    read before the single write to the index, so the failing call commits
    nothing, not even the chunks of the files that precede the bad one. *)
Theorem failed_ingestion_leaves_index {R : Runtime}
    (self : rag_pipeline.RAGPipeline) (file_paths : list str) (w : World) :
  (exists p, p ∈ file_paths
             /\ (path_exists p = false
                 \/ py.lower (path_suffix p) ∉ ingest.supported_extensions)) ->
  exists msg,
    rag_pipeline.ingest_documents self file_paths w = (inl (Exn ChatbotError msg), w)
    /\ collection (rag_pipeline.ingest_documents self file_paths w).2 = collection w.
Proof.
  intros (p & Hin & Hbad).
  destruct (for_each_fails
              (fun documents file_path =>
                 doc ← ingest.ingest_document file_path; mret (documents ++ [doc]))
              file_paths p Hin) with (st := @nil Document) as [e He].
  { intros st. destruct (ingest_document_rejects p Hbad) as [msg ->]. simpl. eauto. }
  unfold rag_pipeline.ingest_documents.
  rewrite try_except_eq, bind_eq. unfold lift. rewrite He.
  eexists. split; reflexivity.
Qed.

Lemma failed_ingestion_leaves_index_witness :
  exists msg,
    rag_pipeline.ingest_documents (R := stub.rt_files)
      (rag_pipeline.__init__ default_settings) [ $"a.txt"; $"b.txt" ]
      (stub.fresh stub.rt_files 0%nat)
    = (inl (Exn ChatbotError msg), stub.fresh stub.rt_files 0%nat)
    /\ collection
         (rag_pipeline.ingest_documents (R := stub.rt_files)
            (rag_pipeline.__init__ default_settings) [ $"a.txt"; $"b.txt" ]
            (stub.fresh stub.rt_files 0%nat)).2
       = collection (stub.fresh stub.rt_files 0%nat).
Proof.
  apply (@failed_ingestion_leaves_index stub.rt_files).
  exists $"b.txt". split.
  - apply list_elem_of_In. simpl. tauto.
  - left. vm_compute. reflexivity.
Defined.

(** * The prompt *)

Lemma slice_last_five (history : list Turn) :
  py.slice_from (-5) history = spec.last_turns 5 history.
Proof.
  change (-5) with (- Z.of_nat 5). rewrite slice_from_neg_drop by lia.
  apply drop_as_last_turns.
Qed.

(** The loop over the history window appends, for each turn in order, its
    user message and then its assistant message. *)
Lemma history_loop (turns : list Turn) (messages : list Message) :
  fold_left (fun messages turn =>
      let messages := messages ++ [ {| role := user_role; msg_content := user turn |} ] in
      messages ++ [ {| role := assistant_role; msg_content := assistant turn |} ])
    turns messages
  = messages ++ flat_map spec.expand_turn turns.
Proof.
  revert messages. induction turns as [|t turns IH]; intros messages; simpl.
  - by rewrite app_nil_r.
  - rewrite IH, <- !app_assoc. reflexivity.
Qed.

Lemma history_window (history : option (list Turn)) (messages : list Message) :
  match history with
  | Some history =>
      if py.truthy history then
        fold_left (fun messages turn =>
            let messages := messages ++ [ {| role := user_role; msg_content := user turn |} ] in
            messages ++ [ {| role := assistant_role; msg_content := assistant turn |} ])
          (py.slice_from (-5) history) messages
      else messages
  | None => messages
  end
  = messages ++ flat_map spec.expand_turn (spec.last_turns 5 (default [] history)).
Proof.
  destruct history as [[|t history]|]; simpl; try by rewrite app_nil_r.
  by rewrite history_loop, slice_last_five.
Qed.

Section prompt_facts.
Context {R : Runtime}.

(** The name [_build_context] writes for a passage is its source
    document. *)
Lemma source_of_spec (doc : embeddings.Passage) :
  format_value (llm.source_of doc) = spec.source_document doc.
Proof.
  unfold llm.source_of, spec.source_document.
  by destruct (embeddings.metadata doc !! "source_document"%string) as [[name|number]|].
Qed.

(** A passage that carries the metadata ingestion stores with a chunk is
    named after the document of the chunk. *)
Lemma stored_chunk_source (chunk : Chunk) (doc : embeddings.Passage) :
  embeddings.metadata doc = embeddings.chunk_metadata chunk ->
  spec.source_document doc = source_document chunk.
Proof.
  intros Hmeta. unfold spec.source_document. rewrite Hmeta.
  unfold embeddings.chunk_metadata. by rewrite lookup_insert_eq.
Qed.

(** The loop of [_build_context] numbers the passages from its start index
    on and renders them in order. *)
Lemma context_loop (docs : list embeddings.Passage) (k : nat) (parts : list str) :
  fold_left (fun '(i, context_parts) doc =>
      let source := llm.source_of doc in
      let content := embeddings.content doc in
      (i + 1,
       context_parts ++
         [ $"Source " ++ py.str_of_int i ++ $" (" ++ format_value source ++ $"):"
           ++ py.nl ++ content ]))
    docs (Z.of_nat (S k), parts)
  = (Z.of_nat (S (k + length docs)),
     parts ++ imap (fun i => spec.render_passage (k + i)) docs).
Proof.
  revert k parts. induction docs as [|doc docs IH]; intros k parts; simpl.
  - by rewrite Nat.add_0_r, app_nil_r.
  - replace (Z.of_nat (S k) + 1) with (Z.of_nat (S (S k))) by lia.
    rewrite IH, <- app_assoc. f_equal; [f_equal; lia|]. f_equal. simpl.
    unfold spec.render_passage at 2. rewrite Nat.add_0_r, source_of_spec. f_equal.
    apply imap_ext. intros i x _. simpl. f_equal. lia.
Qed.

Lemma build_context_spec (docs : list embeddings.Passage) :
  llm._build_context docs = spec.context_of docs.
Proof.
  unfold llm._build_context, spec.context_of.
  destruct docs as [|doc docs]; [done|]. cbn [py.truthy negb].
  match goal with |- context [fold_left ?f ?l ?init] =>
    assert (Hloop : fold_left f l init
                    = (Z.of_nat (S (0 + length (doc :: docs))),
                       [] ++ imap (fun n => spec.render_passage (0 + n)) (doc :: docs)))
      by apply (context_loop (doc :: docs) 0 []);
    rewrite Hloop
  end.
  reflexivity.
Qed.

Lemma build_messages_spec (query : str) (docs : list embeddings.Passage)
    (history : option (list Turn)) :
  llm._build_messages query (llm._build_context docs) history
  = spec.rag_prompt query docs history.
Proof.
  unfold llm._build_messages, spec.rag_prompt.
  rewrite history_window, build_context_spec. reflexivity.
Qed.

(** What [generate_response] sends: the primary request, followed by the
    fallback request when the primary attempt fails. *)
Lemma generate_response_calls self query docs history use_fallback (w : World) :
  exists sent,
    calls (llm.generate_response self query docs history use_fallback w).2
    = calls w ++ sent
    /\ sent <> []
    /\ Forall (fun r => exists fb, r = derived.rag_request self query docs history fb) sent.
Proof.
  pose proof (attempt_calls
                (derived.rag_request self query docs history use_fallback) w) as Hc.
  unfold llm.generate_response.
  rewrite try_except_eq, generate_response_body_attempt.
  destruct (derived.attempt _ w) as [[e|a] w1]; simpl in Hc.
  - destruct use_fallback; cbn [negb].
    + exists [derived.rag_request self query docs history true].
      split; [done|]. split; [done|]. repeat constructor. eauto.
    + rewrite try_except_eq, generate_response_body_attempt.
      pose proof (attempt_calls (derived.rag_request self query docs history true) w1) as Hc2.
      exists [derived.rag_request self query docs history false;
              derived.rag_request self query docs history true].
      split; [|split; [done|repeat constructor; eauto]].
      destruct (derived.attempt _ w1) as [[e2|a] w2]; simpl in *;
        by rewrite Hc2, Hc, <- app_assoc.
  - exists [derived.rag_request self query docs history use_fallback].
    split; [done|]. split; [done|]. repeat constructor. eauto.
Qed.

End prompt_facts.

(** ** C2 *)

(** C2. The prompt [generate_response] builds is the system message, then
    for the last five history turns at most, oldest first, a user message
    with the user text followed by an assistant message with the assistant
    text, then one user message made of the context and the question; the
    context joins the passages, numbered from one and rendered with their
    source document and content, with blank lines, and is the string
    "No relevant context found." when there is no passage. The source
    document of a passage is the name its metadata holds, which for a
    passage stored by ingestion is the file name of its document. Every
    request the method sends carries this prompt. *)
Theorem rag_prompt_exact {R : Runtime} (self : llm.LLMWrapper) (query : str)
    (docs : list embeddings.Passage) (history : option (list Turn)) :
  llm._build_messages query (llm._build_context docs) history
  = spec.rag_prompt query docs history
  /\ (length (spec.last_turns 5 (default [] history)) <= 5)%nat
  /\ (forall use_fallback w,
        exists sent,
          calls (llm.generate_response self query docs history use_fallback w).2
          = calls w ++ sent
          /\ sent <> []
          /\ Forall (fun r => req_messages r = spec.rag_prompt query docs history) sent)
  /\ forall (document : Document) (i : nat) (piece : str) id text d,
       spec.source_document
         {| embeddings.id := id; embeddings.content := text;
            embeddings.metadata :=
              embeddings.chunk_metadata (preprocess.chunk_doc document i piece);
            embeddings.distance_to_query := d |}
       = file_name document.
Proof.
  split; [apply build_messages_spec|]. split.
  { unfold spec.last_turns. rewrite length_rev, length_take. lia. }
  split.
  { intros use_fallback w.
    destruct (generate_response_calls self query docs history use_fallback w)
      as (sent & Hc & Hne & Hall).
    exists sent. split; [done|]. split; [done|].
    eapply Forall_impl; [exact Hall|]. intros r [fb ->]. simpl.
    apply build_messages_spec. }
  intros document i piece id text d.
  by apply (stored_chunk_source (preprocess.chunk_doc document i piece)).
Qed.

(** * The index write *)

Section collection_facts.
Context {vector : Type}.
Implicit Types (c : gmap str (chroma.Entry vector)) (r : str * chroma.Entry vector).

(** An entry that is present stays as it is. *)
Lemma add_record_keeps c r id e :
  c !! id = Some e -> chroma.add_record c r !! id = Some e.
Proof.
  intros Hid. unfold chroma.add_record.
  destruct (c !! r.1) eqn:Hr; [done|].
  rewrite lookup_insert_ne; [done|]. intros Heq. rewrite Heq in Hr. congruence.
Qed.

Lemma add_records_keep recs c id e :
  c !! id = Some e -> fold_left chroma.add_record recs c !! id = Some e.
Proof.
  revert c. induction recs as [|r recs IH]; intros c Hid; simpl; [done|].
  by apply IH, add_record_keeps.
Qed.

Lemma add_record_present c r : is_Some (chroma.add_record c r !! r.1).
Proof.
  unfold chroma.add_record. destruct (c !! r.1) eqn:Hr.
  - by rewrite Hr.
  - by rewrite lookup_insert_eq.
Qed.

(** After the write every record has an entry under its id. *)
Lemma add_records_present recs c r :
  r ∈ recs -> is_Some (fold_left chroma.add_record recs c !! r.1).
Proof.
  revert c. induction recs as [|r' recs IH]; intros c Hin; [by apply elem_of_nil in Hin|].
  apply elem_of_cons in Hin as [->|Hin]; simpl.
  - destruct (add_record_present c r') as [e He].
    rewrite (add_records_keep recs _ _ e He). eauto.
  - by apply IH.
Qed.

(** Writing records whose ids are all present changes nothing. *)
Lemma add_records_all_present recs c :
  (forall r, r ∈ recs -> is_Some (c !! r.1)) -> fold_left chroma.add_record recs c = c.
Proof.
  induction recs as [|r recs IH]; intros Hall; simpl; [done|].
  assert (Hr : chroma.add_record c r = c).
  { unfold chroma.add_record. destruct (Hall r) as [e ->]; [left|done]. }
  rewrite Hr. apply IH. intros r' Hin. apply Hall. by right.
Qed.

(** [Collection.add] a second time with the same arguments succeeds and
    leaves the collection as the first call left it. *)
Lemma add_twice ids documents (embeddings : list vector) metadatas c c1 :
  chroma.add ids documents embeddings metadatas c = inr c1 ->
  chroma.add ids documents embeddings metadatas c1 = inr c1.
Proof.
  unfold chroma.add.
  destruct (negb (py.truthy ids)); [done|].
  destruct (chroma.has_duplicates ids); [done|].
  destruct (negb (bool_decide _)); [done|].
  intros [= <-]. f_equal. apply add_records_all_present.
  intros r Hin. by apply add_records_present.
Qed.

Lemma add_keeps ids documents (embeddings : list vector) metadatas c c1 id e :
  chroma.add ids documents embeddings metadatas c = inr c1 ->
  c !! id = Some e -> c1 !! id = Some e.
Proof.
  unfold chroma.add.
  destruct (negb (py.truthy ids)); [done|].
  destruct (chroma.has_duplicates ids); [done|].
  destruct (negb (bool_decide _)); [done|].
  intros [= <-]. apply add_records_keep.
Qed.

End collection_facts.

Section reingest_facts.
Context {R : Runtime}.

Lemma add_documents_body_twice (chunks : list Chunk) (c c1 : gmap str (chroma.Entry vector)) :
  embeddings.add_documents_body chunks c = inr c1 ->
  embeddings.add_documents_body chunks c1 = inr c1.
Proof.
  unfold embeddings.add_documents_body.
  destruct (for_each _ chunks _) as [e|[[[ids documents] metadatas] embeddings]];
    [done|]. simpl. apply add_twice.
Qed.

Lemma add_documents_body_keeps (chunks : list Chunk) (c c1 : gmap str (chroma.Entry vector)) id e :
  embeddings.add_documents_body chunks c = inr c1 ->
  c !! id = Some e -> c1 !! id = Some e.
Proof.
  unfold embeddings.add_documents_body.
  destruct (for_each _ chunks _) as [e'|[[[ids documents] metadatas] embeddings]];
    [done|]. simpl. apply add_keeps.
Qed.

(** [ingest_documents] step by step: read every file, chunk, then write
    once; of the state only the collection changes, and only on success. *)
Lemma ingest_documents_unfold (self : rag_pipeline.RAGPipeline) (file_paths : list str) (w : World) :
  rag_pipeline.ingest_documents self file_paths w =
    match derived.read_batch file_paths with
    | inl e =>
        (inl (Exn ChatbotError ($"Document ingestion failed: " ++ str_of_exn e)), w)
    | inr documents =>
        match embeddings.add_documents_body
                (preprocess.process_documents (rag_pipeline.preprocessor self) documents)
                (collection w) with
        | inr c =>
            (inr (), {| conversations := conversations w; collection := c;
                        out := out w; calls := calls w |})
        | inl e =>
            (inl (Exn ChatbotError
                    ($"Document ingestion failed: "
                       ++ $"Failed to add documents: " ++ str_of_exn e)), w)
        end
    end.
Proof.
  unfold rag_pipeline.ingest_documents, derived.read_batch.
  rewrite try_except_eq, bind_eq. unfold lift.
  destruct (for_each _ file_paths []) as [e|documents]; [done|].
  unfold embeddings.add_documents.
  by destruct (embeddings.add_documents_body _ _).
Qed.

End reingest_facts.

(** The chunks of a document carry the ids [name_chunk_0], [name_chunk_1],
    ... in order, whatever the splitter returns. *)
Lemma chunk_document_ids (self : preprocess.TextPreprocessor) (document : Document)
    (i : nat) (chunk : Chunk) :
  preprocess.chunk_document self document !! i = Some chunk ->
  chunk_id chunk = file_name document ++ $"_chunk_" ++ py.str_of_int (Z.of_nat i)
  /\ source_document chunk = file_name document
  /\ chunk_index chunk = Z.of_nat i.
Proof.
  unfold preprocess.chunk_document.
  destruct (text_splitter.split_text _ _) as [e|chunks]; [done|].
  rewrite list_lookup_imap. destruct (chunks !! i); [|done].
  by intros [= <-].
Qed.

(** ** C4 *)

(** C4, as the code has it. The chunks of a document carry the ids
    [{source_document}_chunk_{chunk_index}], so ingesting the same files
    again yields the same ids. The index write is an add that keeps the
    entry already stored under an id and does not replace it; hence, when
    an ingest has succeeded, ingesting the same files again succeeds and
    leaves the index state, and the whole pipeline state, exactly as the
    first ingest left it. *)
Theorem reingest_is_idempotent {R : Runtime} (self : rag_pipeline.RAGPipeline)
    (file_paths : list str) (w w1 : World) :
  rag_pipeline.ingest_documents self file_paths w = (inr (), w1) ->
  rag_pipeline.ingest_documents self file_paths w1 = (inr (), w1)
  /\ (forall id e, collection w !! id = Some e -> collection w1 !! id = Some e)
  /\ (forall document i chunk,
        preprocess.chunk_document (rag_pipeline.preprocessor self) document !! i
          = Some chunk ->
        chunk_id chunk = file_name document ++ $"_chunk_" ++ py.str_of_int (Z.of_nat i)).
Proof.
  rewrite !ingest_documents_unfold.
  destruct (derived.read_batch file_paths) as [e|documents]; [done|].
  destruct (embeddings.add_documents_body _ (collection w)) as [e|c1] eqn:Hadd; [done|].
  intros [= <-]. simpl. split; [|split].
  - by rewrite (add_documents_body_twice _ _ _ Hadd).
  - intros id e. by apply add_documents_body_keeps with (1 := Hadd).
  - intros document i chunk Hi. by apply chunk_document_ids in Hi as [? _].
Qed.

Lemma reingest_is_idempotent_witness :
  let first := rag_pipeline.ingest_documents (R := stub.rt_files)
                 (rag_pipeline.__init__ default_settings) [ $"a.txt" ]
                 (stub.fresh stub.rt_files 0%nat) in
  first.1 = inr ()
  /\ rag_pipeline.ingest_documents (R := stub.rt_files)
       (rag_pipeline.__init__ default_settings) [ $"a.txt" ] first.2
     = (inr (), first.2).
Proof.
  intros first.
  assert (Hfirst : first.1 = inr ()) by (vm_compute; reflexivity).
  split; [exact Hfirst|].
  apply (@reingest_is_idempotent stub.rt_files
           (rag_pipeline.__init__ default_settings) [ $"a.txt" ]
           (stub.fresh stub.rt_files 0%nat) first.2).
  rewrite <- Hfirst. apply surjective_pairing.
Defined.

(** C4 as stated fails: the write does not replace an entry that shares the
    chunk id. Ingesting [a.txt] into a collection that holds an older text
    under the id of its first chunk succeeds and leaves the older text. *)
Lemma add_does_not_replace :
  let self := rag_pipeline.__init__ default_settings in
  let after := rag_pipeline.ingest_documents (R := stub.rt_files) self [ $"a.txt" ] stub.stale in
  after.1 = inr ()
  /\ (chunk_id <$> preprocess.process_documents (rag_pipeline.preprocessor self)
                     [ {| file_path := $"a.txt"; file_name := $"a.txt";
                          content := $"A.  B. C."; file_size := 9;
                          extension := $".txt" |} ])
     = [ $"a.txt_chunk_0" ]
  /\ chroma.document <$> (collection after.2 !! $"a.txt_chunk_0") = Some $"an older text"
  /\ chroma.document <$> (collection after.2 !! $"a.txt_chunk_0") <> Some $"A. B. C.".
Proof. vm_compute. repeat split; discriminate. Qed.

(** * Strings *)

Lemma lstrip_length (s : str) : (length (py.lstrip s) <= length s)%nat.
Proof.
  induction s as [|c t IH]; simpl; [lia|].
  destruct (py.isspace c); simpl; lia.
Qed.

Lemma lstrip_idempotent (s : str) : py.lstrip (py.lstrip s) = py.lstrip s.
Proof.
  induction s as [|c t IH]; simpl; [done|].
  destruct (py.isspace c) eqn:Hc; [done|]. simpl. by rewrite Hc.
Qed.

Lemma lstrip_fixed_head (c : ascii) (t : str) :
  py.lstrip (c :: t) = c :: t -> py.isspace c = false.
Proof.
  simpl. destruct (py.isspace c); [|done]. intros H.
  pose proof (lstrip_length t) as Hl. rewrite H in Hl. simpl in Hl. lia.
Qed.

Lemma lstrip_snoc (u : str) (c : ascii) :
  py.isspace c = false -> exists v, py.lstrip (u ++ [c]) = v ++ [c].
Proof.
  intros Hc. induction u as [|a u IH]; simpl.
  - rewrite Hc. by exists [].
  - destruct (py.isspace a); [done|]. by exists (a :: u).
Qed.

Lemma rstrip_length (s : str) : (length (py.rstrip s) <= length s)%nat.
Proof.
  unfold py.rstrip. rewrite length_rev.
  pose proof (lstrip_length (rev s)) as H. by rewrite length_rev in H.
Qed.

Lemma rstrip_idempotent (s : str) : py.rstrip (py.rstrip s) = py.rstrip s.
Proof. unfold py.rstrip. by rewrite rev_involutive, lstrip_idempotent. Qed.

Lemma lstrip_rstrip (s : str) :
  py.lstrip s = s -> py.lstrip (py.rstrip s) = py.rstrip s.
Proof.
  destruct s as [|c t]; [done|]. intros Hc%lstrip_fixed_head.
  unfold py.rstrip. simpl.
  destruct (lstrip_snoc (rev t) c Hc) as [v ->].
  rewrite rev_app_distr. simpl. by rewrite Hc.
Qed.

Lemma strip_length (s : str) : (length (py.strip s) <= length s)%nat.
Proof.
  unfold py.strip. pose proof (rstrip_length (py.lstrip s)).
  pose proof (lstrip_length s). lia.
Qed.

Lemma strip_idempotent (s : str) : py.strip (py.strip s) = py.strip s.
Proof.
  unfold py.strip.
  rewrite (lstrip_rstrip (py.lstrip s)) by apply lstrip_idempotent.
  apply rstrip_idempotent.
Qed.

(** A stripped string does not begin with whitespace. *)
Lemma strip_fixed_head (c : ascii) (t : str) :
  py.strip (c :: t) = c :: t -> py.isspace c = false.
Proof.
  intros H. destruct (py.isspace c) eqn:Hc; [|done].
  pose proof (rstrip_length (py.lstrip (c :: t))) as H1.
  pose proof (lstrip_length t) as H2.
  unfold py.strip in H. rewrite H in H1. simpl in H1. rewrite Hc in H1. lia.
Qed.

Lemma join_empty_separator (parts : list str) : py.join [] parts = concat parts.
Proof.
  induction parts as [|p [|q parts] IH]; simpl in *.
  - done.
  - by rewrite app_nil_r.
  - by rewrite IH.
Qed.

Lemma concat_filter_truthy (l : list str) : concat (List.filter py.truthy l) = concat l.
Proof.
  induction l as [|[|c s] l IH]; simpl; [done|done|]. by rewrite IH.
Qed.

Lemma filter_truthy_nonempty (l : list str) :
  Forall (fun s => s <> []) (List.filter py.truthy l).
Proof.
  induction l as [|[|c s] l IH]; simpl; [constructor|done|]. by constructor.
Qed.

Lemma startswith_prefix (p s : str) :
  py.startswith p s = true -> exists rest, s = p ++ rest.
Proof.
  revert s. induction p as [|a p IH]; intros s; simpl; [by exists s|].
  destruct s as [|b s]; [done|].
  intros [Hab Hp]%andb_prop. apply bool_decide_eq_true in Hab as ->.
  destruct (IH s Hp) as [rest ->]. by exists rest.
Qed.

(** * The splitter: cutting at a separator *)

Section cutting.
Variable sep : str.
Hypothesis sep_nonempty : sep <> [].

Lemma re_split_go_skip (x : str) (cur rest : str) :
  text_splitter.re_split_go sep (length x) cur (x ++ rest)
  = text_splitter.re_split_go sep 0 cur rest.
Proof.
  induction x as [|c x IH]; simpl; [|done].
  destruct rest; reflexivity.
Qed.

(** The pieces put back together with the separator in front of every
    piece but the first give the text; a text that contains the separator
    has at least two pieces; the first piece of a non-empty text that does
    not begin with the separator is not empty. *)
Lemma re_split_go_spec (n : nat) : forall (text cur : str),
  (length text <= n)%nat ->
  exists first others,
    text_splitter.re_split_go sep 0 cur text = (rev cur ++ first) :: others
    /\ first ++ concat (map (fun p => sep ++ p) others) = text
    /\ (py.contains sep text = true -> others <> [])
    /\ (py.startswith sep text = false -> text <> [] -> first <> []).
Proof.
  induction n as [|n IH]; intros text cur Hn.
  - destruct text; [|simpl in Hn; lia].
    exists [], []. simpl. rewrite app_nil_r.
    destruct sep; [done|]. simpl. done.
  - destruct text as [|c t].
    { exists [], []. simpl. rewrite app_nil_r. destruct sep; [done|]. simpl. done. }
    cbn [text_splitter.re_split_go].
    destruct (py.startswith sep (c :: t)) eqn:Hsw.
    + destruct (startswith_prefix _ _ Hsw) as [rest Hrest].
      assert (exists a sep', sep = a :: sep') as (a & sep' & Hsep).
      { destruct sep; [done|eauto]. }
      assert (Ht : t = sep' ++ rest).
      { rewrite Hsep in Hrest. simpl in Hrest. by injection Hrest. }
      replace (length sep - 1)%nat with (length sep') by (rewrite Hsep; simpl; lia).
      rewrite Ht, re_split_go_skip.
      destruct (IH rest [] ltac:(subst t; simpl in Hn; rewrite length_app in Hn; lia))
        as (f & o & Hgo & Hcat & _ & _).
      rewrite Hgo. exists [], (f :: o). simpl. rewrite app_nil_r.
      repeat split; try done.
      rewrite Ht in Hrest. rewrite Hrest, <- Hcat.
      by rewrite <- ?app_assoc.
    + destruct (IH t (c :: cur) ltac:(simpl in Hn; lia)) as (f & o & Hgo & Hcat & Hcont & _).
      rewrite Hgo. exists (c :: f), o. simpl. rewrite <- app_assoc. simpl.
      repeat split; try done.
      * by rewrite Hcat.
      * intros Hc. apply Hcont. simpl in Hc. rewrite Hsw in Hc. done.
Qed.

End cutting.

(** * The splitter: pieces *)

(** The pieces of a text concatenate to the text and none is empty. *)
Lemma pieces_concat (text separator : str) :
  concat (text_splitter._split_text_with_regex text separator) = text.
Proof.
  unfold text_splitter._split_text_with_regex. rewrite concat_filter_truthy.
  destruct separator as [|a s]; cbn [py.truthy].
  - induction text as [|c t IH]; simpl; [done|]. by rewrite IH.
  - unfold text_splitter.re_split.
    destruct (re_split_go_spec (a :: s) ltac:(done) (length text) text [] ltac:(done))
      as (first & others & -> & Hcat & _). simpl. exact Hcat.
Qed.

Lemma pieces_nonempty (text separator : str) :
  Forall (fun s => s <> []) (text_splitter._split_text_with_regex text separator).
Proof. apply filter_truthy_nonempty. Qed.

(** Without a separator the pieces are the single characters. *)
Lemma pieces_characters (text : str) :
  text_splitter._split_text_with_regex text [] = map (fun c => [c]) text.
Proof.
  unfold text_splitter._split_text_with_regex. cbn [py.truthy].
  induction text as [|c t IH]; simpl; [done|]. by rewrite IH.
Qed.

(** A text that contains the separator and does not begin with it is cut
    into two pieces at least. *)
Lemma pieces_at_least_two (text separator : str) :
  separator <> [] -> text <> [] ->
  py.contains separator text = true -> py.startswith separator text = false ->
  (2 <= length (text_splitter._split_text_with_regex text separator))%nat.
Proof.
  intros Hsep Htext Hcont Hsw. unfold text_splitter._split_text_with_regex.
  destruct separator as [|a s]; [done|]. cbn [py.truthy].
  unfold text_splitter.re_split.
  destruct (re_split_go_spec (a :: s) Hsep (length text) text [] ltac:(done))
    as (first & others & -> & _ & Hothers & Hfirst).
  specialize (Hothers Hcont). specialize (Hfirst Hsw Htext).
  destruct others as [|o others]; [done|].
  destruct first as [|c first]; [done|]. simpl. lia.
Qed.

(** Among two or more non-empty pieces each is shorter than the whole. *)
Lemma piece_shorter (pieces : list str) (p : str) :
  Forall (fun s => s <> []) pieces -> (2 <= length pieces)%nat -> p ∈ pieces ->
  (length p < length (concat pieces))%nat.
Proof.
  intros Hne Hlen Hin.
  apply list_elem_of_split in Hin as (l1 & l2 & ->).
  rewrite concat_app, length_app. simpl. rewrite length_app.
  apply Forall_app in Hne as [Hne1 Hne2]. apply Forall_cons in Hne2 as [_ Hne2].
  destruct l1 as [|[|c q] l1].
  - destruct l2 as [|[|c q] l2]; [simpl in Hlen; lia| |simpl; lia].
    by apply Forall_cons in Hne2 as [? _].
  - by apply Forall_cons in Hne1 as [? _].
  - simpl. lia.
Qed.

(** * The splitter: merging pieces that fit *)

Lemma len_app {A} (l k : list A) : len (l ++ k) = len l + len k.
Proof. unfold py.len. rewrite length_app. lia. Qed.

Lemma len_nonneg {A} (l : list A) : 0 <= len l.
Proof. unfold py.len. lia. Qed.

Lemma len_concat_snoc (l : list str) (d : str) :
  len (concat (l ++ [d])) = len (concat l) + len d.
Proof. rewrite concat_app, len_app. simpl. by rewrite app_nil_r. Qed.


Section fitting.
Variable self : text_splitter.RecursiveCharacterTextSplitter.
Let cs := text_splitter._chunk_size self.

(** A piece that fits with what is collected is just collected. *)
Lemma merge_step_fits (docs current_doc : list str) (total : Z) (d : str) :
  total + len d <= cs ->
  text_splitter.merge_step self [] (docs, current_doc, total) d
  = inr (docs, current_doc ++ [d], total + len d).
Proof.
  intros Hfit. unfold text_splitter.merge_step.
  change (len (@nil ascii)) with 0. fold cs.
  replace (total + len d + (if 0 <? len current_doc then 0 else 0)) with (total + len d)
    by (destruct (0 <? len current_doc); lia).
  destruct (Z.gtb_spec (total + len d) cs) as [|_]; [lia|].
  cbn [andb mbind result_bind mret result_ret].
  replace (total + len d + (if 1 <? len (current_doc ++ [d]) then 0 else 0))
    with (total + len d) by (destruct (1 <? len (current_doc ++ [d])); lia).
  reflexivity.
Qed.

(** While the pieces seen so far and the next one fit in a chunk, the loop
    of [_merge_splits] only collects. *)
Lemma merge_loop_fits (splits current_doc : list str) :
  len (concat current_doc) + len (concat splits) <= cs ->
  for_each (text_splitter.merge_step self []) splits
    ([], current_doc, len (concat current_doc))
  = inr ([], current_doc ++ splits, len (concat (current_doc ++ splits))).
Proof.
  revert current_doc. induction splits as [|d splits IH]; intros current_doc Hfit.
  - simpl. by rewrite app_nil_r.
  - cbn [for_each]. simpl in Hfit. rewrite len_app in Hfit.
    pose proof (len_nonneg (concat splits)).
    rewrite merge_step_fits by lia. cbn [mbind result_bind].
    replace (len (concat current_doc) + len d) with (len (concat (current_doc ++ [d])))
      by (rewrite concat_app, len_app; simpl; by rewrite app_nil_r).
    rewrite IH.
    + by rewrite <- app_assoc.
    + rewrite concat_app, len_app. simpl. rewrite app_nil_r. lia.
Qed.

(** Pieces that fit together in one chunk are merged into one. *)
Lemma merge_splits_fits (splits : list str) :
  len (concat splits) <= cs ->
  text_splitter._merge_splits self splits []
  = inr (match py.strip (concat splits) with [] => [] | t => [t] end).
Proof.
  intros Hfit. unfold text_splitter._merge_splits.
  pose proof (merge_loop_fits splits [] ltac:(simpl; change (len []) with 0; lia)) as Hloop.
  simpl in Hloop. change (len []) with 0 in Hloop. rewrite Hloop.
  cbn [mbind result_bind]. unfold text_splitter._join_docs.
  rewrite join_empty_separator.
  by destruct (py.strip (concat splits)).
Qed.

(** The loop of [_split_text] over pieces that are all short only collects
    them. *)
Lemma split_loop_short recur (pieces good : list str) :
  Forall (fun s => len s < cs) pieces ->
  for_each (fun '(final_chunks, _good_splits) s =>
      if len s <? text_splitter._chunk_size self
      then mret (final_chunks, _good_splits ++ [s])
      else
        final_chunks ← text_splitter.flush self final_chunks _good_splits;
        match recur with
        | None => mret (final_chunks ++ [s], [])
        | Some _split_text' =>
            other_info ← _split_text' s; mret (final_chunks ++ other_info, [])
        end) pieces ([], good)
  = inr ([], good ++ pieces).
Proof.
  intros Hshort. revert good. induction Hshort as [|s pieces Hs _ IH]; intros good.
  - simpl. by rewrite app_nil_r.
  - cbn [for_each]. fold cs. destruct (Z.ltb_spec (len s) cs) as [_|]; [|lia].
    cbn [mbind result_bind mret result_ret]. rewrite IH. by rewrite <- app_assoc.
Qed.

(** A stripped, non-empty text cut into short pieces comes back whole,
    when it fits in a chunk. *)
Lemma split_with_short separator recur (text : str) :
  text <> [] -> py.strip text = text -> len text <= cs ->
  Forall (fun s => len s < cs) (text_splitter._split_text_with_regex text separator) ->
  text_splitter.split_with self separator recur text = inr [text].
Proof.
  intros Hne Hstrip Hfit Hshort. unfold text_splitter.split_with.
  match goal with |- context [for_each ?f ?xs ?init] =>
    assert (Hloop : for_each f xs init = inr ([], [] ++ xs))
      by apply (split_loop_short recur _ [] Hshort);
    rewrite Hloop
  end.
  cbn [mbind result_bind app]. unfold text_splitter.flush.
  pose proof (pieces_concat text separator) as Hcat.
  destruct (text_splitter._split_text_with_regex text separator) as [|p pieces] eqn:Hp.
  { simpl in Hcat. congruence. }
  cbn [py.truthy]. rewrite merge_splits_fits by (rewrite Hcat; exact Hfit).
  rewrite Hcat, Hstrip. cbn [mbind result_bind mret result_ret app].
  by destruct text.
Qed.

(** The same for a text cut into its characters. *)
Lemma split_with_characters (text : str) :
  text <> [] -> py.strip text = text -> len text <= cs ->
  text_splitter.split_with self [] None text = inr [text].
Proof.
  intros Hne Hstrip Hfit.
  destruct (Z.eq_dec cs 1) as [Hone|Hmore].
  - destruct text as [|c [|c' t]]; [done| |unfold py.len in Hfit; simpl in Hfit; lia].
    unfold text_splitter.split_with. rewrite pieces_characters. simpl.
    fold cs. rewrite Hone. reflexivity.
  - apply split_with_short; try done.
    rewrite pieces_characters. apply Forall_map, Forall_forall. intros c _.
    change (len [c]) with 1.
    destruct text; [done|]. unfold py.len in Hfit. simpl in Hfit. lia.
Qed.

(** Down the list of separators: when every separator but the empty one
    begins with whitespace and the empty one is in the list, a stripped,
    non-empty text that fits in a chunk is returned as the only chunk. *)
Lemma split_text_fits (separators : list str) (text : str) :
  Forall (fun s => match s with [] => True | c :: _ => py.isspace c = true end) separators ->
  [] ∈ separators ->
  text <> [] -> py.strip text = text -> len text <= cs ->
  text_splitter._split_text self separators text = inr [text].
Proof.
  intros Hseps Hempty Hne Hstrip Hfit.
  induction separators as [|s rest IH]; [by apply elem_of_nil in Hempty|].
  apply Forall_cons in Hseps as [Hs Hrest].
  cbn [text_splitter._split_text].
  destruct s as [|c s]; cbn [py.truthy negb].
  { by apply split_with_characters. }
  assert (Hsw : py.startswith (c :: s) text = false).
  { destruct text as [|h t]; [done|]. simpl.
    apply strip_fixed_head in Hstrip.
    destruct (bool_decide (c = h)) eqn:Hch; [|done].
    apply bool_decide_eq_true in Hch as ->. congruence. }
  apply elem_of_cons in Hempty as [|Hempty]; [done|].
  destruct (py.contains (c :: s) text) eqn:Hcont.
  - apply split_with_short; try done.
    pose proof (pieces_at_least_two text (c :: s) ltac:(done) Hne Hcont Hsw) as Htwo.
    pose proof (pieces_nonempty text (c :: s)) as Hpne.
    pose proof (pieces_concat text (c :: s)) as Hcat.
    apply Forall_forall. intros p Hp.
    pose proof (piece_shorter _ p Hpne Htwo Hp) as Hlt.
    rewrite Hcat in Hlt. unfold py.len in *. lia.
  - destruct rest as [|s' rest]; [by apply elem_of_nil in Hempty|].
    by apply IH.
Qed.

End fitting.

(** * Cleaning *)

Lemma lstrip_Forall (P : ascii -> Prop) (s : str) : Forall P s -> Forall P (py.lstrip s).
Proof.
  induction 1 as [|c t Hc Ht IH]; simpl; [constructor|].
  destruct (py.isspace c); [done|]. by constructor.
Qed.

Lemma strip_Forall (P : ascii -> Prop) (s : str) : Forall P s -> Forall P (py.strip s).
Proof.
  intros H. unfold py.strip, py.rstrip.
  by apply Forall_rev, lstrip_Forall, Forall_rev, lstrip_Forall.
Qed.

(** After the first substitution every whitespace character is a space and
    stands alone. *)
Lemma collapse_whitespace_only_spaces (in_run : bool) (text : str) :
  Forall (fun c => py.isspace c = true -> c = " "%char)
    (preprocess.collapse_whitespace in_run text).
Proof.
  revert in_run. induction text as [|c t IH]; intros in_run; simpl; [constructor|].
  destruct (py.isspace c) eqn:Hc.
  - destruct in_run; simpl; [apply IH|]. constructor; [done|apply IH].
  - constructor; [congruence|apply IH].
Qed.

Lemma collapse_whitespace_single_spaced (in_run : bool) (text : str) :
  spec.single_spaced (preprocess.collapse_whitespace in_run text)
  /\ (in_run = true ->
      match preprocess.collapse_whitespace in_run text with
      | c :: _ => py.isspace c = false
      | [] => True
      end).
Proof.
  revert in_run. induction text as [|c t IH]; intros in_run; simpl; [done|].
  destruct (py.isspace c) eqn:Hc.
  - destruct (IH true) as [Hs Hhead]. specialize (Hhead eq_refl).
    destruct in_run; simpl; [done|]. split; [|done].
    destruct (preprocess.collapse_whitespace true t); [done|]. by split.
  - destruct (IH false) as [Hs _]. split; [|done].
    destruct (preprocess.collapse_whitespace false t); [done|].
    split; [|done]. congruence.
Qed.

(** The cleaned text is stripped, holds only characters of the allow-list,
    and holds no whitespace but the space. *)
Lemma clean_text_properties (text : str) :
  py.strip (preprocess.clean_text text) = preprocess.clean_text text
  /\ Forall (fun c => preprocess.allowed c = true) (preprocess.clean_text text)
  /\ Forall (fun c => py.isspace c = true -> c = " "%char) (preprocess.clean_text text).
Proof.
  unfold preprocess.clean_text. split; [apply strip_idempotent|]. split.
  - apply strip_Forall. apply Forall_forall. intros c Hc.
    apply list_elem_of_In, filter_In in Hc as [_ Hc]. exact Hc.
  - apply strip_Forall. apply Forall_forall. intros c Hc.
    apply list_elem_of_In, filter_In in Hc as [Hc _].
    pose proof (collapse_whitespace_only_spaces false text) as Hall.
    rewrite Forall_forall in Hall. apply Hall. by apply list_elem_of_In.
Qed.

(** ** C6 *)

(** C6, as the code has it. For a document whose cleaned text is not empty
    and has length at most [chunk_size], chunking yields exactly one chunk,
    with [chunk_index] 0, whose content is the cleaned text. Cleaning is a
    function of the text: it replaces each run of whitespace by one space,
    drops the characters outside the allow-list, and strips. *)
Theorem short_document_single_chunk (settings : Settings) (document : Document) :
  let cleaned := preprocess.clean_text (content document) in
  cleaned <> [] -> len cleaned <= chunk_size settings ->
  preprocess.chunk_document (preprocess.__init__ settings) document
    = [ preprocess.chunk_doc document 0 cleaned ]
  /\ chunk_index (preprocess.chunk_doc document 0 cleaned) = 0
  /\ chunk_content (preprocess.chunk_doc document 0 cleaned) = cleaned
  /\ cleaned = py.strip (List.filter preprocess.allowed
                           (preprocess.collapse_whitespace false (content document)))
  /\ spec.single_spaced (preprocess.collapse_whitespace false (content document))
  /\ Forall (fun c => py.isspace c = true -> c = " "%char)
       (preprocess.collapse_whitespace false (content document))
  /\ py.strip cleaned = cleaned
  /\ Forall (fun c => preprocess.allowed c = true) cleaned.
Proof.
  intros cleaned Hne Hfit.
  destruct (clean_text_properties (content document)) as (Hstrip & Hallowed & _).
  repeat split; try done.
  - unfold preprocess.chunk_document. fold cleaned.
    unfold text_splitter.split_text. cbn [preprocess.__init__ preprocess.text_splitter
      text_splitter._separators].
    rewrite split_text_fits; try done.
    + repeat constructor.
    + apply list_elem_of_In. simpl. tauto.
  - apply collapse_whitespace_single_spaced.
  - apply collapse_whitespace_only_spaces.
Qed.

Lemma short_document_single_chunk_witness :
  map chunk_content (preprocess.chunk_document (preprocess.__init__ default_settings) stub.doc_a)
  = [ $"A. B. C." ].
Proof.
  pose proof (short_document_single_chunk default_settings stub.doc_a) as H.
  cbv zeta in H. destruct H as (-> & _).
  - vm_compute. discriminate.
  - vm_compute. discriminate.
  - vm_compute. reflexivity.
Defined.

(** C6 as stated fails for the empty document: its cleaned text has length
    0, within any chunk size, and chunking yields no chunk at all. *)
Lemma empty_document_no_chunk :
  len (preprocess.clean_text (content stub.doc_e)) <= chunk_size default_settings
  /\ preprocess.chunk_document (preprocess.__init__ default_settings) stub.doc_e = []
  /\ length (preprocess.chunk_document (preprocess.__init__ default_settings) stub.doc_e)
     <> 1%nat.
Proof. vm_compute. repeat split; discriminate. Qed.

(** * The splitter: the size of the chunks *)

(** An invariant of a loop that ends normally holds at its end. *)
Lemma for_each_invariant {A S} (I : S -> Prop) (body : S -> A -> result S)
    (xs : list A) (st st' : S) :
  (forall s x s', x ∈ xs -> I s -> body s x = inr s' -> I s') ->
  I st -> for_each body xs st = inr st' -> I st'.
Proof.
  revert st. induction xs as [|x xs IH]; intros st Hstep Hst; simpl.
  - by intros [= <-].
  - destruct (body st x) as [e|s1] eqn:Hb; [done|]. simpl.
    apply IH.
    + intros s y s' Hy. apply Hstep. by right.
    + eapply Hstep; [left|exact Hst|exact Hb].
Qed.

Section bounded.
Variable self : text_splitter.RecursiveCharacterTextSplitter.
Let cs := text_splitter._chunk_size self.

Lemma pop_while_unfold (separator_len _len : Z) (current_doc : list str) (total : Z) :
  text_splitter.pop_while self separator_len _len current_doc total
  = if (total >? text_splitter._chunk_overlap self)
       || ((total + _len + (if 0 <? len current_doc then separator_len else 0)
            >? text_splitter._chunk_size self) && (total >? 0))
    then
      match current_doc with
      | [] => inl text_splitter.IndexError
      | d0 :: rest =>
          text_splitter.pop_while self separator_len _len rest
            (total - (len d0 + (if 1 <? len current_doc then separator_len else 0)))
      end
    else inr (current_doc, total).
Proof. by destruct current_doc. Qed.

(** When the inner loop of [_merge_splits] ends, the total is again the
    length of what is kept, and the next piece fits or nothing is kept. *)
Lemma pop_while_spec (_len : Z) (current_doc kept : list str) (total total' : Z) :
  total = len (concat current_doc) ->
  text_splitter.pop_while self 0 _len current_doc total = inr (kept, total') ->
  total' = len (concat kept) /\ (total' + _len <= cs \/ total' <= 0).
Proof.
  revert total. induction current_doc as [|d0 rest IH]; intros total Htotal;
    rewrite pop_while_unfold; fold cs;
    destruct (_ || _) eqn:Hcond.
  - done.
  - intros [= <- <-]. split; [done|].
    subst total. change (len (concat [])) with 0. by right.
  - apply IH. subst total. cbn [concat]. rewrite len_app.
    destruct (1 <? len (d0 :: rest)); lia.
  - intros [= <- <-]. split; [done|].
    apply orb_false_elim in Hcond as [_ Hcond].
    apply andb_false_elim in Hcond as [Hcond|Hcond].
    + left. destruct (0 <? len (d0 :: rest)); lia.
    + right. lia.
Qed.

Lemma join_docs_fits (current_doc : list str) (doc : str) :
  text_splitter._join_docs current_doc [] = Some doc ->
  len doc <= len (concat current_doc).
Proof.
  unfold text_splitter._join_docs. rewrite join_empty_separator.
  destruct (py.truthy _); [|done]. intros [= <-].
  pose proof (strip_length (concat current_doc)). unfold py.len. lia.
Qed.

Lemma merge_step_invariant (st st' : list str * list str * Z) (d : str) :
  derived.fits cs d -> derived.merge_invariant cs st ->
  text_splitter.merge_step self [] st d = inr st' -> derived.merge_invariant cs st'.
Proof.
  destruct st as [[docs current_doc] total]. intros Hd (Hdocs & Htotal & Hle).
  unfold text_splitter.merge_step. change (len (@nil ascii)) with 0.
  unfold derived.fits in Hd. fold cs.
  destruct (_ && _) eqn:Hcond.
  - destruct (text_splitter.pop_while self 0 (len d) current_doc total)
      as [e|[kept total1]] eqn:Hpop; [done|].
    cbn [mbind result_bind mret result_ret]. intros [= <-].
    destruct (pop_while_spec _ _ _ _ _ Htotal Hpop) as [Hk Hnext].
    pose proof (len_nonneg (concat kept)).
    split; [|split].
    + destruct (text_splitter._join_docs current_doc []) as [doc|] eqn:Hj; [|done].
      apply Forall_app. split; [done|]. constructor; [|done].
      apply join_docs_fits in Hj. unfold derived.fits. lia.
    + rewrite len_concat_snoc.
      destruct (1 <? len (kept ++ [d])); lia.
    + destruct (1 <? len (kept ++ [d])); lia.
  - cbn [mbind result_bind mret result_ret]. intros [= <-].
    split; [done|].
    assert (Hsum : total + len d <= cs).
    { apply andb_false_elim in Hcond as [Hcond|Hcond].
      - destruct (0 <? len current_doc); lia.
      - apply Z.ltb_ge in Hcond.
        destruct current_doc;
          [|unfold py.len in Hcond; rewrite length_cons in Hcond; lia].
        subst total. change (len (concat [])) with 0. lia. }
    split.
    + rewrite len_concat_snoc.
      destruct (1 <? len (current_doc ++ [d])); lia.
    + destruct (1 <? len (current_doc ++ [d])); lia.
Qed.

(** Merging pieces that fit gives chunks that fit. *)
Lemma merge_splits_fit (splits docs : list str) :
  0 <= cs -> Forall (derived.fits cs) splits ->
  text_splitter._merge_splits self splits [] = inr docs ->
  Forall (derived.fits cs) docs.
Proof.
  intros Hcs Hsplits. unfold text_splitter._merge_splits.
  destruct (for_each _ splits _) as [e|[[docs0 current_doc] total]] eqn:Hloop; [done|].
  cbn [mbind result_bind].
  apply (for_each_invariant (derived.merge_invariant cs)) in Hloop as (Hdocs & Htotal & Hle).
  - destruct (text_splitter._join_docs current_doc []) as [doc|] eqn:Hj;
      intros [= <-]; [|done].
    apply Forall_app. split; [done|]. constructor; [|done].
    apply join_docs_fits in Hj. unfold derived.fits. lia.
  - intros s d s' Hd. apply merge_step_invariant.
    rewrite Forall_forall in Hsplits. by apply Hsplits.
  - split; [done|]. change (len (concat [])) with 0. lia.
Qed.

(** Short pieces flushed into chunks that respect the size give chunks
    that respect the size. *)
Lemma flush_within (final_chunks good final_chunks' : list str) :
  Forall (derived.within cs) final_chunks -> Forall (fun s => len s < cs) good ->
  text_splitter.flush self final_chunks good = inr final_chunks' ->
  Forall (derived.within cs) final_chunks'.
Proof.
  intros Hfinal Hgood. unfold text_splitter.flush.
  destruct good as [|g good]; [by intros [= <-]|]. cbn [py.truthy].
  destruct (text_splitter._merge_splits self (g :: good) []) as [e|merged] eqn:Hm; [done|].
  cbn [mbind result_bind mret result_ret]. intros [= <-].
  apply Forall_app. split; [done|].
  assert (Hcs : 0 <= cs).
  { apply Forall_cons in Hgood as [Hg _]. simpl in Hg.
    pose proof (len_nonneg g). lia. }
  eapply Forall_impl; [eapply merge_splits_fit; [exact Hcs| |exact Hm]|].
  - eapply Forall_impl; [exact Hgood|]. intros s Hs. simpl in Hs.
    unfold derived.fits. lia.
  - intros s Hs. by left.
Qed.

(** The chunks of [split_with] respect the size, when the recursive call
    gives chunks that do and, where there is none, the pieces are single
    characters. *)
Lemma split_with_within separator recur (text : str) (chunks : list str) :
  match recur with
  | None => separator = []
  | Some f => forall s r, f s = inr r -> Forall (derived.within cs) r
  end ->
  text_splitter.split_with self separator recur text = inr chunks ->
  Forall (derived.within cs) chunks.
Proof.
  intros Hrecur. unfold text_splitter.split_with.
  destruct (for_each _ _ _) as [e|[final_chunks good]] eqn:Hloop; [done|].
  cbn [mbind result_bind].
  apply (for_each_invariant
           (fun st => Forall (derived.within cs) st.1
                      /\ Forall (fun s => len s < cs) st.2))
    in Hloop as [Hf Hg].
  - by apply flush_within.
  - intros [final good0] s [final' good'] Hs [Hf Hg]. simpl in Hf, Hg.
    fold cs. destruct (Z.ltb_spec (len s) cs) as [Hlt|Hge].
    + intros [= <- <-]. simpl. split; [done|].
      apply Forall_app. split; [done|]. by constructor.
    + destruct (text_splitter.flush self final good0) as [e|final1] eqn:Hfl; [done|].
      cbn [mbind result_bind].
      apply flush_within in Hfl; [|done|done].
      destruct recur as [f|].
      * destruct (f s) as [e|other] eqn:Hfs; [done|].
        cbn [mbind result_bind mret result_ret]. intros [= <- <-]. simpl.
        split; [|done]. apply Forall_app. split; [done|]. by eapply Hrecur.
      * intros [= <- <-]. simpl. split; [|done].
        apply Forall_app. split; [done|]. constructor; [|done].
        subst separator. rewrite pieces_characters in Hs.
        apply list_elem_of_fmap in Hs as (c & -> & _). by right.
  - simpl. split; constructor.
Qed.

(** Down the list of separators, when the empty separator is in the list. *)
Lemma split_text_within (separators : list str) (text : str) (chunks : list str) :
  [] ∈ separators ->
  text_splitter._split_text self separators text = inr chunks ->
  Forall (derived.within cs) chunks.
Proof.
  revert text chunks.
  induction separators as [|s rest IH]; intros text chunks Hempty;
    [by apply elem_of_nil in Hempty|].
  cbn [text_splitter._split_text].
  destruct s as [|c s]; cbn [py.truthy negb].
  { by apply split_with_within. }
  apply elem_of_cons in Hempty as [|Hempty]; [done|].
  destruct rest as [|s' rest]; [by apply elem_of_nil in Hempty|].
  destruct (py.contains (c :: s) text).
  - apply split_with_within. intros t r. by apply IH.
  - by apply IH.
Qed.

End bounded.

(** ** C5 *)

(** C5, as the code has it. Every chunk of every document, those whose
    cleaned text is longer than [chunk_size] included, has a content of at
    most [chunk_size] characters, the only exception being a single
    character, the unit that cannot be divided, when that exceeds the limit;
    the size recorded with a chunk is the length of its content. Nothing is
    promised about the characters two consecutive chunks share. *)
Theorem chunks_respect_chunk_size (settings : Settings) (document : Document) :
  Forall (fun c => (len (chunk_content c) <= chunk_size settings
                    \/ length (chunk_content c) = 1%nat)
                   /\ chunk_len c = len (chunk_content c))
    (preprocess.chunk_document (preprocess.__init__ settings) document).
Proof.
  unfold preprocess.chunk_document.
  destruct (text_splitter.split_text _ _) as [e|chunks] eqn:Hsplit; [constructor|].
  apply split_text_within in Hsplit.
  - apply Forall_forall. intros c Hc.
    apply list_elem_of_lookup in Hc as [i Hi].
    rewrite list_lookup_imap in Hi.
    destruct (chunks !! i) as [chunk|] eqn:Hchunk; [|done].
    injection Hi as <-. simpl. split; [|done].
    rewrite Forall_forall in Hsplit. apply (Hsplit chunk).
    apply list_elem_of_lookup. eauto.
  - apply list_elem_of_In. simpl. tauto.
Qed.

(** C5 as stated fails on its overlap: under the default settings the
    document of 900 letters a, a space and 900 letters b is longer than
    [chunk_size]; its chunks are the run of a and the run of b, and these
    two share no boundary of [chunk_overlap] characters. *)
Lemma consecutive_chunks_without_overlap :
  let chunks := preprocess.chunk_document (preprocess.__init__ default_settings)
                  stub.doc_ab in
  chunk_size default_settings < len (preprocess.clean_text (content stub.doc_ab))
  /\ map chunk_content chunks = [ replicate 900 "a"%char; replicate 900 "b"%char ]
  /\ spec.consecutive_share (Z.to_nat (chunk_overlap default_settings))
       (map chunk_content chunks) = false.
Proof. vm_compute. repeat split; reflexivity. Qed.

(** * More on the conversation memory *)

(** X1. [add_conversation_turn] appends one turn, holding the two messages,
    to the log of its conversation, created when missing; the logs of the
    other conversations, the collection and the record of backend calls
    stay as they are. *)
Theorem turn_appended_others_kept {R : Runtime} (cid u a : str) (w : World) :
  let w' := (memory.add_conversation_turn cid u a w).2 in
  (memory.add_conversation_turn cid u a w).1 = inr ()
  /\ (exists t,
        user t = u /\ assistant t = a
        /\ memory.get_conversation_history (conversations w') cid None
           = memory.get_conversation_history (conversations w) cid None ++ [t])
  /\ (forall other, other <> cid -> conversations w' !! other = conversations w !! other)
  /\ collection w' = collection w
  /\ calls w' = calls w.
Proof.
  unfold memory.add_conversation_turn.
  destruct (now_isoformat (out w)) as [stamp o]. cbn [fst snd conversations collection calls].
  split; [done|]. split; [|split; [|done]].
  - exists {| timestamp := stamp; user := u; assistant := a |}.
    split; [done|]. split; [done|].
    unfold memory.get_conversation_history. rewrite lookup_insert_eq.
    destruct (conversations w !! cid) as [log|] eqn:Hlog.
    + by rewrite Hlog.
    + by rewrite lookup_insert_eq.
  - intros other Hother. rewrite lookup_insert_ne by done.
    destruct (conversations w !! cid); [done|]. by rewrite lookup_insert_ne.
Qed.

(** X2. Whatever [max_turns] is, the history returned is a contiguous
    suffix of the full log of the conversation, in the order of the log:
    turns are never reordered, repeated or invented. *)
Theorem history_suffix_of_log (conversations : gmap str (list Turn)) (cid : str)
    (max_turns : option Z) :
  memory.get_conversation_history conversations cid max_turns
    `suffix_of` memory.get_conversation_history conversations cid None
  /\ (length (memory.get_conversation_history conversations cid max_turns)
      <= length (memory.get_conversation_history conversations cid None))%nat.
Proof.
  assert (Hsuf : memory.get_conversation_history conversations cid max_turns
                   `suffix_of` memory.get_conversation_history conversations cid None).
  { unfold memory.get_conversation_history.
    destruct (conversations !! cid) as [log|]; [|done].
    destruct max_turns as [n|]; [|done].
    destruct (n =? 0); simpl; [done|]. unfold py.slice_from. apply suffix_drop. }
  split; [done|]. by apply suffix_length.
Qed.

(** X3. For a positive [max_turns] the history is the last [max_turns]
    turns of the log, or the whole log when it holds fewer. *)
Theorem history_last_turns (conversations : gmap str (list Turn)) (cid : str) (n : Z) :
  0 < n ->
  let log := memory.get_conversation_history conversations cid None in
  memory.get_conversation_history conversations cid (Some n)
    = drop (length log - Z.to_nat n) log
  /\ length (memory.get_conversation_history conversations cid (Some n))
     = Nat.min (Z.to_nat n) (length log).
Proof.
  intros Hn log. subst log. unfold memory.get_conversation_history.
  destruct (conversations !! cid) as [log|];
    [|split; [by rewrite drop_nil|simpl; lia]].
  destruct (Z.eqb_spec n 0) as [|_]; [lia|]. cbn [negb].
  assert (Hslice : py.slice_from (- n) log = drop (length log - Z.to_nat n) log).
  { replace n with (Z.of_nat (Z.to_nat n)) at 1 by lia.
    apply slice_from_neg_drop. lia. }
  rewrite Hslice. split; [done|]. rewrite length_drop. lia.
Qed.

Lemma history_last_turns_witness :
  memory.get_conversation_history {[ $"c1" := [stub.turn 1; stub.turn 2; stub.turn 3] ]}
    $"c1" (Some 2)
  = [stub.turn 2; stub.turn 3].
Proof.
  pose proof (history_last_turns {[ $"c1" := [stub.turn 1; stub.turn 2; stub.turn 3] ]}
                $"c1" 2 ltac:(lia)) as [H _].
  rewrite H. vm_compute. reflexivity.
Defined.

(** X4. A negative [max_turns] is truthy: the slice [history[-max_turns:]]
    then starts at the index [-max_turns], so the history is the log
    without its first [-max_turns] turns. *)
Theorem history_negative_max_turns (conversations : gmap str (list Turn)) (cid : str)
    (n : Z) :
  n < 0 ->
  memory.get_conversation_history conversations cid (Some n)
    = drop (Z.to_nat (- n))
        (memory.get_conversation_history conversations cid None).
Proof.
  intros Hn. unfold memory.get_conversation_history.
  destruct (conversations !! cid) as [log|]; [|by rewrite drop_nil].
  destruct (Z.eqb_spec n 0) as [|_]; [lia|]. cbn [negb].
  unfold py.slice_from, py.len.
  destruct (Z.ltb_spec (- n) 0) as [|_]; [lia|].
  destruct (Z.le_ge_cases (- n) (Z.of_nat (length log))) as [Hle|Hge].
  - by rewrite Z.min_l.
  - rewrite Z.min_r by done. rewrite Nat2Z.id.
    rewrite !drop_ge; [done|lia|lia].
Qed.

Lemma history_negative_max_turns_witness :
  memory.get_conversation_history {[ $"c1" := [stub.turn 1; stub.turn 2; stub.turn 3] ]}
    $"c1" (Some (-1))
  = [stub.turn 2; stub.turn 3].
Proof.
  rewrite (history_negative_max_turns
             {[ $"c1" := [stub.turn 1; stub.turn 2; stub.turn 3] ]} $"c1" (-1))
    by lia.
  vm_compute. reflexivity.
Defined.

(** X5. [delete_conversation] answers whether the conversation was there.
    Afterwards the conversation has no history, the other conversations
    are as before, and deleting it again answers false. *)
Theorem delete_conversation_effect {R : Runtime} (cid : str) (w : World) :
  let w' := (memory.delete_conversation cid w).2 in
  (memory.delete_conversation cid w).1
    = inr (bool_decide (is_Some (conversations w !! cid)))
  /\ (forall max_turns,
        memory.get_conversation_history (conversations w') cid max_turns = [])
  /\ (forall other, other <> cid -> conversations w' !! other = conversations w !! other)
  /\ (memory.delete_conversation cid w').1 = inr false
  /\ collection w' = collection w.
Proof.
  unfold memory.delete_conversation.
  destruct (conversations w !! cid) as [log|] eqn:Hlog;
    cbn [fst snd conversations collection].
  - split; [by rewrite bool_decide_eq_true_2|].
    split; [|split; [|split; [|done]]].
    + intros mt. unfold memory.get_conversation_history. by rewrite lookup_delete_eq.
    + intros other Hother. by rewrite lookup_delete_ne.
    + by rewrite lookup_delete_eq.
  - split; [rewrite bool_decide_eq_false_2; [done|by intros [? ?]]|].
    split; [|split; [done|split; [|done]]].
    + intros mt. unfold memory.get_conversation_history. by rewrite Hlog.
    + by rewrite Hlog.
Qed.

(** * Listing and creating conversations *)

Lemma last_default {A} (l : list A) (d : A) :
  l <> [] -> last l = Some (List.last l d).
Proof.
  induction l as [|x [|y l] IH]; intros Hne; [done|done|].
  change (last (x :: y :: l)) with (last (y :: l)).
  change (List.last (x :: y :: l) d) with (List.last (y :: l) d).
  by apply IH.
Qed.

(** What a summary holds. *)
Lemma summary_fields (cid : str) (history : list Turn) (s : memory.Summary) :
  memory.summary cid history = Some s ->
  history <> []
  /\ memory.summary_id s = cid
  /\ memory.message_count s = len history
  /\ Some (memory.created_at s) = timestamp <$> head history
  /\ Some (memory.last_updated s) = timestamp <$> last history
  /\ (forall first_turn, head history = Some first_turn ->
        (len (user first_turn) <= 100 -> memory.preview s = user first_turn)
        /\ (100 < len (user first_turn) ->
            memory.preview s = take 100 (user first_turn) ++ $"..."))
  /\ len (memory.preview s) <= 103.
Proof.
  destruct history as [|t history]; [done|]. intros [= <-].
  cbn [memory.summary_id memory.message_count memory.created_at memory.last_updated
       memory.preview head].
  rewrite (last_default (t :: history) t) by done.
  assert (Hlen : len (if len (user t) >? 100
                      then py.slice_to 100 (user t) ++ $"..." else user t) <= 103).
  { unfold py.slice_to, py.len.
    destruct (Z.gtb_spec (Z.of_nat (length (user t))) 100); [|lia].
    rewrite length_app, length_take. change (length $"...") with 3%nat. lia. }
  repeat split; try done.
  - intros Hle. injection H as <-.
    destruct (Z.gtb_spec (len (user t)) 100); [lia|done].
  - intros Hgt. injection H as <-.
    destruct (Z.gtb_spec (len (user t)) 100); [done|lia].
Qed.

Lemma omap_fst_NoDup {A B C} `{EqDecision A} (f : A * B -> option C) (g : C -> A)
    (l : list (A * B)) :
  NoDup (l.*1) -> (forall e c, f e = Some c -> g c = e.1) -> NoDup (g <$> omap f l).
Proof.
  intros Hnd Hg. induction l as [|e l IH]; simpl; [constructor|].
  apply NoDup_cons in Hnd as [Hnotin Hnd].
  destruct (f e) as [c|] eqn:Hfe; simpl; [|by apply IH].
  constructor; [|by apply IH].
  intros Hin. apply Hnotin.
  apply list_elem_of_fmap in Hin as (c' & Hc' & Hin).
  apply list_elem_of_omap in Hin as (e' & He' & Hfe').
  apply list_elem_of_fmap. exists e'. split; [|done].
  rewrite <- (Hg _ _ Hfe), Hc'. by apply Hg.
Qed.

(** A summary is listed exactly for a conversation with a turn. *)
Lemma listed_summary (conversations : gmap str (list Turn)) (s : memory.Summary) :
  s ∈ memory.list_conversations conversations <->
  exists cid history,
    conversations !! cid = Some history /\ history <> []
    /\ memory.summary cid history = Some s.
Proof.
  unfold memory.list_conversations. rewrite list_elem_of_omap. split.
  - intros ([cid history] & Hin & Hs). apply elem_of_map_to_list in Hin.
    exists cid, history. split; [done|]. split; [|done].
    by apply summary_fields in Hs as [? _].
  - intros (cid & history & Hlook & _ & Hs). exists (cid, history).
    split; [by apply elem_of_map_to_list|done].
Qed.

(** X6. [list_conversations] gives one summary for each conversation whose
    log is not empty and none for the others; no conversation is listed
    twice. A summary counts the turns of its conversation, carries the
    timestamps of its first and last turn, and previews the first user
    message: the message itself up to 100 characters, and else its first
    100 characters followed by three dots. *)
Theorem listed_conversations (conversations : gmap str (list Turn)) :
  (forall s, s ∈ memory.list_conversations conversations <->
             exists cid history,
               conversations !! cid = Some history /\ history <> []
               /\ memory.summary cid history = Some s)
  /\ NoDup (memory.summary_id <$> memory.list_conversations conversations)
  /\ (forall s, s ∈ memory.list_conversations conversations ->
        exists history,
          conversations !! memory.summary_id s = Some history
          /\ memory.message_count s = len history
          /\ 1 <= memory.message_count s
          /\ Some (memory.created_at s) = timestamp <$> head history
          /\ Some (memory.last_updated s) = timestamp <$> last history
          /\ (forall first_turn, head history = Some first_turn ->
                (len (user first_turn) <= 100 -> memory.preview s = user first_turn)
                /\ (100 < len (user first_turn) ->
                    memory.preview s = take 100 (user first_turn) ++ $"..."))
          /\ len (memory.preview s) <= 103).
Proof.
  assert (Hiff : forall s, s ∈ memory.list_conversations conversations <->
             exists cid history,
               conversations !! cid = Some history /\ history <> []
               /\ memory.summary cid history = Some s).
  { intros s. apply listed_summary. }
  split; [exact Hiff|]. split.
  - unfold memory.list_conversations. apply omap_fst_NoDup.
    + apply NoDup_fst_map_to_list.
    + intros [cid history] s Hs. simpl in *. by apply summary_fields in Hs as (_ & ? & _).
  - intros s (cid & history & Hlook & Hne & Hs)%Hiff.
    apply summary_fields in Hs as (_ & Hid & Hcount & Hc & Hl & Hp & Hlen).
    exists history. rewrite Hid.
    assert (1 <= memory.message_count s).
    { rewrite Hcount. destruct history; [done|].
      unfold py.len. rewrite length_cons. lia. }
    done.
Qed.

(** X7. [create_conversation] returns the identifier it was given by the
    generator and stores an empty log under it: the conversation can be
    retrieved at once, has no history, and is not listed until a turn is
    added; the other conversations are as before. *)
Theorem created_conversation_is_empty {R : Runtime} (cid : str) (w : World) :
  let w' := (memory.create_conversation cid w).2 in
  (memory.create_conversation cid w).1 = inr cid
  /\ conversations w' !! cid = Some []
  /\ (forall max_turns,
        memory.get_conversation_history (conversations w') cid max_turns = [])
  /\ (forall s, s ∈ memory.list_conversations (conversations w') ->
                memory.summary_id s <> cid)
  /\ (forall other, other <> cid -> conversations w' !! other = conversations w !! other)
  /\ (forall u a,
        exists t,
          user t = u /\ assistant t = a
          /\ conversations (memory.add_conversation_turn cid u a w').2 !! cid = Some [t]).
Proof.
  unfold memory.create_conversation. cbn [fst snd conversations].
  split; [done|]. split; [by rewrite lookup_insert_eq|].
  split; [|split; [|split]].
  - intros mt. unfold memory.get_conversation_history. rewrite lookup_insert_eq.
    destruct mt as [n|]; [|done].
    destruct (negb (n =? 0)); [|done]. unfold py.slice_from. apply drop_nil.
  - intros s Hs Hid.
    apply listed_summary in Hs as (cid' & history & Hlook & Hne & Hs).
    apply summary_fields in Hs as (_ & Hid' & _).
    rewrite <- Hid', Hid, lookup_insert_eq in Hlook. congruence.
  - intros other Hother. by rewrite lookup_insert_ne.
  - intros u a.
    destruct (add_conversation_turn_log cid u a
                {| conversations := <[cid:=[]]> (conversations w);
                   collection := collection w; out := out w; calls := calls w |})
      as (t & w2 & Hadd & Hu & Ha & Hlook).
    exists t. rewrite Hadd. cbn [snd]. rewrite Hlook.
    cbn [conversations]. by rewrite lookup_insert_eq.
Qed.

(** * What a question does to the state *)

Section generator_frame.
Context {R : Runtime}.
Implicit Types (w : World) (self : llm.LLMWrapper).

(** An attempt touches the outside world and the record of calls only. *)
Lemma attempt_frame request w :
  conversations (derived.attempt request w).2 = conversations w
  /\ collection (derived.attempt request w).2 = collection w.
Proof.
  unfold derived.attempt. rewrite bind_eq. unfold llm.create.
  destruct (chat_create request (out w)) as [[e|response] o]; [done|].
  unfold lift. by destruct (llm.answer_of response).
Qed.

(** The answer of a successful attempt is a stripped string. *)
Lemma attempt_stripped request w a w1 :
  derived.attempt request w = (inr a, w1) -> py.strip a = a.
Proof.
  unfold derived.attempt. rewrite bind_eq. unfold llm.create.
  destruct (chat_create request (out w)) as [[e|response] o]; [done|].
  unfold lift, llm.answer_of.
  destruct (choices response) as [|[text|] rest]; [done| |done].
  intros [= <- _]. apply strip_idempotent.
Qed.

(** The outcome of [generate_response] from its primary attempt on: it
    leaves memory and collection alone, a failure is an [LLMError], and an
    answer is stripped. *)
Lemma generate_response_outcome self query docs history w :
  let r := llm.generate_response self query docs history false w in
  conversations r.2 = conversations w
  /\ collection r.2 = collection w
  /\ match r.1 with
     | inl e => exists cause, e = llm.failed_to_generate cause
     | inr a => py.strip a = a
     end.
Proof.
  pose proof (attempt_frame (derived.rag_request self query docs history false) w)
    as [Hc1 Hk1].
  destruct (derived.attempt (derived.rag_request self query docs history false) w)
    as [[e|a] w1] eqn:Hfirst; simpl in Hc1, Hk1.
  - rewrite (generate_response_retry _ _ _ _ _ _ _ Hfirst). cbn [fst snd].
    pose proof (attempt_frame (derived.rag_request self query docs history true) w1)
      as [Hc2 Hk2].
    destruct (derived.attempt (derived.rag_request self query docs history true) w1)
      as [[e2|a] w2] eqn:Hsecond; simpl in *.
    + split; [congruence|]. split; [congruence|by eexists].
    + split; [congruence|]. split; [congruence|]. by eapply attempt_stripped.
  - rewrite (generate_response_primary_ok _ _ _ _ _ _ _ Hfirst). cbn [fst snd].
    split; [done|]. split; [done|]. by eapply attempt_stripped.
Qed.

Lemma generate_general_outcome self query history w :
  let r := llm.generate_general_response self query history w in
  conversations r.2 = conversations w
  /\ collection r.2 = collection w
  /\ match r.1 with
     | inl e => exists cause, e = llm.failed_to_generate cause
     | inr a => py.strip a = a
     end.
Proof.
  pose proof (attempt_frame (derived.general_request self query history false) w)
    as [Hc1 Hk1].
  destruct (derived.attempt (derived.general_request self query history false) w)
    as [[e|a] w1] eqn:Hfirst; simpl in Hc1, Hk1.
  - destruct (decide (llm.fallback_model self = [])) as [Hnone|Hsome].
    + rewrite (generate_general_no_fallback _ _ _ _ _ _ Hnone Hfirst). cbn [fst snd].
      split; [done|]. split; [done|by eexists].
    + rewrite (generate_general_retry _ _ _ _ _ _ Hsome Hfirst). cbn [fst snd].
      pose proof (attempt_frame (derived.general_request self query history true) w1)
        as [Hc2 Hk2].
      destruct (derived.attempt (derived.general_request self query history true) w1)
        as [[e2|a] w2] eqn:Hsecond; simpl in *.
      * split; [congruence|]. split; [congruence|by eexists].
      * split; [congruence|]. split; [congruence|]. by eapply attempt_stripped.
  - rewrite (generate_general_primary_ok _ _ _ _ _ _ Hfirst). cbn [fst snd].
    split; [done|]. split; [done|]. by eapply attempt_stripped.
Qed.

Lemma generator_outcome self query docs history w :
  let r := derived.generator self query docs history w in
  conversations r.2 = conversations w
  /\ collection r.2 = collection w
  /\ match r.1 with
     | inl e => exists cause, e = llm.failed_to_generate cause
     | inr a => py.strip a = a
     end.
Proof.
  unfold derived.generator. destruct (py.truthy docs);
    [apply generate_response_outcome|apply generate_general_outcome].
Qed.

(** What [add_conversation_turn] does to the state. *)
Lemma turn_appended_frame cid u a w :
  exists t,
    user t = u /\ assistant t = a
    /\ conversations (memory.add_conversation_turn cid u a w).2 !! cid
       = Some (default [] (conversations w !! cid) ++ [t])
    /\ (forall other, other <> cid ->
          conversations (memory.add_conversation_turn cid u a w).2 !! other
          = conversations w !! other)
    /\ collection (memory.add_conversation_turn cid u a w).2 = collection w.
Proof.
  unfold memory.add_conversation_turn.
  destruct (now_isoformat (out w)) as [stamp o]. cbn [snd conversations collection].
  exists {| timestamp := stamp; user := u; assistant := a |}.
  split; [done|]. split; [done|]. split; [|split; [|done]].
  - rewrite lookup_insert_eq. destruct (conversations w !! cid) as [log|] eqn:Hlog.
    + by rewrite Hlog.
    + by rewrite lookup_insert_eq.
  - intros other Hother. rewrite lookup_insert_ne by done.
    destruct (conversations w !! cid); [done|]. by rewrite lookup_insert_ne.
Qed.

End generator_frame.

(** What an answered question returns and leaves behind. *)
Lemma answered_question_effect_aux {R : Runtime} (self : rag_pipeline.RAGPipeline)
    (question : str) (cid : option str) (top_k : Z) (w w' : World)
    (response : rag_pipeline.Answer) :
  rag_pipeline.ask_question self question cid top_k w = (inr response, w') ->
  collection w' = collection w
  /\ rag_pipeline.conversation_id response = cid
  /\ py.strip (rag_pipeline.answer response) = rag_pipeline.answer response
  /\ match rag_pipeline.given cid with
     | Some c =>
         (exists t,
            user t = question /\ assistant t = rag_pipeline.answer response
            /\ conversations w' !! c
               = Some (default [] (conversations w !! c) ++ [t]))
         /\ forall other, other <> c -> conversations w' !! other = conversations w !! other
     | None => conversations w' = conversations w
     end.
Proof.
  rewrite ask_question_unfold. cbv zeta.
  pose proof (generator_outcome (rag_pipeline.llm self) question
                (derived.retrieved question top_k w) (derived.history_for cid w) w) as Hgen.
  cbv zeta in Hgen. unfold derived.generator in Hgen.
  match goal with |- context [match ?g with _ => _ end] =>
    match g with
    | _ w => destruct g as [[e|a] w1]; [done|]
    end
  end.
  cbn [fst snd] in Hgen. destruct Hgen as (Hconv & Hcoll & Hstrip).
  intros [= <- <-]. cbn [rag_pipeline.conversation_id rag_pipeline.answer].
  destruct (rag_pipeline.given cid) as [c|]; [|done].
  pose proof (turn_appended_frame c question a w1) as (t & Hu & Ha & Hlook & Hothers & Hk).
  split; [congruence|]. split; [done|]. split; [done|]. split.
  - exists t. by rewrite Hlook, Hconv.
  - intros other Hother. by rewrite Hothers, Hconv.
Qed.

(** X8. A question that is answered leaves the collection alone and
    returns a stripped answer. With a conversation id it appends exactly
    one turn, the question with the answer, to that conversation and
    touches no other; without one, or with the empty string, the memory
    stays as it is. *)
Theorem answered_question_effect {R : Runtime} (self : rag_pipeline.RAGPipeline)
    (question : str) (cid : option str) (top_k : Z) (w w' : World)
    (response : rag_pipeline.Answer) :
  rag_pipeline.ask_question self question cid top_k w = (inr response, w') ->
  collection w' = collection w
  /\ rag_pipeline.conversation_id response = cid
  /\ py.strip (rag_pipeline.answer response) = rag_pipeline.answer response
  /\ match rag_pipeline.given cid with
     | Some c =>
         (exists t,
            user t = question /\ assistant t = rag_pipeline.answer response
            /\ conversations w' !! c
               = Some (default [] (conversations w !! c) ++ [t]))
         /\ forall other, other <> c -> conversations w' !! other = conversations w !! other
     | None => conversations w' = conversations w
     end.
Proof. apply answered_question_effect_aux. Qed.

Lemma answered_question_effect_witness :
  let w := stub.fresh stub.rt_no_knowledge 0%nat in
  let r := rag_pipeline.ask_question (R := stub.rt_no_knowledge)
             (rag_pipeline.__init__ default_settings) $"hello" (Some $"c1") 5 w in
  exists response,
    r.1 = inr response
    /\ collection r.2 = collection w
    /\ rag_pipeline.conversation_id response = Some $"c1"
    /\ py.strip (rag_pipeline.answer response) = rag_pipeline.answer response
    /\ match rag_pipeline.given (Some $"c1") with
       | Some c =>
           (exists t,
              user t = $"hello" /\ assistant t = rag_pipeline.answer response
              /\ conversations r.2 !! c
                 = Some (default [] (conversations w !! c) ++ [t]))
           /\ forall other, other <> c -> conversations r.2 !! other = conversations w !! other
       | None => conversations r.2 = conversations w
       end.
Proof.
  intros w r.
  assert (Hfirst : r.1 = inr {| rag_pipeline.answer := $"OK"; rag_pipeline.sources := [];
                                rag_pipeline.conversation_id := Some $"c1" |})
    by (vm_compute; reflexivity).
  eexists. split; [exact Hfirst|].
  apply (@answered_question_effect stub.rt_no_knowledge
           (rag_pipeline.__init__ default_settings) $"hello" (Some $"c1") 5 w r.2).
  rewrite <- Hfirst. apply surjective_pairing.
Defined.

(** X9. A question that cannot be answered raises a [ChatbotError] whose
    message wraps the generator's, and records nothing: the conversation
    memory and the collection are as before the call. *)
Theorem failed_question_effect {R : Runtime} (self : rag_pipeline.RAGPipeline)
    (question : str) (cid : option str) (top_k : Z) (w w' : World) (e : exn) :
  rag_pipeline.ask_question self question cid top_k w = (inl e, w') ->
  conversations w' = conversations w
  /\ collection w' = collection w
  /\ exists cause,
       e = Exn ChatbotError
             ($"Question answering failed: " ++ $"Failed to generate response: "
                ++ str_of_exn cause).
Proof.
  rewrite ask_question_unfold. cbv zeta.
  pose proof (generator_outcome (rag_pipeline.llm self) question
                (derived.retrieved question top_k w) (derived.history_for cid w) w) as Hgen.
  cbv zeta in Hgen. unfold derived.generator in Hgen.
  match goal with |- context [match ?g with _ => _ end] =>
    match g with
    | _ w => destruct g as [[e1|a] w1]; [|done]
    end
  end.
  cbn [fst snd] in Hgen. destruct Hgen as (Hconv & Hcoll & cause & ->).
  intros [= <- <-]. split; [done|]. split; [done|]. by exists cause.
Qed.

Lemma failed_question_effect_witness :
  let w := stub.fresh stub.rt_primary_down 0%nat in
  let r := rag_pipeline.ask_question (R := stub.rt_primary_down)
             (rag_pipeline.__init__ stub.no_fallback_settings) $"hello" (Some $"c1") 5 w in
  exists e,
    r.1 = inl e
    /\ conversations r.2 = conversations w
    /\ collection r.2 = collection w
    /\ exists cause,
         e = Exn ChatbotError
               ($"Question answering failed: " ++ $"Failed to generate response: "
                  ++ str_of_exn cause).
Proof.
  intros w r.
  assert (Hfirst : r.1 = inl (Exn ChatbotError
                    ($"Question answering failed: "
                       ++ str_of_exn (llm.failed_to_generate stub.unavailable))))
    by (vm_compute; reflexivity).
  eexists. split; [exact Hfirst|].
  apply (@failed_question_effect stub.rt_primary_down
           (rag_pipeline.__init__ stub.no_fallback_settings) $"hello" (Some $"c1") 5 w r.2).
  rewrite <- Hfirst. apply surjective_pairing.
Defined.

(** ** The next question of a conversation *)

Lemma last_turns_snoc (n : nat) (history : list Turn) (t : Turn) :
  spec.last_turns (S n) (history ++ [t]) = spec.last_turns n history ++ [t].
Proof.
  unfold spec.last_turns. rewrite rev_app_distr. reflexivity.
Qed.

Lemma general_messages_spec (query : str) (history : option (list Turn)) :
  llm.general_messages query history
  = {| role := system; msg_content := llm.general_system_prompt |}
      :: flat_map spec.expand_turn (spec.last_turns 5 (default [] history))
      ++ [ {| role := user_role; msg_content := query |} ].
Proof.
  unfold llm.general_messages. rewrite history_window. reflexivity.
Qed.

(** X10. Once a question of a conversation has been answered, the prompt
    of the next question of that conversation, with or without retrieved
    passages, on the primary or the fallback model, ends with the user
    message of that question, the assistant message of its answer, and the
    message of the new question. *)
Theorem next_prompt_carries_last_turn {R : Runtime} (self : rag_pipeline.RAGPipeline)
    (question : str) (cid : option str) (c : str) (top_k : Z) (w w' : World)
    (response : rag_pipeline.Answer) :
  rag_pipeline.ask_question self question cid top_k w = (inr response, w') ->
  rag_pipeline.given cid = Some c ->
  forall (next : str) (docs : list embeddings.Passage) (use_fallback : bool),
    let history := derived.history_for cid w' in
    let asked := {| role := user_role; msg_content := question |} in
    let answered := {| role := assistant_role;
                       msg_content := rag_pipeline.answer response |} in
    (exists earlier final,
        req_messages (derived.rag_request (rag_pipeline.llm self) next docs history
                        use_fallback)
        = earlier ++ [asked; answered; final]
        /\ role final = user_role)
    /\ exists earlier,
        req_messages (derived.general_request (rag_pipeline.llm self) next history
                        use_fallback)
        = earlier ++ [asked; answered; {| role := user_role; msg_content := next |}].
Proof.
  intros Hask Hgiven next docs use_fallback.
  pose proof (answered_question_effect_aux self question cid top_k w w' response Hask)
    as (_ & _ & _ & Hmem).
  rewrite Hgiven in Hmem. destruct Hmem as [(t & Hu & Ha & Hlook) _].
  assert (Hhist : derived.history_for cid w'
                  = Some (default [] (conversations w !! c) ++ [t])).
  { unfold derived.history_for, memory.get_conversation_history.
    by rewrite Hgiven, Hlook. }
  cbv zeta. rewrite Hhist. set (old := default [] (conversations w !! c)).
  assert (Hexp : flat_map spec.expand_turn (spec.last_turns 5 (old ++ [t]))
                 = flat_map spec.expand_turn (spec.last_turns 4 old)
                   ++ [ {| role := user_role; msg_content := question |};
                        {| role := assistant_role;
                           msg_content := rag_pipeline.answer response |} ]).
  { rewrite last_turns_snoc, flat_map_app. cbn [flat_map spec.expand_turn app].
    by rewrite Hu, Ha. }
  split.
  - eexists _, _. split.
    + cbn [derived.rag_request req_messages]. rewrite build_messages_spec.
      unfold spec.rag_prompt.
      change (default [] (Some (old ++ [t]))) with (old ++ [t]). rewrite Hexp.
      rewrite <- app_assoc. apply (app_comm_cons _ _ _).
    + reflexivity.
  - eexists. cbn [derived.general_request req_messages].
    rewrite general_messages_spec.
    change (default [] (Some (old ++ [t]))) with (old ++ [t]). rewrite Hexp.
    rewrite <- app_assoc. apply (app_comm_cons _ _ _).
Qed.

Lemma next_prompt_carries_last_turn_witness :
  let w := stub.fresh stub.rt_no_knowledge 0%nat in
  let self := rag_pipeline.__init__ default_settings in
  let r := rag_pipeline.ask_question (R := stub.rt_no_knowledge) self
             $"hello" (Some $"c1") 5 w in
  exists earlier,
    req_messages (derived.general_request (rag_pipeline.llm self) $"and then?"
                    (derived.history_for (Some $"c1") r.2) false)
    = earlier ++ [ {| role := user_role; msg_content := $"hello" |};
                   {| role := assistant_role; msg_content := $"OK" |};
                   {| role := user_role; msg_content := $"and then?" |} ].
Proof.
  intros w self r.
  assert (Hfirst : r.1 = inr {| rag_pipeline.answer := $"OK"; rag_pipeline.sources := [];
                                rag_pipeline.conversation_id := Some $"c1" |})
    by (vm_compute; reflexivity).
  refine (proj2 (@next_prompt_carries_last_turn stub.rt_no_knowledge self
                   $"hello" (Some $"c1") $"c1" 5 w r.2
                   {| rag_pipeline.answer := $"OK"; rag_pipeline.sources := [];
                      rag_pipeline.conversation_id := Some $"c1" |}
                   _ _ $"and then?" [] false)).
  - rewrite <- Hfirst. apply surjective_pairing.
  - reflexivity.
Defined.

(** * The requests of the generators *)

Lemma last_turns_length (n : nat) (history : list Turn) :
  length (spec.last_turns n history) = (n `min` length history)%nat.
Proof.
  unfold spec.last_turns. by rewrite length_rev, length_take, length_rev.
Qed.

Lemma expand_turns_length (turns : list Turn) :
  length (flat_map spec.expand_turn turns) = (2 * length turns)%nat.
Proof.
  induction turns as [|t turns IH]; [done|].
  cbn [flat_map spec.expand_turn app length]. rewrite IH. lia.
Qed.

Section requests.
Context {R : Runtime}.
Implicit Types (w : World) (self : llm.LLMWrapper).

(** The requests [generate_general_response] sends. *)
Lemma generate_general_calls self query history w :
  let primary := derived.general_request self query history false in
  let fallback := derived.general_request self query history true in
  let r := llm.generate_general_response self query history w in
  calls r.2 = calls w ++ [primary]
  \/ (calls r.2 = calls w ++ [primary; fallback]
      /\ llm.fallback_model self <> []
      /\ exists e w1, derived.attempt primary w = (inl e, w1)).
Proof.
  cbv zeta.
  pose proof (attempt_calls (derived.general_request self query history false) w) as Hc.
  destruct (derived.attempt (derived.general_request self query history false) w)
    as [[e|a] w1] eqn:Hfirst; simpl in Hc.
  - destruct (decide (llm.fallback_model self = [])) as [Hnone|Hsome].
    + left. by rewrite (generate_general_no_fallback _ _ _ _ _ _ Hnone Hfirst).
    + right. rewrite (generate_general_retry _ _ _ _ _ _ Hsome Hfirst). cbn [snd].
      rewrite attempt_calls, Hc, <- app_assoc. eauto.
  - left. by rewrite (generate_general_primary_ok _ _ _ _ _ _ Hfirst).
Qed.

(** The requests [generate_response] sends from its primary attempt on. *)
Lemma generate_response_sent self query docs history w :
  let primary := derived.rag_request self query docs history false in
  let fallback := derived.rag_request self query docs history true in
  let r := llm.generate_response self query docs history false w in
  (calls r.2 = calls w ++ [primary]
   /\ exists a w1, derived.attempt primary w = (inr a, w1))
  \/ (calls r.2 = calls w ++ [primary; fallback]
      /\ exists e w1, derived.attempt primary w = (inl e, w1)).
Proof.
  cbv zeta.
  pose proof (attempt_calls (derived.rag_request self query docs history false) w) as Hc.
  destruct (derived.attempt (derived.rag_request self query docs history false) w)
    as [[e|a] w1] eqn:Hfirst; simpl in Hc.
  - right. rewrite (generate_response_retry _ _ _ _ _ _ _ Hfirst). cbn [snd].
    rewrite attempt_calls, Hc, <- app_assoc. eauto.
  - left. rewrite (generate_response_primary_ok _ _ _ _ _ _ _ Hfirst). eauto.
Qed.

End requests.

(** X11. The prompt of the general generator is its system message, then
    the last five history turns at most, oldest first, each as a user
    message followed by an assistant message, then the question itself as
    the last user message, without any context; the generator sends one or
    two requests, and each of them carries this prompt. *)
Theorem general_prompt_exact {R : Runtime} (self : llm.LLMWrapper) (query : str)
    (history : option (list Turn)) :
  llm.general_messages query history
  = {| role := system; msg_content := llm.general_system_prompt |}
      :: flat_map spec.expand_turn (spec.last_turns 5 (default [] history))
      ++ [ {| role := user_role; msg_content := query |} ]
  /\ forall w,
       exists sent,
         calls (llm.generate_general_response self query history w).2 = calls w ++ sent
         /\ (1 <= length sent <= 2)%nat
         /\ Forall (fun r => req_messages r = llm.general_messages query history) sent.
Proof.
  split; [apply general_messages_spec|].
  intros w. destruct (generate_general_calls self query history w) as [H|(H & _)];
    eexists; (split; [exact H|]); (split; [simpl; lia|]); repeat constructor.
Qed.

(** X12. Both prompts hold two messages more than twice the number of
    history turns they carry, which is the length of the history capped at
    five: never more than twelve messages, whatever the length of the
    conversation. *)
Theorem prompt_length (query context : str) (history : option (list Turn)) :
  let turns := (5 `min` length (default [] history))%nat in
  length (llm._build_messages query context history) = (2 + 2 * turns)%nat
  /\ length (llm.general_messages query history) = (2 + 2 * turns)%nat
  /\ (length (llm._build_messages query context history) <= 12)%nat
  /\ (length (llm.general_messages query history) <= 12)%nat.
Proof.
  cbv zeta.
  assert (H1 : length (llm._build_messages query context history)
               = (2 + 2 * (5 `min` length (default [] history)))%nat).
  { unfold llm._build_messages. rewrite history_window.
    rewrite length_app. cbn [length app].
    rewrite expand_turns_length, last_turns_length. lia. }
  assert (H2 : length (llm.general_messages query history)
               = (2 + 2 * (5 `min` length (default [] history)))%nat).
  { rewrite general_messages_spec. cbn [length]. rewrite length_app. cbn [length].
    rewrite expand_turns_length, last_turns_length. lia. }
  rewrite H1, H2. repeat split; lia.
Qed.

(** X13. From its primary attempt on, a generator sends the primary
    request, and after it at most the fallback request, which goes out
    only when the primary attempt has failed: never more than two
    requests, never the fallback model first. Both requests carry the same
    prompt; the primary one names the configured model with the reasoning
    flag of the wrapper, the fallback one names the fallback model and
    never asks for reasoning. *)
Theorem generators_send_at_most_two {R : Runtime} (self : llm.LLMWrapper) (query : str)
    (docs : list embeddings.Passage) (history : option (list Turn)) (w : World) :
  let sent_by (first second : Request) (r : result str * World) :=
    (calls r.2 = calls w ++ [first]
     \/ (calls r.2 = calls w ++ [first; second]
         /\ exists e w1, derived.attempt first w = (inl e, w1)))
    /\ req_model first = llm.model self
    /\ req_reasoning first = llm.enable_reasoning self
    /\ req_model second = llm.fallback_model self
    /\ req_reasoning second = false
    /\ req_messages second = req_messages first in
  sent_by (derived.rag_request self query docs history false)
          (derived.rag_request self query docs history true)
          (llm.generate_response self query docs history false w)
  /\ sent_by (derived.general_request self query history false)
             (derived.general_request self query history true)
             (llm.generate_general_response self query history w).
Proof.
  cbv zeta. split.
  - split.
    + destruct (generate_response_sent self query docs history w) as [(H & _)|H]; auto.
    + cbn. rewrite andb_true_r, andb_false_r. done.
  - split.
    + destruct (generate_general_calls self query history w) as [H|(H & _ & H')]; auto.
    + cbn. rewrite andb_true_r, andb_false_r. done.
Qed.

(** X14. When the primary attempt succeeds, the generator returns its
    answer and has sent the primary request only: the fallback model is
    not called. *)
Theorem primary_success_single_request {R : Runtime} (self : llm.LLMWrapper)
    (query : str) (docs : list embeddings.Passage) (history : option (list Turn))
    (w w1 : World) (a : str) :
  derived.attempt
    (if py.truthy docs then derived.rag_request self query docs history false
     else derived.general_request self query history false) w = (inr a, w1) ->
  derived.generator self query docs history w = (inr a, w1)
  /\ calls w1 = calls w ++ [ if py.truthy docs
                             then derived.rag_request self query docs history false
                             else derived.general_request self query history false ].
Proof.
  intros Hfirst. split.
  - unfold derived.generator. destruct (py.truthy docs).
    + by apply generate_response_primary_ok.
    + by apply generate_general_primary_ok.
  - match type of Hfirst with derived.attempt ?req _ = _ =>
      pose proof (attempt_calls req w) as Hc
    end.
    by rewrite Hfirst in Hc.
Qed.

Lemma primary_success_single_request_witness :
  let self := llm.__init__ default_settings in
  let w := stub.fresh stub.rt_no_knowledge 0%nat in
  let r := derived.generator (R := stub.rt_no_knowledge) self $"hello" [] None w in
  r.1 = inr $"OK"
  /\ calls r.2 = calls w ++ [ derived.general_request self $"hello" None false ].
Proof.
  intros self w r.
  pose (first := derived.attempt (R := stub.rt_no_knowledge)
                   (derived.general_request self $"hello" None false) w).
  assert (Hfirst : first.1 = inr $"OK") by (vm_compute; reflexivity).
  destruct (@primary_success_single_request stub.rt_no_knowledge self $"hello" [] None
              w first.2 $"OK") as [Hret Hcalls].
  - rewrite <- Hfirst. apply surjective_pairing.
  - subst r. rewrite Hret. split; [reflexivity|exact Hcalls].
Defined.

(** X15. [summarize_document] sends exactly one request, to the configured
    model and without the reasoning flag, whose two messages are the fixed
    system message and the instruction followed by the document; there is
    no retry. It returns the stripped reply or raises an [LLMError], and it
    leaves the conversation memory and the collection alone. *)
Theorem summarize_document_single_request {R : Runtime} (self : llm.LLMWrapper)
    (document_content : str) (w : World) :
  let r := llm.summarize_document self document_content w in
  calls r.2 = calls w ++ [ {| req_model := llm.model self;
                              req_messages := llm.summary_messages document_content;
                              req_reasoning := false |} ]
  /\ conversations r.2 = conversations w
  /\ collection r.2 = collection w
  /\ match r.1 with
     | inr summary => py.strip summary = summary
     | inl e => exists cause,
                  e = Exn LLMError ($"Failed to generate summary: " ++ str_of_exn cause)
     end.
Proof.
  cbv zeta. unfold llm.summarize_document.
  rewrite try_except_eq.
  change (llm.create ?req ≫= λ response, lift (llm.answer_of response))
    with (derived.attempt req).
  set (req := {| req_model := llm.model self;
                 req_messages := llm.summary_messages document_content;
                 req_reasoning := false |}).
  pose proof (attempt_calls req w) as Hc.
  pose proof (attempt_frame req w) as [Hconv Hcoll].
  destruct (derived.attempt req w) as [[e|a] w1] eqn:Hres; simpl in *.
  - repeat split; try done. by exists e.
  - repeat split; try done. by eapply attempt_stripped.
Qed.

(** * Reading files *)

Section reading.
Context {R : Runtime}.

Lemma extract_txt_stripped (p text : str) :
  ingest._extract_txt_text p = inr text -> py.strip text = text.
Proof.
  unfold ingest._extract_txt_text. destruct (read_text p) as [e|raw]; [done|].
  intros [= <-]. apply strip_idempotent.
Qed.

Lemma extract_pdf_stripped (p text : str) :
  ingest._extract_pdf_text p = inr text -> py.strip text = text.
Proof.
  unfold ingest._extract_pdf_text. destruct (pdf_pages p) as [e|pages]; [done|].
  intros [= <-]. apply strip_idempotent.
Qed.

(** What a document that has been read holds. *)
Lemma ingest_document_reads (p : str) (doc : Document) :
  ingest.ingest_document p = inr doc ->
  path_exists p = true
  /\ extension doc = py.lower (path_suffix p)
  /\ extension doc ∈ ingest.supported_extensions
  /\ file_path doc = path_str p
  /\ file_name doc = path_name p
  /\ stat_size p = inr (file_size doc)
  /\ py.strip (content doc) = content doc.
Proof.
  unfold ingest.ingest_document, ingest.ingest_document_body.
  destruct (path_exists p); [|done]. cbn [negb].
  destruct (decide (py.lower (path_suffix p) ∈ ingest.supported_extensions))
    as [Hsup|Hsup].
  2:{ by rewrite bool_decide_eq_false_2. }
  rewrite bool_decide_eq_true_2 by done. cbn [negb].
  destruct (py.str_eqb (py.lower (path_suffix p)) $".pdf").
  - destruct (ingest._extract_pdf_text p) as [e|text] eqn:Htext; [done|].
    cbn. destruct (stat_size p) as [e|size]; [done|]. intros [= <-]. cbn.
    repeat split; try done. by eapply extract_pdf_stripped.
  - destruct (ingest._extract_txt_text p) as [e|text] eqn:Htext; [done|].
    cbn. destruct (stat_size p) as [e|size]; [done|]. intros [= <-]. cbn.
    repeat split; try done. by eapply extract_txt_stripped.
Qed.

(** Whatever goes wrong, [ingest_document] raises a
    [DocumentIngestionError] that wraps the cause. *)
Lemma ingest_document_raises (p : str) (e : exn) :
  ingest.ingest_document p = inl e ->
  exists cause,
    ingest.ingest_document_body p = inl cause
    /\ e = Exn DocumentIngestionError ($"Failed to ingest document: " ++ str_of_exn cause).
Proof.
  unfold ingest.ingest_document.
  destruct (ingest.ingest_document_body p) as [cause|doc]; [|done].
  intros [= <-]. eauto.
Qed.

Lemma ingest_directory_loop (is_file : str -> bool) (paths : list str)
    (documents : list Document) :
  for_each (fun documents file_path =>
      if is_file file_path
         && bool_decide (py.lower (path_suffix file_path) ∈ ingest.supported_extensions)
      then
        match ingest.ingest_document (path_str file_path) with
        | inr doc => mret (documents ++ [doc])
        | inl e =>
            match exn_cls e with
            | DocumentIngestionError => mret documents
            | _ => inl e
            end
        end
      else mret documents)
    paths documents
  = inr (documents ++ omap (derived.entry_document is_file) paths).
Proof.
  revert documents. induction paths as [|p paths IH]; intros documents.
  - cbn. by rewrite app_nil_r.
  - cbn [for_each omap list_omap]. unfold derived.entry_document at 1.
    destruct (is_file p && _).
    + destruct (ingest.ingest_document (path_str p)) as [e|doc] eqn:Hdoc.
      * apply ingest_document_raises in Hdoc as (cause & _ & ->).
        cbn. apply IH.
      * cbn. rewrite IH, <- app_assoc. reflexivity.
    + cbn. apply IH.
Qed.

End reading.

(** X16. A document that [ingest_document] returns comes from an existing
    file with a supported extension; its extension is the lower-cased
    suffix of the path, its name, path and size are those of the file, and
    its content carries no leading or trailing whitespace. *)
Theorem ingested_document_fields {R : Runtime} (p : str) (doc : Document) :
  ingest.ingest_document p = inr doc ->
  path_exists p = true
  /\ extension doc = py.lower (path_suffix p)
  /\ extension doc ∈ ingest.supported_extensions
  /\ file_path doc = path_str p
  /\ file_name doc = path_name p
  /\ stat_size p = inr (file_size doc)
  /\ py.strip (content doc) = content doc.
Proof. apply ingest_document_reads. Qed.

Lemma ingested_document_fields_witness :
  path_exists (Runtime := stub.rt_files) $"a.txt" = true
  /\ extension stub.doc_a = py.lower (path_suffix (Runtime := stub.rt_files) $"a.txt")
  /\ extension stub.doc_a ∈ ingest.supported_extensions
  /\ file_path stub.doc_a = path_str (Runtime := stub.rt_files) $"a.txt"
  /\ file_name stub.doc_a = path_name (Runtime := stub.rt_files) $"a.txt"
  /\ stat_size (Runtime := stub.rt_files) $"a.txt" = inr (file_size stub.doc_a)
  /\ py.strip (content stub.doc_a) = content stub.doc_a.
Proof.
  apply (@ingested_document_fields stub.rt_files $"a.txt" stub.doc_a).
  vm_compute. reflexivity.
Defined.

(** X17. Whatever goes wrong while a file is read, [ingest_document]
    raises a [DocumentIngestionError] and nothing else; its message is the
    fixed prefix followed by the message of the cause, which for a missing
    file names the path and for an unsupported extension names the
    suffix as written. *)
Theorem ingest_document_failure {R : Runtime} (p : str) (e : exn) :
  ingest.ingest_document p = inl e ->
  exists cause,
    e = Exn DocumentIngestionError ($"Failed to ingest document: " ++ str_of_exn cause)
    /\ (path_exists p = false ->
        cause = Exn DocumentIngestionError ($"File not found: " ++ p))
    /\ (path_exists p = true ->
        py.lower (path_suffix p) ∉ ingest.supported_extensions ->
        cause = Exn DocumentIngestionError ($"Unsupported file type: " ++ path_suffix p)).
Proof.
  intros He. apply ingest_document_raises in He as (cause & Hbody & ->).
  exists cause. split; [done|].
  unfold ingest.ingest_document_body in Hbody. split.
  - intros Hno. rewrite Hno in Hbody. cbn in Hbody. congruence.
  - intros Hyes Hsup. rewrite Hyes in Hbody. cbn [negb] in Hbody.
    rewrite bool_decide_eq_false_2 in Hbody by done. cbn in Hbody. congruence.
Qed.

Lemma ingest_document_failure_witness :
  exists cause,
    Exn DocumentIngestionError
      ($"Failed to ingest document: " ++ $"File not found: " ++ $"b.txt")
    = Exn DocumentIngestionError ($"Failed to ingest document: " ++ str_of_exn cause)
    /\ (path_exists (Runtime := stub.rt_files) $"b.txt" = false ->
        cause = Exn DocumentIngestionError ($"File not found: " ++ $"b.txt"))
    /\ (path_exists (Runtime := stub.rt_files) $"b.txt" = true ->
        py.lower (path_suffix (Runtime := stub.rt_files) $"b.txt")
          ∉ ingest.supported_extensions ->
        cause = Exn DocumentIngestionError
                  ($"Unsupported file type: "
                     ++ path_suffix (Runtime := stub.rt_files) $"b.txt")).
Proof.
  apply (@ingest_document_failure stub.rt_files $"b.txt").
  vm_compute. reflexivity.
Defined.

(** [ingest_directory] raises for a missing directory only. *)
Lemma ingest_directory_listing {R : Runtime} (rglob : str -> list str)
    (is_file : str -> bool) (directory_path : str) :
  ingest.ingest_directory rglob is_file directory_path
  = (if path_exists directory_path
     then inr (omap (derived.entry_document is_file) (rglob directory_path))
     else inl (Exn DocumentIngestionError ($"Directory not found: " ++ directory_path))).
Proof.
  unfold ingest.ingest_directory. destruct (path_exists directory_path); [|done].
  cbn [negb]. apply (ingest_directory_loop is_file (rglob directory_path) []).
Qed.

(** X18. [ingest_directory] raises for a missing directory, and for an
    existing one it never does: it returns, in the order of the listing,
    the documents of the regular files with a supported extension that can
    be read, and silently leaves out every other entry. Each document it
    returns has a supported extension. *)
Theorem ingest_directory_result {R : Runtime} (rglob : str -> list str)
    (is_file : str -> bool) (directory_path : str) :
  ingest.ingest_directory rglob is_file directory_path
  = (if path_exists directory_path
     then inr (omap (derived.entry_document is_file) (rglob directory_path))
     else inl (Exn DocumentIngestionError ($"Directory not found: " ++ directory_path)))
  /\ Forall (fun doc => extension doc ∈ ingest.supported_extensions)
       (omap (derived.entry_document is_file) (rglob directory_path))
  /\ (length (omap (derived.entry_document is_file) (rglob directory_path))
        <= length (rglob directory_path))%nat.
Proof.
  split; [|split].
  - apply ingest_directory_listing.
  - apply Forall_forall. intros doc Hdoc.
    apply list_elem_of_omap in Hdoc as (p & _ & Hp).
    unfold derived.entry_document in Hp. destruct (is_file p && _); [|done].
    destruct (ingest.ingest_document (path_str p)) as [e|doc'] eqn:Hread; [done|].
    injection Hp as <-. by apply ingest_document_reads in Hread as (_ & _ & ? & _).
  - induction (rglob directory_path) as [|p paths IH]; [done|].
    cbn [omap list_omap]. destruct (derived.entry_document is_file p); simpl; lia.
Qed.

(** * Writing chunks to the collection *)

Section collection_writes.
Context {vector : Type}.
Implicit Types (c : gmap str (chroma.Entry vector)) (r : str * chroma.Entry vector).

Lemma has_duplicates_NoDup (ids : list str) :
  chroma.has_duplicates ids = false <-> NoDup ids.
Proof.
  induction ids as [|i ids IH]; simpl.
  - split; [constructor|done].
  - rewrite NoDup_cons, orb_false_iff, bool_decide_eq_false. tauto.
Qed.

(** An id that no record carries is left as it was. *)
Lemma add_records_other recs c id :
  id ∉ recs.*1 -> fold_left chroma.add_record recs c !! id = c !! id.
Proof.
  revert c. induction recs as [|r recs IH]; intros c Hid; simpl; [done|].
  rewrite fmap_cons, not_elem_of_cons in Hid. destruct Hid as [Hne Hid].
  rewrite IH by done. unfold chroma.add_record.
  destruct (c !! r.1); [done|]. by rewrite lookup_insert_ne.
Qed.

(** A record with a fresh id, in a batch of distinct ids, is stored as
    given. *)
Lemma add_records_fresh recs c id e :
  NoDup recs.*1 -> (id, e) ∈ recs -> c !! id = None ->
  fold_left chroma.add_record recs c !! id = Some e.
Proof.
  revert c. induction recs as [|r recs IH]; intros c Hnd Hin Hc;
    [by apply elem_of_nil in Hin|].
  rewrite fmap_cons, NoDup_cons in Hnd. destruct Hnd as [Hr Hnd].
  apply elem_of_cons in Hin as [<-|Hin]; simpl.
  - rewrite add_records_other by done. unfold chroma.add_record. simpl.
    rewrite Hc. cbn. by rewrite lookup_insert_eq.
  - apply IH; [done|done|]. unfold chroma.add_record.
    destruct (c !! r.1); [done|]. rewrite lookup_insert_ne; [done|].
    intros Heq. apply Hr. rewrite Heq.
    apply (list_elem_of_fmap_2 fst recs (id, e)). done.
Qed.

End collection_writes.

Section chunk_writes.
Context {R : Runtime}.

(** The entry [add_documents] prepares for a chunk whose embedding is [v]. *)
Lemma add_documents_loop (chunks : list Chunk) ids0 documents0 metadatas0 embeddings0
    ids documents metadatas (embeddings : list vector) :
  for_each (fun '(ids, documents, metadatas, embeddings) chunk =>
      embedding ← embeddings.create_embedding (chunk_content chunk);
      mret (ids ++ [chunk_id chunk], documents ++ [chunk_content chunk],
            metadatas ++ [embeddings.chunk_metadata chunk], embeddings ++ [embedding]))
    chunks (ids0, documents0, metadatas0, embeddings0)
  = inr (ids, documents, metadatas, embeddings) ->
  exists vs,
    Forall2 (fun chunk v => embeddings.create_embedding (chunk_content chunk) = inr v)
      chunks vs
    /\ ids = ids0 ++ (chunk_id <$> chunks)
    /\ documents = documents0 ++ (chunk_content <$> chunks)
    /\ metadatas = metadatas0 ++ (embeddings.chunk_metadata <$> chunks)
    /\ embeddings = embeddings0 ++ vs.
Proof.
  revert ids0 documents0 metadatas0 embeddings0.
  induction chunks as [|chunk chunks IH]; intros ids0 documents0 metadatas0 embeddings0.
  - cbn. intros [= <- <- <- <-]. exists []. by rewrite !app_nil_r.
  - cbn [for_each].
    destruct (embeddings.create_embedding (chunk_content chunk)) as [e|v] eqn:Hv; [done|].
    cbn. intros Hrest. apply IH in Hrest as (vs & Hvs & -> & -> & -> & ->).
    exists (v :: vs). rewrite <- !app_assoc. split; [by constructor|done].
Qed.

Lemma records_of_chunks (chunks : list Chunk) (vs : list vector) :
  length vs = length chunks ->
  chroma.records (chunk_id <$> chunks) (chunk_content <$> chunks) vs
    (embeddings.chunk_metadata <$> chunks)
  = zip_with (fun chunk v =>
                (chunk_id chunk,
                 {| chroma.document := chunk_content chunk; chroma.embedding := v;
                    chroma.metadata := embeddings.chunk_metadata chunk |}))
      chunks vs.
Proof.
  revert vs. induction chunks as [|chunk chunks IH]; intros [|v vs] Hlen; try done.
  unfold chroma.records in *. cbn. f_equal. apply IH. simpl in Hlen. lia.
Qed.

Lemma zipped_ids {A B} (f : Chunk -> A -> B) (chunks : list Chunk) (vs : list A) :
  length vs = length chunks ->
  (zip_with (fun chunk v => (chunk_id chunk, f chunk v)) chunks vs).*1
  = chunk_id <$> chunks.
Proof.
  revert vs. induction chunks as [|chunk chunks IH]; intros [|v vs] Hlen; try done.
  cbn. f_equal. apply IH. simpl in Hlen. lia.
Qed.

Lemma zipped_member {A B} (P : Chunk -> A -> Prop) (f : Chunk -> A -> B)
    (chunks : list Chunk) (vs : list A) (chunk : Chunk) :
  Forall2 P chunks vs -> chunk ∈ chunks ->
  exists v, P chunk v /\ f chunk v ∈ zip_with f chunks vs.
Proof.
  induction 1 as [|c v chunks vs Hcv _ IH]; intros Hin; [by apply elem_of_nil in Hin|].
  apply elem_of_cons in Hin as [->|Hin].
  - exists v. split; [done|]. cbn. left.
  - destruct (IH Hin) as (v' & HP & Hin'). exists v'. split; [done|]. cbn. by right.
Qed.

(** What a successful [add_documents] has done to the collection. *)
Lemma add_documents_body_stores (chunks : list Chunk)
    (c c1 : gmap str (chroma.Entry vector)) :
  embeddings.add_documents_body chunks c = inr c1 ->
  chunks <> []
  /\ NoDup (chunk_id <$> chunks)
  /\ (forall chunk, chunk ∈ chunks -> c !! chunk_id chunk = None ->
        exists v,
          embeddings.create_embedding (chunk_content chunk) = inr v
          /\ c1 !! chunk_id chunk
             = Some {| chroma.document := chunk_content chunk; chroma.embedding := v;
                       chroma.metadata := embeddings.chunk_metadata chunk |})
  /\ (forall id, id ∉ chunk_id <$> chunks -> c1 !! id = c !! id).
Proof.
  unfold embeddings.add_documents_body.
  destruct (for_each _ chunks _) as [e|[[[ids documents] metadatas] embs]] eqn:Hloop;
    [done|].
  apply add_documents_loop in Hloop as (vs & Hvs & -> & -> & -> & ->).
  cbn [app].
  match goal with |- ?lhs = _ -> _ =>
    change lhs with (chroma.add (chunk_id <$> chunks) (chunk_content <$> chunks) vs
                       (embeddings.chunk_metadata <$> chunks) c)
  end.
  unfold chroma.add. intros Hadd.
  assert (Hne : chunks <> []) by (intros ->; by cbn in Hadd).
  assert (Htruthy : py.truthy (chunk_id <$> chunks) = true) by (by destruct chunks).
  rewrite Htruthy in Hadd. cbn [negb] in Hadd.
  destruct (chroma.has_duplicates (chunk_id <$> chunks)) eqn:Hdup; [done|].
  apply has_duplicates_NoDup in Hdup.
  destruct (negb (bool_decide _)); [done|]. injection Hadd as <-.
  pose proof (Forall2_length _ _ _ Hvs) as Hlen. symmetry in Hlen.
  rewrite records_of_chunks by done.
  split; [done|]. split; [done|]. split.
  - intros chunk Hin Hfresh.
    destruct (zipped_member _ (fun chunk v =>
                (chunk_id chunk,
                 {| chroma.document := chunk_content chunk; chroma.embedding := v;
                    chroma.metadata := embeddings.chunk_metadata chunk |}))
                _ _ chunk Hvs Hin) as (v & Hv & Hrec).
    exists v. split; [done|]. apply add_records_fresh; [|done|done].
    by rewrite zipped_ids.
  - intros id Hid. apply add_records_other. by rewrite zipped_ids.
Qed.

(** An empty batch, or one in which an id occurs twice, is refused. *)
Lemma add_documents_body_refuses (chunks : list Chunk)
    (c : gmap str (chroma.Entry vector)) :
  chunks = [] \/ ~ NoDup (chunk_id <$> chunks) ->
  exists e, embeddings.add_documents_body chunks c = inl e.
Proof.
  intros Hbad.
  destruct (embeddings.add_documents_body chunks c) as [e|c1] eqn:Hadd; [eauto|].
  apply add_documents_body_stores in Hadd as (Hne & Hnd & _). tauto.
Qed.

End chunk_writes.

(** X19. When [add_documents] succeeds, the batch was not empty and its
    chunk ids were distinct; every chunk whose id was free is now stored
    under its id with its content, its embedding and the four metadata
    fields; an entry that was there before is kept; no other id is
    touched, and the conversation memory is as before. *)
Theorem add_documents_stores_chunks {R : Runtime} (chunks : list Chunk) (w w1 : World) :
  embeddings.add_documents chunks w = (inr (), w1) ->
  chunks <> []
  /\ NoDup (chunk_id <$> chunks)
  /\ conversations w1 = conversations w
  /\ (forall id e, collection w !! id = Some e -> collection w1 !! id = Some e)
  /\ (forall chunk, chunk ∈ chunks -> collection w !! chunk_id chunk = None ->
        exists v,
          embeddings.create_embedding (chunk_content chunk) = inr v
          /\ collection w1 !! chunk_id chunk
             = Some {| chroma.document := chunk_content chunk; chroma.embedding := v;
                       chroma.metadata := embeddings.chunk_metadata chunk |})
  /\ (forall id, id ∉ chunk_id <$> chunks -> collection w1 !! id = collection w !! id).
Proof.
  unfold embeddings.add_documents.
  destruct (embeddings.add_documents_body chunks (collection w)) as [e|c1] eqn:Hadd;
    [done|].
  intros [= <-]. cbn [conversations collection].
  pose proof (add_documents_body_stores _ _ _ Hadd) as (Hne & Hnd & Hnew & Hother).
  split; [done|]. split; [done|]. split; [done|]. split; [|by split].
  intros id e. by apply (add_documents_body_keeps chunks).
Qed.

Lemma add_documents_stores_chunks_witness :
  let chunk := preprocess.chunk_doc stub.doc_a 0 $"A. B. C." in
  let w := stub.fresh stub.rt_files 0%nat in
  let r := embeddings.add_documents (R := stub.rt_files) [chunk] w in
  r.1 = inr ()
  /\ exists v,
       embeddings.create_embedding (R := stub.rt_files) (chunk_content chunk) = inr v
       /\ collection r.2 !! chunk_id chunk
          = Some {| chroma.document := chunk_content chunk; chroma.embedding := v;
                    chroma.metadata := embeddings.chunk_metadata chunk |}.
Proof.
  intros chunk w r.
  assert (Hfirst : r.1 = inr ()) by (vm_compute; reflexivity).
  split; [exact Hfirst|].
  destruct (@add_documents_stores_chunks stub.rt_files [chunk] w r.2)
    as (_ & _ & _ & _ & Hnew & _).
  - rewrite <- Hfirst. apply surjective_pairing.
  - apply Hnew; [left|reflexivity].
Defined.

(** X20. [add_documents] refuses an empty batch and a batch in which a
    chunk id occurs twice: it raises an [EmbeddingError] and leaves the
    state as it was. *)
Theorem add_documents_rejects {R : Runtime} (chunks : list Chunk) (w : World) :
  chunks = [] \/ ~ NoDup (chunk_id <$> chunks) ->
  exists msg, embeddings.add_documents chunks w = (inl (Exn EmbeddingError msg), w).
Proof.
  intros Hbad. unfold embeddings.add_documents.
  destruct (add_documents_body_refuses chunks (collection w) Hbad) as [e ->]. eauto.
Qed.

Lemma add_documents_rejects_witness :
  let chunk := preprocess.chunk_doc stub.doc_a 0 $"A. B. C." in
  exists msg,
    embeddings.add_documents (R := stub.rt_files) [chunk; chunk]
      (stub.fresh stub.rt_files 0%nat)
    = (inl (Exn EmbeddingError msg), stub.fresh stub.rt_files 0%nat).
Proof.
  intros chunk.
  apply (@add_documents_rejects stub.rt_files [chunk; chunk]
           (stub.fresh stub.rt_files 0%nat)).
  right. intros Hnd. apply NoDup_cons in Hnd as [Hnotin _]. apply Hnotin. left.
Defined.

(** * Ingestion through the pipeline *)

(** X21. A batch that yields no chunk at all, or two chunks with the same
    id, cannot be ingested: although every file was read,
    [ingest_documents] raises a [ChatbotError] and leaves the state as it
    was. This is the case of a batch of empty files, and of a batch that
    names two files of the same name. *)
Theorem ingest_without_chunks_fails {R : Runtime} (self : rag_pipeline.RAGPipeline)
    (file_paths : list str) (documents : list Document) (w : World) :
  derived.read_batch file_paths = inr documents ->
  (let chunks := preprocess.process_documents (rag_pipeline.preprocessor self) documents in
   chunks = [] \/ ~ NoDup (chunk_id <$> chunks)) ->
  exists msg,
    rag_pipeline.ingest_documents self file_paths w = (inl (Exn ChatbotError msg), w).
Proof.
  intros Hread Hbad. cbv zeta in Hbad.
  rewrite ingest_documents_unfold, Hread.
  destruct (add_documents_body_refuses _ (collection w) Hbad) as [e ->]. eauto.
Qed.

Lemma ingest_without_chunks_fails_witness :
  exists msg,
    rag_pipeline.ingest_documents (R := stub.rt_files)
      (rag_pipeline.__init__ default_settings) [ $"e.txt" ]
      (stub.fresh stub.rt_files 0%nat)
    = (inl (Exn ChatbotError msg), stub.fresh stub.rt_files 0%nat).
Proof.
  apply (@ingest_without_chunks_fails stub.rt_files
           (rag_pipeline.__init__ default_settings) [ $"e.txt" ] [ stub.doc_e ]).
  - vm_compute. reflexivity.
  - left. vm_compute. reflexivity.
Defined.

(** X22. After [clear_knowledge_base], which cannot fail, a successful
    [ingest_documents] leaves a collection that holds the chunks of the
    batch and nothing else: an id has an entry exactly when it is the id of
    a chunk of the batch, and that entry carries the content and the
    metadata of the chunk. The conversation memory is untouched by both
    calls. *)
Theorem ingest_into_cleared_base {R : Runtime} (self : rag_pipeline.RAGPipeline)
    (file_paths : list str) (w w1 : World) :
  rag_pipeline.ingest_documents self file_paths (rag_pipeline.clear_knowledge_base w).2
  = (inr (), w1) ->
  (rag_pipeline.clear_knowledge_base w).1 = inr ()
  /\ conversations w1 = conversations w
  /\ exists documents,
       derived.read_batch file_paths = inr documents
       /\ (forall id,
             is_Some (collection w1 !! id)
             <-> id ∈ chunk_id <$> preprocess.process_documents
                                     (rag_pipeline.preprocessor self) documents)
       /\ (forall chunk,
             chunk ∈ preprocess.process_documents (rag_pipeline.preprocessor self) documents ->
             chroma.document <$> (collection w1 !! chunk_id chunk)
             = Some (chunk_content chunk)
             /\ chroma.metadata <$> (collection w1 !! chunk_id chunk)
                = Some (embeddings.chunk_metadata chunk)).
Proof.
  unfold rag_pipeline.clear_knowledge_base. rewrite try_except_eq.
  unfold embeddings.clear_collection. cbn [fst snd].
  rewrite ingest_documents_unfold.
  destruct (derived.read_batch file_paths) as [e|documents]; [done|].
  cbn [collection conversations].
  destruct (embeddings.add_documents_body _ ∅) as [e|c1] eqn:Hadd; [done|].
  intros [= <-]. cbn [collection conversations].
  apply add_documents_body_stores in Hadd as (_ & _ & Hnew & Hother).
  split; [done|]. split; [done|]. exists documents. split; [done|].
  assert (Hstored : forall chunk,
            chunk ∈ preprocess.process_documents (rag_pipeline.preprocessor self) documents ->
            exists v, c1 !! chunk_id chunk
                      = Some {| chroma.document := chunk_content chunk;
                                chroma.embedding := v;
                                chroma.metadata := embeddings.chunk_metadata chunk |}).
  { intros chunk Hin. destruct (Hnew chunk Hin (lookup_empty _)) as (v & _ & Hv). eauto. }
  split.
  - intros id. split.
    + intros Hsome.
      destruct (decide (id ∈ chunk_id <$> preprocess.process_documents
                                (rag_pipeline.preprocessor self) documents))
        as [Hin|Hout]; [done|].
      rewrite (Hother id Hout), lookup_empty in Hsome. by destruct Hsome.
    + intros Hin. apply list_elem_of_fmap in Hin as (chunk & -> & Hin).
      destruct (Hstored chunk Hin) as (v & ->). eauto.
  - intros chunk Hin. destruct (Hstored chunk Hin) as (v & ->). done.
Qed.

Lemma ingest_into_cleared_base_witness :
  let self := rag_pipeline.__init__ default_settings in
  let r := rag_pipeline.ingest_documents (R := stub.rt_files) self [ $"a.txt" ]
             (rag_pipeline.clear_knowledge_base stub.stale).2 in
  r.1 = inr ()
  /\ (rag_pipeline.clear_knowledge_base stub.stale).1 = inr ()
  /\ conversations r.2 = conversations stub.stale.
Proof.
  intros self r.
  assert (Hfirst : r.1 = inr ()) by (vm_compute; reflexivity).
  split; [exact Hfirst|].
  destruct (@ingest_into_cleared_base stub.rt_files self [ $"a.txt" ] stub.stale r.2)
    as (Hclear & Hconv & _).
  - rewrite <- Hfirst. apply surjective_pairing.
  - split; [exact Hclear|exact Hconv].
Defined.

(** X23. [RAGPipeline.ingest_directory] raises a [ChatbotError] for a
    missing directory; for an existing one it hands to [add_documents] the
    chunks of the documents of the listing that could be read, and raises
    a [ChatbotError] when that write fails. A failure leaves the state as
    it was, and a success changes nothing but the collection. *)
Theorem directory_ingestion_outcome {R : Runtime} (self : rag_pipeline.RAGPipeline)
    (rglob : str -> list str) (is_file : str -> bool) (directory_path : str)
    (w : World) :
  let documents := omap (derived.entry_document is_file) (rglob directory_path) in
  let chunks := preprocess.process_documents (rag_pipeline.preprocessor self) documents in
  let r := rag_pipeline.ingest_directory self rglob is_file directory_path w in
  r = (if path_exists directory_path
       then match embeddings.add_documents chunks w with
            | (inr _, w1) => (inr (), w1)
            | (inl e, w1) =>
                (inl (Exn ChatbotError
                        ($"Directory ingestion failed: " ++ str_of_exn e)), w1)
            end
       else (inl (Exn ChatbotError
                    ($"Directory ingestion failed: " ++ $"Directory not found: "
                       ++ directory_path)), w))
  /\ match r with
     | (inl e, w1) => w1 = w /\ exn_cls e = ChatbotError
     | (inr _, w1) => conversations w1 = conversations w /\ calls w1 = calls w
                      /\ out w1 = out w
     end.
Proof.
  cbv zeta. unfold rag_pipeline.ingest_directory.
  rewrite try_except_eq, bind_eq. unfold lift.
  rewrite ingest_directory_listing.
  destruct (path_exists directory_path); [|done].
  unfold embeddings.add_documents.
  destruct (embeddings.add_documents_body _ (collection w)) as [e|c1]; done.
Qed.

(** * Chunk ids *)

Lemma to_int_proper (z : Z) :
  Z.to_int z <> Decimal.Pos Decimal.Nil /\ Z.to_int z <> Decimal.Neg Decimal.Nil.
Proof.
  destruct z as [|p|p]; cbn; split; try discriminate;
    intros [= H]; by apply Unsigned.to_uint_nonnil in H.
Qed.

(** Distinct integers are written differently. *)
Lemma str_of_int_inj (a b : Z) : py.str_of_int a = py.str_of_int b -> a = b.
Proof.
  unfold py.str_of_int, py.lit. intros H.
  apply (f_equal string_of_list_ascii) in H.
  rewrite !string_of_list_ascii_of_string in H.
  apply (f_equal NilZero.int_of_string) in H.
  destruct (to_int_proper a) as [Ha1 Ha2], (to_int_proper b) as [Hb1 Hb2].
  rewrite !NilZero.isi in H by done.
  injection H as H. by apply to_int_inj.
Qed.

(** * No chunk is empty *)

Lemma join_docs_nonempty (docs : list str) (separator doc : str) :
  text_splitter._join_docs docs separator = Some doc -> doc <> [].
Proof.
  unfold text_splitter._join_docs.
  destruct (py.strip (py.join separator docs)) as [|c t]; cbn [py.truthy]; [done|].
  by intros [= <-].
Qed.

Lemma merge_step_nonempty (self : text_splitter.RecursiveCharacterTextSplitter)
    (separator : str) (st st' : list str * list str * Z) (d : str) :
  Forall (fun s => s <> []) st.1.1 ->
  text_splitter.merge_step self separator st d = inr st' ->
  Forall (fun s => s <> []) st'.1.1.
Proof.
  destruct st as [[docs current_doc] total]. cbn [fst]. intros Hdocs.
  unfold text_splitter.merge_step.
  destruct (_ && _).
  - destruct (text_splitter.pop_while self (len separator) (len d) current_doc total)
      as [e|[kept total']]; [done|].
    cbn [mbind result_bind mret result_ret]. intros [= <-]. cbn [fst].
    destruct (text_splitter._join_docs current_doc separator) as [doc|] eqn:Hj; [|done].
    apply Forall_app. split; [done|]. constructor; [|done].
    by eapply join_docs_nonempty.
  - cbn [mbind result_bind mret result_ret]. by intros [= <-].
Qed.

Lemma merge_splits_nonempty (self : text_splitter.RecursiveCharacterTextSplitter)
    (splits : list str) (separator : str) (docs : list str) :
  text_splitter._merge_splits self splits separator = inr docs ->
  Forall (fun s => s <> []) docs.
Proof.
  unfold text_splitter._merge_splits.
  destruct (for_each _ splits _) as [e|[[docs0 current_doc] total]] eqn:Hloop; [done|].
  cbn [mbind result_bind].
  apply (for_each_invariant (fun st => Forall (fun s => s <> []) st.1.1)) in Hloop.
  - cbn [fst] in Hloop.
    destruct (text_splitter._join_docs current_doc separator) as [doc|] eqn:Hj;
      intros [= <-]; [|done].
    apply Forall_app. split; [done|]. constructor; [|done].
    by eapply join_docs_nonempty.
  - intros s d s' _. apply merge_step_nonempty.
  - constructor.
Qed.

Lemma flush_nonempty (self : text_splitter.RecursiveCharacterTextSplitter)
    (final_chunks good final_chunks' : list str) :
  Forall (fun s => s <> []) final_chunks ->
  text_splitter.flush self final_chunks good = inr final_chunks' ->
  Forall (fun s => s <> []) final_chunks'.
Proof.
  intros Hfinal. unfold text_splitter.flush.
  destruct (py.truthy good); [|by intros [= <-]].
  destruct (text_splitter._merge_splits self good []) as [e|merged] eqn:Hm; [done|].
  cbn [mbind result_bind mret result_ret]. intros [= <-].
  apply Forall_app. split; [done|]. by eapply merge_splits_nonempty.
Qed.

Lemma split_with_nonempty (self : text_splitter.RecursiveCharacterTextSplitter)
    separator recur (text : str) (chunks : list str) :
  match recur with
  | None => True
  | Some f => forall s r, f s = inr r -> Forall (fun s => s <> []) r
  end ->
  text_splitter.split_with self separator recur text = inr chunks ->
  Forall (fun s => s <> []) chunks.
Proof.
  intros Hrecur. unfold text_splitter.split_with.
  destruct (for_each _ _ _) as [e|[final_chunks good]] eqn:Hloop; [done|].
  cbn [mbind result_bind].
  apply (for_each_invariant (fun st => Forall (fun s => s <> []) st.1)) in Hloop.
  - by apply flush_nonempty.
  - intros [final good0] s [final' good'] Hs Hf. cbn [fst] in Hf |- *.
    destruct (len s <? text_splitter._chunk_size self).
    + by intros [= <- <-].
    + destruct (text_splitter.flush self final good0) as [e|final1] eqn:Hfl; [done|].
      cbn [mbind result_bind].
      apply flush_nonempty in Hfl; [|done].
      destruct recur as [f|].
      * destruct (f s) as [e|other] eqn:Hfs; [done|].
        cbn [mbind result_bind mret result_ret]. intros [= <- <-].
        apply Forall_app. split; [done|]. by eapply Hrecur.
      * intros [= <- <-]. apply Forall_app. split; [done|]. constructor; [|done].
        pose proof (pieces_nonempty text separator) as Hpieces.
        rewrite Forall_forall in Hpieces. by apply Hpieces.
  - constructor.
Qed.

Lemma split_text_nonempty (self : text_splitter.RecursiveCharacterTextSplitter)
    (separators : list str) (text : str) (chunks : list str) :
  text_splitter._split_text self separators text = inr chunks ->
  Forall (fun s => s <> []) chunks.
Proof.
  revert text chunks.
  induction separators as [|s rest IH]; intros text chunks; [done|].
  cbn [text_splitter._split_text].
  destruct (negb (py.truthy s)).
  { by apply split_with_nonempty. }
  destruct (py.contains s text).
  - apply split_with_nonempty. destruct rest; [done|]. intros t r. apply IH.
  - destruct rest; [by apply split_with_nonempty|]. apply IH.
Qed.

(** X24. Whatever the settings, the chunks of a document carry the
    indices 0, 1, 2, ... in order and pairwise distinct ids, each names
    the file and the path of the document, none has an empty content, and
    the size recorded with a chunk is the length of its content. *)
Theorem chunks_of_a_document (self : preprocess.TextPreprocessor) (document : Document) :
  let chunks := preprocess.chunk_document self document in
  NoDup (chunk_id <$> chunks)
  /\ chunk_index <$> chunks = Z.of_nat <$> seq 0 (length chunks)
  /\ Forall (fun chunk =>
               source_document chunk = file_name document
               /\ source_path chunk = file_path document
               /\ chunk_content chunk <> []
               /\ chunk_len chunk = len (chunk_content chunk)) chunks.
Proof.
  cbv zeta. unfold preprocess.chunk_document.
  destruct (text_splitter.split_text _ _) as [e|pieces] eqn:Hsplit.
  { split; [constructor|]. split; [done|constructor]. }
  apply split_text_nonempty in Hsplit.
  split; [|split].
  - apply NoDup_alt. intros i j id Hi Hj.
    rewrite list_lookup_fmap, list_lookup_imap in Hi, Hj.
    destruct (pieces !! i); [|done]. destruct (pieces !! j); [|done].
    cbn in Hi, Hj. injection Hi as <-. injection Hj as Hj.
    apply app_inv_head in Hj. injection Hj as Hj. apply str_of_int_inj in Hj. lia.
  - apply list_eq. intros i.
    rewrite !list_lookup_fmap, list_lookup_imap, length_imap.
    destruct (pieces !! i) as [piece|] eqn:Hi; cbn.
    + rewrite lookup_seq_lt by (by eapply lookup_lt_Some). done.
    + rewrite lookup_seq_ge by (by apply lookup_ge_None). done.
  - apply Forall_forall. intros chunk Hin.
    apply list_elem_of_lookup in Hin as [i Hi]. rewrite list_lookup_imap in Hi.
    destruct (pieces !! i) as [piece|] eqn:Hpiece; [|done].
    injection Hi as <-. cbn. repeat split; try done.
    rewrite Forall_forall in Hsplit. apply Hsplit.
    apply list_elem_of_lookup. eauto.
Qed.

(** * What cleaning keeps *)

Section kept.
Variable p : ascii -> bool.
Hypothesis p_solid : forall c, p c = true -> py.isspace c = false.

Lemma p_space (c : ascii) : py.isspace c = true -> p c = false.
Proof.
  intros Hc. destruct (p c) eqn:Hp; [|done]. apply p_solid in Hp. congruence.
Qed.

Lemma filter_lstrip (s : str) : List.filter p (py.lstrip s) = List.filter p s.
Proof.
  induction s as [|c t IH]; [done|]. cbn [py.lstrip].
  destruct (py.isspace c) eqn:Hc; [|done].
  cbn [List.filter]. by rewrite (p_space c Hc).
Qed.

Lemma filter_reversed (s : str) : List.filter p (rev s) = rev (List.filter p s).
Proof.
  induction s as [|c t IH]; [done|]. cbn [rev List.filter].
  rewrite List.filter_app, IH. cbn [List.filter].
  destruct (p c); cbn [rev]; [done|]. by rewrite app_nil_r.
Qed.

Lemma filter_strip (s : str) : List.filter p (py.strip s) = List.filter p s.
Proof.
  unfold py.strip, py.rstrip.
  by rewrite filter_reversed, filter_lstrip, filter_reversed, rev_involutive, filter_lstrip.
Qed.

Lemma filter_collapse (in_run : bool) (text : str) :
  List.filter p (preprocess.collapse_whitespace in_run text) = List.filter p text.
Proof.
  revert in_run. induction text as [|c t IH]; intros in_run; [done|].
  cbn [preprocess.collapse_whitespace List.filter].
  destruct (py.isspace c) eqn:Hc.
  - rewrite List.filter_app, IH, (p_space c Hc).
    destruct in_run; [done|].
    change (List.filter p $" ") with (if p " "%char then [" "%char] else []).
    by rewrite (p_space " "%char).
  - cbn [List.filter]. by rewrite IH.
Qed.

End kept.

Lemma collapse_whitespace_length (in_run : bool) (text : str) :
  (length (preprocess.collapse_whitespace in_run text) <= length text)%nat.
Proof.
  revert in_run. induction text as [|c t IH]; intros in_run; [done|].
  cbn [preprocess.collapse_whitespace].
  destruct (py.isspace c).
  - specialize (IH true). destruct in_run; rewrite length_app;
      [|change (length $" ") with 1%nat]; cbn [length]; lia.
  - specialize (IH false). cbn [length]. lia.
Qed.

(** X25. Cleaning deletes whitespace and characters outside the
    allow-list, and nothing else: the allowed characters of the text that
    are not whitespace are all in the cleaned text, in their order, and
    are its only characters besides spaces. The cleaned text is never
    longer than the text. *)
Theorem clean_text_keeps_allowed_characters (text : str) :
  let solid := fun c => preprocess.allowed c && negb (py.isspace c) in
  List.filter solid (preprocess.clean_text text) = List.filter solid text
  /\ List.filter (fun c => negb (py.isspace c)) (preprocess.clean_text text)
     = List.filter solid text
  /\ (length (preprocess.clean_text text) <= length text)%nat.
Proof.
  cbv zeta.
  assert (Hsolid : forall c,
            preprocess.allowed c && negb (py.isspace c) = true -> py.isspace c = false).
  { intros c Hc. apply andb_prop in Hc as [_ Hc]. by destruct (py.isspace c). }
  assert (Hfirst : List.filter (fun c => preprocess.allowed c && negb (py.isspace c))
                     (preprocess.clean_text text)
                   = List.filter (fun c => preprocess.allowed c && negb (py.isspace c))
                       text).
  { unfold preprocess.clean_text. rewrite filter_strip by done.
    rewrite <- (filter_collapse _ Hsolid false text).
    induction (preprocess.collapse_whitespace false text) as [|c t IH]; [done|].
    cbn [List.filter]. destruct (preprocess.allowed c) eqn:Ha; cbn [List.filter andb].
    - rewrite Ha. cbn [andb]. by rewrite IH.
    - exact IH. }
  split; [exact Hfirst|]. split.
  - rewrite <- Hfirst.
    destruct (clean_text_properties text) as (_ & Hallowed & _).
    clear Hfirst. revert Hallowed. generalize (preprocess.clean_text text).
    intros l Hl. induction Hl as [|c t Hc _ IH]; [done|].
    cbn [List.filter]. rewrite Hc. cbn [andb]. by rewrite IH.
  - unfold preprocess.clean_text.
    pose proof (strip_length (List.filter preprocess.allowed
                                (preprocess.collapse_whitespace false text))).
    pose proof (List.filter_length_le preprocess.allowed
                  (preprocess.collapse_whitespace false text)).
    pose proof (collapse_whitespace_length false text). lia.
Qed.

(** * The passages of a search *)

Lemma item_lookup {A} (l : list A) (i : nat) (x : A) :
  embeddings.item l i = inr x -> l !! i = Some x.
Proof. unfold embeddings.item. destruct (l !! i); [by intros [= <-]|done]. Qed.

Lemma item_cell {A} (rows : list (list A)) (row : list A) (i : nat) (x : A) :
  embeddings.item rows 0 = inr row -> embeddings.item row i = inr x ->
  derived.cell rows i = Some x.
Proof.
  intros Hrow Hx. apply item_lookup in Hrow, Hx.
  unfold derived.cell. rewrite Hrow. exact Hx.
Qed.

Section search.
Context {R : Runtime}.

Lemma search_loop (results : chroma.QueryResult distance) (ids0 : list str)
    (k m : nat) (similar_docs docs : list embeddings.Passage) :
  embeddings.item (chroma.ids results) 0 = inr ids0 ->
  for_each (fun similar_docs i =>
      doc_id ← embeddings.item ids0 i;
      documents0 ← embeddings.item (chroma.documents results) 0;
      doc_content ← embeddings.item documents0 i;
      metadatas0 ← embeddings.item (chroma.metadatas results) 0;
      doc_metadata ← embeddings.item metadatas0 i;
      doc_distance ←
        match chroma.distances results with
        | Some distances =>
            distances0 ← embeddings.item distances 0;
            d ← embeddings.item distances0 i; mret (Some d)
        | None => mret None
        end;
      mret (similar_docs ++ [ {| embeddings.id := doc_id;
                                 embeddings.content := doc_content;
                                 embeddings.metadata := doc_metadata;
                                 embeddings.distance_to_query := doc_distance |} ]))
    (seq k m) similar_docs
  = inr docs ->
  exists found,
    docs = similar_docs ++ found
    /\ length found = m
    /\ forall j doc, found !! j = Some doc -> derived.paired results (k + j) doc.
Proof.
  intros Hids. revert k similar_docs.
  induction m as [|m IH]; intros k similar_docs.
  - cbn. intros [= <-]. exists []. rewrite app_nil_r. by repeat split.
  - cbn [seq for_each].
    destruct (embeddings.item ids0 k) as [e|doc_id] eqn:Hid; [done|].
    cbn [mbind result_bind].
    destruct (embeddings.item (chroma.documents results) 0) as [e|documents0] eqn:Hd0;
      [done|]. cbn [mbind result_bind].
    destruct (embeddings.item documents0 k) as [e|doc_content] eqn:Hd; [done|].
    cbn [mbind result_bind].
    destruct (embeddings.item (chroma.metadatas results) 0) as [e|metadatas0] eqn:Hm0;
      [done|]. cbn [mbind result_bind].
    destruct (embeddings.item metadatas0 k) as [e|doc_metadata] eqn:Hm; [done|].
    cbn [mbind result_bind].
    destruct (match chroma.distances results with
              | Some distances => _
              | None => _
              end) as [e|doc_distance] eqn:Hdist; [done|].
    cbn [mbind result_bind mret result_ret].
    intros Hrest. apply IH in Hrest as (found & -> & Hlen & Hfound).
    eexists (_ :: found). split; [by rewrite <- app_assoc|]. split; [simpl; lia|].
    intros [|j] doc.
    + intros [= <-]. rewrite Nat.add_0_r. unfold derived.paired. cbn.
      split; [by eapply item_cell|]. split; [by eapply item_cell|].
      split; [by eapply item_cell|].
      destruct (chroma.distances results) as [distances|]; cbn.
      * destruct (embeddings.item distances 0) as [e|distances0] eqn:Hx0; [done|].
        cbn in Hdist.
        destruct (embeddings.item distances0 k) as [e|d] eqn:Hx; [done|].
        cbn in Hdist. injection Hdist as <-. symmetry.
        by eapply (item_cell distances).
      * by injection Hdist as <-.
    + intros Hj. replace (k + S j)%nat with (S k + j)%nat by lia. by apply Hfound.
Qed.

End search.

(** X26. A search that succeeds leaves the state as it is and returns one
    passage per id of the first row of the query result, in that order:
    the passage at a position pairs the id, the document, the metadata
    and, when the result has distances, the distance found at that
    position. The query is made on the embedding of the question with the
    given number of results. *)
Theorem search_similar_passages {R : Runtime} (query : str) (top_k : Z) (w w' : World)
    (docs : list embeddings.Passage) :
  embeddings.search_similar query top_k w = (inr docs, w') ->
  w' = w
  /\ exists query_embedding results,
       embeddings.create_embedding query = inr query_embedding
       /\ collection_query (collection w) query_embedding top_k = inr results
       /\ Some (embeddings.id <$> docs) = chroma.ids results !! 0%nat
       /\ forall i doc, docs !! i = Some doc -> derived.paired results i doc.
Proof.
  unfold embeddings.search_similar.
  destruct (embeddings.search_similar_body query top_k (collection w)) as [e|found]
    eqn:Hbody; [done|].
  intros [= <- <-]. split; [done|].
  unfold embeddings.search_similar_body in Hbody.
  destruct (embeddings.create_embedding query) as [e|v] eqn:Hv; [done|].
  cbn [mbind result_bind] in Hbody.
  destruct (collection_query (collection w) v top_k) as [e|results] eqn:Hq; [done|].
  cbn [mbind result_bind] in Hbody.
  destruct (embeddings.item (chroma.ids results) 0) as [e|ids0] eqn:Hids; [done|].
  cbn [mbind result_bind] in Hbody.
  apply (search_loop results ids0 0 (length ids0) [] found Hids)
    in Hbody as (found' & -> & Hlen & Hfound).
  exists v, results. split; [done|]. split; [done|].
  cbn [app] in *. split; [|exact Hfound].
  apply item_lookup in Hids. rewrite Hids. f_equal.
  apply list_eq. intros i. rewrite list_lookup_fmap.
  destruct (found' !! i) as [doc|] eqn:Hdoc; cbn.
  - destruct (Hfound i doc Hdoc) as (Hcell & _).
    unfold derived.cell in Hcell. rewrite Hids in Hcell. cbn in Hcell. by rewrite Hcell.
  - symmetry. apply lookup_ge_None. apply lookup_ge_None in Hdoc. lia.
Qed.

Lemma search_similar_passages_witness :
  let w := stub.fresh stub.rt_long_passage 0%nat in
  let r := embeddings.search_similar (R := stub.rt_long_passage) $"what?" 5 w in
  exists docs,
    r.1 = inr docs
    /\ r.2 = w
    /\ Some (embeddings.id <$> docs) = Some [ $"a.txt_chunk_0" ].
Proof.
  intros w r.
  assert (Hfirst : exists docs,
            r.1 = inr docs
            /\ Some (embeddings.id <$> docs) = Some [ $"a.txt_chunk_0" ])
    by (eexists; split; vm_compute; reflexivity).
  destruct Hfirst as (docs & Hfirst & Hids).
  exists docs. split; [exact Hfirst|].
  destruct (@search_similar_passages stub.rt_long_passage $"what?" 5 w r.2 docs)
    as (Hsame & _).
  - rewrite <- Hfirst. apply surjective_pairing.
  - split; [exact Hsame|exact Hids].
Defined.
